(** * csv-to-biiif: a shallow embedding of [src/csv-to-biiif.ts]

    The tool turns the rows of a spreadsheet into a directory tree with one
    [info.yml] per node, copies the asset files whose names carry the number
    of a canvas into that canvas' directory and merges probed dimensions and
    durations into the row.

    Conventions of the embedding.
    - A JavaScript string is a [string]; a character of it is a code unit
      below 256 (the Latin-1 range).
    - A JavaScript number is an IEEE 754 binary64 value, represented by
      [spec_float] with precision 53 and maximal exponent 1024.
    - An object is the list of its properties in the order in which they
      are enumerated: for the fixed names of a row and of the document that
      is the order of the first assignments; for the metadata bag, whose
      names come from the headers of the CSV file, array indices go first
      and [__proto__] names no property.
    - Effects (the file system, the diagnostics) are threaded through a state
      and exception monad. *)

From Stdlib Require Import ZArith List String Ascii Bool Lia Permutation.
From Stdlib Require Import SpecFloat.
Import ListNotations.

Local Open Scope string_scope.
Local Open Scope bool_scope.

(* ===================================================================== *)
(** ** The JavaScript runtime: numbers and values                         *)
(* ===================================================================== *)

Module JS.

Definition number := spec_float.

Definition prec : Z := 53.
Definition emax : Z := 1024.

Definition NaN : number := S754_nan.

(** The Number value of a mathematical integer: rounding to nearest, ties to
    even.  [neg] is the sign a zero result takes. *)
Definition number_of_Z (z : Z) (neg : bool) : number :=
  binary_normalize prec emax z 0 neg.

Definition is_NaN (n : number) : bool :=
  match n with S754_nan => true | _ => false end.

Definition is_zero (n : number) : bool :=
  match n with S754_zero _ => true | _ => false end.

(** [a === b] on two numbers: NaN differs from everything, the two zeros
    are equal. *)
Definition strict_eq (a b : number) : bool := SFeqb a b.

Inductive value :=
| Undefined
| Str (s : string)
| Num (n : number).

(** ToBoolean. *)
Definition truthy (v : value) : bool :=
  match v with
  | Undefined => false
  | Str s => negb (s =? "")
  | Num n => negb (is_NaN n || is_zero n)
  end.

(** *** Characters *)

Definition code (c : ascii) : N := N_of_ascii c.

Definition is_digit (c : ascii) : bool := (48 <=? code c)%N && (code c <=? 57)%N.

Definition digit_val (c : ascii) : Z := (Z.of_N (code c) - 48)%Z.

(** Value of a character as a digit in radix 16, if it is one. *)
Definition hex_val (c : ascii) : option Z :=
  let n := code c in
  if (48 <=? n)%N && (n <=? 57)%N then Some (Z.of_N n - 48)%Z
  else if (97 <=? n)%N && (n <=? 102)%N then Some (Z.of_N n - 87)%Z
  else if (65 <=? n)%N && (n <=? 70)%N then Some (Z.of_N n - 55)%Z
  else None.

(** WhiteSpace and LineTerminator code units below 256: TAB, LF, VT, FF, CR,
    SP and NBSP. *)
Definition is_space (c : ascii) : bool :=
  let n := code c in
  ((9 <=? n)%N && (n <=? 13)%N) || (n =? 32)%N || (n =? 160)%N.

(** toLowerCase on one code unit: A-Z and the Latin-1 capitals
    (U+00C0..U+00DE without the multiplication sign). *)
Definition lower_char (c : ascii) : ascii :=
  let n := code c in
  if ((65 <=? n)%N && (n <=? 90)%N)
     || ((192 <=? n)%N && (n <=? 222)%N && negb (n =? 215)%N)
  then ascii_of_N (n + 32) else c.

(** *** Strings *)

Fixpoint toLowerCase (s : string) : string :=
  match s with
  | EmptyString => EmptyString
  | String c s' => String (lower_char c) (toLowerCase s')
  end.

(** [s.startsWith(p)]. *)
Fixpoint startsWith (s p : string) : bool :=
  match p with
  | EmptyString => true
  | String a p' =>
      match s with
      | EmptyString => false
      | String b s' => Ascii.eqb b a && startsWith s' p'
      end
  end.

(** [s.includes(sub)]. *)
Fixpoint includes (s sub : string) : bool :=
  startsWith s sub
  || match s with
     | EmptyString => false
     | String _ s' => includes s' sub
     end.

(** [s.split(sep)] for a one-character separator: never the empty list. *)
Fixpoint split (sep : ascii) (s : string) : list string :=
  match s with
  | EmptyString => [EmptyString]
  | String c s' =>
      if Ascii.eqb c sep then EmptyString :: split sep s'
      else match split sep s' with
           | h :: t => String c h :: t
           | [] => [String c EmptyString]
           end
  end.

Fixpoint forallb_str (p : ascii -> bool) (s : string) : bool :=
  match s with
  | EmptyString => true
  | String c s' => p c && forallb_str p s'
  end.

Fixpoint dropWhile (p : ascii -> bool) (s : string) : string :=
  match s with
  | EmptyString => EmptyString
  | String c s' => if p c then dropWhile p s' else s
  end.

Fixpoint takeWhile (p : ascii -> bool) (s : string) : string :=
  match s with
  | EmptyString => EmptyString
  | String c s' => if p c then String c (takeWhile p s') else EmptyString
  end.

Fixpoint rev_str (acc s : string) : string :=
  match s with
  | EmptyString => acc
  | String c s' => rev_str (String c acc) s'
  end.

(** [s.trim()]. *)
Definition trim (s : string) : string :=
  rev_str "" (dropWhile is_space (rev_str "" (dropWhile is_space s))).

(** [s.replace(pat, rep)] for a string pattern: the first occurrence only. *)
Fixpoint replace_str (pat rep s : string) : string :=
  if startsWith s pat
  then rep ++ String.substring (String.length pat) (String.length s - String.length pat) s
  else match s with
       | EmptyString => EmptyString
       | String c s' => String c (replace_str pat rep s')
       end.

(** *** parseInt (radix undefined) *)

(** Mathematical value of the longest prefix of radix-10 digits, with the
    number of digits read. *)
Fixpoint dec_prefix (acc : Z) (count : nat) (s : string) : Z * nat :=
  match s with
  | String c s' =>
      if is_digit c then dec_prefix (10 * acc + digit_val c)%Z (S count) s'
      else (acc, count)
  | EmptyString => (acc, count)
  end.

Fixpoint hex_prefix (acc : Z) (count : nat) (s : string) : Z * nat :=
  match s with
  | String c s' =>
      match hex_val c with
      | Some d => hex_prefix (16 * acc + d)%Z (S count) s'
      | None => (acc, count)
      end
  | EmptyString => (acc, count)
  end.

(** A sign at the front of [s], and what follows it. *)
Definition strip_sign (s : string) : bool * string :=
  match s with
  | String c r =>
      if Ascii.eqb c "-" then (true, r)
      else if Ascii.eqb c "+" then (false, r)
      else (false, s)
  | EmptyString => (false, s)
  end.

(** The digits of the integer literal at the front of [s], in radix 16
    behind a [0x] and in radix 10 otherwise: their value and their number. *)
Definition int_prefix (s : string) : Z * nat :=
  match s with
  | String c (String x r) =>
      if Ascii.eqb c "0" && (Ascii.eqb x "x" || Ascii.eqb x "X")
      then hex_prefix 0 0 r
      else dec_prefix 0 0 s
  | _ => dec_prefix 0 0 s
  end.

Definition parseInt (input : string) : number :=
  let s := dropWhile is_space input in
  let neg := fst (strip_sign s) in
  match int_prefix (snd (strip_sign s)) with
  | (_, O) => NaN
  | (mathInt, S _) => number_of_Z (if neg then - mathInt else mathInt)%Z neg
  end.

(** *** Numbers from decimal numerals *)

(** [num / den] for positive [den], rounded to the nearest Number, ties to
    even. *)
Definition number_of_ratio (neg : bool) (num den : Z) : number :=
  if (num =? 0)%Z then S754_zero neg else
  let '(q, e, l) := SFdiv_core_binary prec emax num 0 den 0 in
  binary_round_aux prec emax neg q e l.

(** [m * 10 ^ e] as a Number. *)
Definition number_of_decimal (neg : bool) (m e : Z) : number :=
  if (0 <=? e)%Z then number_of_Z (if neg then - (m * 10 ^ e) else m * 10 ^ e)%Z neg
  else number_of_ratio neg m (10 ^ (- e))%Z.

(** *** Numeric literals in strings *)

(** The digits at the front of [s]: their value, their number, the rest. *)
Fixpoint digits (acc : Z) (count : nat) (s : string) : Z * nat * string :=
  match s with
  | String c s' =>
      if is_digit c then digits (10 * acc + digit_val c)%Z (S count) s'
      else (acc, count, s)
  | EmptyString => (acc, count, s)
  end.

(** An ExponentPart at the front of [s], if there is one: its value and the
    rest; otherwise exponent 0 and [s] itself. *)
Definition exponent_part (s : string) : Z * string :=
  match s with
  | String e r =>
      if Ascii.eqb e "e" || Ascii.eqb e "E" then
        let '(neg, r') := strip_sign r in
        match digits 0 0 r' with
        | (_, O, _) => (0%Z, s)
        | (v, S _, rest) => ((if neg then - v else v)%Z, rest)
        end
      else (0%Z, s)
  | EmptyString => (0%Z, s)
  end.

(** The longest StrDecimalLiteral at the front of [s]: its value and the
    rest of [s]. *)
Definition decimal_literal (s : string) : option (number * string) :=
  let '(neg, body) := strip_sign s in
  if startsWith body "Infinity"
  then Some (S754_infinity neg, String.substring 8 (String.length body - 8) body)
  else
    let '(int_val, int_count, after_int) := digits 0 0 body in
    let '(mant, frac_count, after_frac, dotted) :=
      match after_int with
      | String "." r =>
          let '(v, n, rest) := digits int_val 0 r in (v, n, rest, true)
      | _ => (int_val, O, after_int, false)
      end in
    match int_count, frac_count with
    | O, O => None
    | _, _ =>
        let '(e, rest) := exponent_part after_frac in
        Some (number_of_decimal neg mant (e - Z.of_nat frac_count), rest)
    end.

(** [parseFloat(s)]. *)
Definition parseFloat (input : string) : number :=
  match decimal_literal (dropWhile is_space input) with
  | Some (n, _) => n
  | None => NaN
  end.

Fixpoint radix_digits (radix : Z) (acc : Z) (count : nat) (s : string)
  : option (Z * nat) :=
  match s with
  | EmptyString => Some (acc, count)
  | String c s' =>
      match hex_val c with
      | Some d => if (d <? radix)%Z then radix_digits radix (radix * acc + d)%Z (S count) s'
                  else None
      | None => None
      end
  end.

(** StringToNumber. *)
Definition StringToNumber (input : string) : number :=
  let s := trim input in
  match s with
  | EmptyString => S754_zero false
  | String "0" (String x r) =>
      let radix :=
        if Ascii.eqb x "x" || Ascii.eqb x "X" then Some 16%Z
        else if Ascii.eqb x "o" || Ascii.eqb x "O" then Some 8%Z
        else if Ascii.eqb x "b" || Ascii.eqb x "B" then Some 2%Z
        else None in
      match radix with
      | Some radix =>
          match radix_digits radix 0 0 r with
          | Some (v, S _) => number_of_Z v false
          | _ => NaN
          end
      | None =>
          match decimal_literal s with
          | Some (n, EmptyString) => n
          | _ => NaN
          end
      end
  | _ =>
      match decimal_literal s with
      | Some (n, EmptyString) => n
      | _ => NaN
      end
  end.

(** [Number(v)]. *)
Definition ToNumber (v : value) : number :=
  match v with
  | Undefined => NaN
  | Num n => n
  | Str s => StringToNumber s
  end.

(** *** Number.prototype.toString *)

Fixpoint digits_of (fuel : nat) (z : Z) (acc : string) : string :=
  let acc' := String (ascii_of_N (Z.to_N (48 + z mod 10))) acc in
  match fuel with
  | O => acc'
  | S fuel' => if (z <? 10)%Z then acc' else digits_of fuel' (z / 10) acc'
  end.

(** The decimal digits of a natural number. *)
Definition decimal (z : Z) : string := digits_of (Z.to_nat (Z.log2 z)) z "".

Fixpoint zeros (n : nat) : string :=
  match n with
  | O => ""
  | S n' => String "0" (zeros n')
  end.

(** The smallest [j >= 1] with [num * 10 ^ j >= den]. *)
Fixpoint first_scale (fuel : nat) (j : Z) (num den : Z) : Z :=
  match fuel with
  | O => j
  | S fuel' => if (den <=? num * 10)%Z then j else first_scale fuel' (j + 1) (num * 10) den
  end.

(** [n] with [10 ^ (n - 1) <= num / den < 10 ^ n]. *)
Definition decimal_exponent (num den : Z) : Z :=
  if (den <=? num)%Z then Z.of_nat (String.length (decimal (num / den)))
  else (1 - first_scale 400 1 num den)%Z.

(** The shortest [s] of [k] digits with [s * 10 ^ (n - k)] rounding to [x],
    for the smallest such [k]; of two, the one nearer to [x]. *)
Fixpoint shortest (fuel : nat) (k : Z) (x : number) (num den n : Z) : Z * Z :=
  let p := (n - k)%Z in
  let num' := (if (p <? 0) then num * 10 ^ (- p) else num)%Z in
  let den' := (if (p <? 0) then den else den * 10 ^ p)%Z in
  let lo := (num' / den')%Z in
  let r := (num' mod den')%Z in
  let hi := (lo + 1)%Z in
  let ok s := SFeqb (number_of_decimal false s p) x in
  let pick :=
    if (r =? 0)%Z then Some lo
    else
      match ok lo, ok hi with
      | true, true =>
          match (2 * r ?= den')%Z with
          | Lt => Some lo
          | Gt => Some hi
          | Eq => Some (if Z.even lo then lo else hi)
          end
      | true, false => Some lo
      | false, true => Some hi
      | false, false => None
      end in
  match pick with
  | Some s => (s, k)
  | None =>
      match fuel with
      | O => (lo, k)
      | S fuel' => shortest fuel' (k + 1) x num den n
      end
  end.

Definition Number_toString (x : number) : string :=
  match x with
  | S754_nan => "NaN"
  | S754_zero _ => "0"
  | S754_infinity neg => if neg then "-Infinity" else "Infinity"
  | S754_finite neg m e =>
      let num := (if (e <? 0) then Zpos m else Zpos m * 2 ^ e)%Z in
      let den := (if (e <? 0) then 2 ^ (- e) else 1)%Z in
      let n0 := decimal_exponent num den in
      let '(s0, k0) := shortest 20 1 (S754_finite false m e) num den n0 in
      (* [s0] may be [10 ^ k0]: then the digits are those of 1 *)
      let '(s, k, n) :=
        if (s0 =? 10 ^ k0)%Z then (1, 1, n0 + 1)%Z else (s0, k0, n0)%Z in
      let ds := decimal s in
      let kn := Z.to_nat k in
      let text :=
        if (k <=? n)%Z && (n <=? 21)%Z then ds ++ zeros (Z.to_nat (n - k))
        else if (0 <? n)%Z && (n <=? 21)%Z then
          String.substring 0 (Z.to_nat n) ds ++ "."
            ++ String.substring (Z.to_nat n) (kn - Z.to_nat n) ds
        else if (-6 <? n)%Z && (n <=? 0)%Z then
          "0." ++ zeros (Z.to_nat (- n)) ++ ds
        else
          let ex := (n - 1)%Z in
          let etext := (if (ex <? 0)%Z then "-" else "+") ++ decimal (Z.abs ex) in
          if (k =? 1)%Z then ds ++ "e" ++ etext
          else String.substring 0 1 ds ++ "." ++ String.substring 1 (kn - 1) ds
                 ++ "e" ++ etext
      in
      if neg then "-" ++ text else text
  end.

Arguments number_of_Z : simpl never.
Arguments parseInt : simpl never.
Arguments parseFloat : simpl never.
Arguments StringToNumber : simpl never.
Arguments Number_toString : simpl never.
Arguments trim : simpl never.

End JS.

Import JS.

(* ===================================================================== *)
(** ** Regular expressions                                                *)
(* ===================================================================== *)

(** The three regular expressions of the source use literals, a greedy
    [+] over a character class, an optional non-capturing group, one
    capturing group and [$].  [run] is the backtracking matcher of the
    language for that fragment, in continuation-passing style. *)

Module Regex.

Inductive regex :=
| Eps
| Chr (c : ascii)
| Plus (cls : ascii -> bool)
| Seq (r1 r2 : regex)
| Opt (r : regex)
| Group (r : regex)
| Eos.

Fixpoint lit (s : string) : regex :=
  match s with
  | EmptyString => Eps
  | String c s' => Seq (Chr c) (lit s')
  end.

(** The part of [s] in front of its suffix [rest]. *)
Definition consumed (s rest : string) : string :=
  String.substring 0 (String.length s - String.length rest) s.

(** [cls+]: the longest run first, then shorter ones. *)
Fixpoint plus {A} (cls : ascii -> bool) (s : string) (k : string -> option A)
  : option A :=
  match s with
  | EmptyString => None
  | String a s' =>
      if cls a then
        match plus cls s' k with
        | Some r => Some r
        | None => k s'
        end
      else None
  end.

Fixpoint run {A} (r : regex) (s : string) (cap : option string)
  (k : string -> option string -> option A) : option A :=
  match r with
  | Eps => k s cap
  | Chr c =>
      match s with
      | String a s' => if Ascii.eqb a c then k s' cap else None
      | EmptyString => None
      end
  | Plus cls => plus cls s (fun s' => k s' cap)
  | Seq r1 r2 => run r1 s cap (fun s' cap' => run r2 s' cap' k)
  | Opt r1 =>
      match run r1 s cap k with
      | Some x => Some x
      | None => k s cap
      end
  | Group r1 => run r1 s cap (fun s' _ => k s' (Some (consumed s s')))
  | Eos =>
      match s with
      | EmptyString => k s cap
      | String _ _ => None
      end
  end.

Record match_result := {
  index : nat;            (* where the match starts *)
  after : string;         (* the input behind the match *)
  group1 : option string  (* text of the capturing group *)
}.

(** A match at the start of [s]. *)
Definition match_here (r : regex) (s : string) : option (string * option string) :=
  run r s None (fun rest cap => Some (rest, cap)).

(** [r.exec(s)]: the leftmost position with a match. *)
Fixpoint exec_from (r : regex) (i : nat) (s : string) : option match_result :=
  match match_here r s with
  | Some (rest, cap) => Some {| index := i; after := rest; group1 := cap |}
  | None =>
      match s with
      | EmptyString => None
      | String _ s' => exec_from r (S i) s'
      end
  end.

Definition exec (r : regex) (s : string) : option match_result :=
  exec_from r 0 s.

(** [s.replace(r, rep)] without the g flag. *)
Definition replace (r : regex) (rep s : string) : string :=
  match exec r s with
  | Some m => String.substring 0 (index m) s ++ rep ++ after m
  | None => s
  end.

Fixpoint mem (c : ascii) (s : string) : bool :=
  match s with
  | EmptyString => false
  | String a s' => Ascii.eqb a c || mem c s'
  end.

End Regex.

(* ===================================================================== *)
(** ** Node's [path] module (POSIX flavour)                               *)
(* ===================================================================== *)

Module Path.

Definition nonempty (s : string) : bool := negb (s =? "").

(** [path.basename(p)]: the last run of characters other than [/]. *)
Definition basename (p : string) : string :=
  last (filter nonempty (split "/" p)) "".

(** The text in front of the last dot, and the text from that dot on. *)
Fixpoint split_last_dot (s : string) : option (string * string) :=
  match s with
  | EmptyString => None
  | String c s' =>
      match split_last_dot s' with
      | Some (stem, ext) => Some (String c stem, ext)
      | None => if Ascii.eqb c "." then Some (EmptyString, s) else None
      end
  end.

(** [path.extname(p)]: from the last dot of the base name on; empty when
    there is no dot, when the base name starts with its only dot, and for
    the base name [..]. *)
Definition extname (p : string) : string :=
  let b := basename p in
  match split_last_dot b with
  | None => ""
  | Some (stem, ext) =>
      if (stem =? "") || (b =? "..") then "" else ext
  end.

(** [path.dirname(p)]. *)
Definition dirname (p : string) : string :=
  match p with
  | EmptyString => "."
  | String c0 rest =>
      let hasRoot := Ascii.eqb c0 "/" in
      let r := dropWhile (fun c => Ascii.eqb c "/") (rev_str "" rest) in
      match dropWhile (fun c => negb (Ascii.eqb c "/")) r with
      | EmptyString => if hasRoot then "/" else "."
      | String _ front =>
          if hasRoot && (front =? "") then "//"
          else String c0 (rev_str "" front)
      end
  end.

(** One turn of the loop of [normalizeString], for the segment [seg];
    [stack] holds the segments kept so far, the last one first. *)
Definition normalizeStep (allowAboveRoot : bool) (stack : list string)
  (seg : string) : list string :=
  if (seg =? "") || (seg =? ".") then stack
  else if seg =? ".." then
    match stack with
    | top :: below =>
        if top =? ".." then (if allowAboveRoot then ".." :: stack else stack)
        else below
    | [] => if allowAboveRoot then [".."] else []
    end
  else seg :: stack.

(** [normalizeString] on the segments of a path. *)
Definition normalizeSegments (allowAboveRoot : bool) (segs : list string)
  : list string :=
  rev (fold_left (normalizeStep allowAboveRoot) segs []).

Definition isAbsolute (p : string) : bool := startsWith p "/".

Fixpoint endsWithSlash (p : string) : bool :=
  match p with
  | EmptyString => false
  | String c EmptyString => Ascii.eqb c "/"
  | String _ p' => endsWithSlash p'
  end.

(** [path.normalize(p)]. *)
Definition normalize (p : string) : string :=
  if p =? "" then "." else
  let abs := isAbsolute p in
  let trailingSeparator := endsWithSlash p in
  let body := String.concat "/" (normalizeSegments (negb abs) (split "/" p)) in
  if body =? "" then
    if abs then "/" else if trailingSeparator then "./" else "."
  else
    let body := if trailingSeparator then body ++ "/" else body in
    if abs then "/" ++ body else body.

(** [path.join(...args)]. *)
Definition join (args : list string) : string :=
  match filter nonempty args with
  | [] => "."
  | l => normalize (String.concat "/" l)
  end.

End Path.

Import Regex Path.

(* ===================================================================== *)
(** ** Objects, rows and the metadata document                            *)
(* ===================================================================== *)

Module Obj.

(** An object as the list of its properties, in the order in which they
    are enumerated. *)
Definition obj (V : Type) := list (string * V).

Fixpoint get {V} (o : obj V) (k : string) : option V :=
  match o with
  | [] => None
  | (k', v) :: o' => if k' =? k then Some v else get o' k
  end.

(** [o[k] = v] for a property name that is an ordinary string: a new
    property is enumerated behind the ones there are. *)
Fixpoint set {V} (o : obj V) (k : string) (v : V) : obj V :=
  match o with
  | [] => [(k, v)]
  | (k', v') :: o' => if k' =? k then (k', v) :: o' else (k', v') :: set o' k v
  end.

Definition keys {V} (o : obj V) : list string := map fst o.

(** Whether [k] is an array index: the numeral, without leading zeros, of
    an integer from 0 to 2^32 - 2. *)
Definition arrayIndex (k : string) : option Z :=
  match k with
  | EmptyString => None
  | String c r =>
      if forallb_str is_digit k && (negb (Ascii.eqb c "0") || (r =? ""))
      then let n := fst (dec_prefix 0 0 k) in
           if (n <? 2 ^ 32 - 1)%Z then Some n else None
      else None
  end.

(** [o[k] = v] for the array index [n] that [k] denotes: the properties
    whose names are array indices are enumerated first, in ascending order
    of the indices. *)
Fixpoint putIndex {V} (n : Z) (k : string) (v : V) (o : obj V) : obj V :=
  match o with
  | [] => [(k, v)]
  | (k', v') :: o' =>
      if k' =? k then (k', v) :: o'
      else match arrayIndex k' with
           | Some m => if (m <? n)%Z then (k', v') :: putIndex n k v o'
                       else (k, v) :: o
           | None => (k, v) :: o
           end
  end.

(** [o[k] = v] for any property name, on an object made by [{}] and for a
    value that is no object.  The name [__proto__] is the accessor of
    [Object.prototype], and its setter does nothing with such a value: no
    property is made. *)
Definition put {V} (o : obj V) (k : string) (v : V) : obj V :=
  if k =? "__proto__" then o
  else match arrayIndex k with
       | Some n => putIndex n k v o
       | None => set o k v
       end.

End Obj.

(** A record of the CSV file ([interface CSVRow]). *)
Definition CSVRow := Obj.obj value.

(** [record[k]]. *)
Definition field (record : CSVRow) (k : string) : value :=
  match Obj.get record k with
  | Some v => v
  | None => Undefined
  end.

(** The record the CSV parser builds from the cells of one line, for
    headers that are ordinary names: every value is a string, and the
    columns are enumerated in their order. *)
Definition row_of_cells (cells : list (string * string)) : CSVRow :=
  fold_left (fun r kv => Obj.set r (fst kv) (Str (snd kv))) cells [].

(** What [createInfoYml] stores under a key of [info]. *)
Inductive yaml :=
| YScalar (v : value)
| YSeq (items : list string)
| YMap (entries : Obj.obj value).

Definition Info := Obj.obj yaml.

(* ===================================================================== *)
(** ** The file system, diagnostics and the effect monad                  *)
(* ===================================================================== *)

Inductive error :=
| TypeError (msg : string)
| IOError (code path : string).

Inductive result (A : Type) :=
| Ok (a : A)
| Throw (e : error).
Arguments Ok {A} a.
Arguments Throw {A} e.

Module FS.

(** A path as the operating system resolves it: absolute or relative to the
    working directory, and the names that remain after [.] and [..] are
    resolved. *)
Definition fspath := (bool * list string)%type.

Definition resolve (p : string) : fspath :=
  (isAbsolute p, normalizeSegments (negb (isAbsolute p)) (split "/" p)).

Inductive node :=
| Dir
| File (content : string).

Definition t := fspath -> option node.

Definition empty : t := fun _ => None.

Definition fspath_eqb (a b : fspath) : bool :=
  Bool.eqb (fst a) (fst b)
  && (if list_eq_dec string_dec (snd a) (snd b) then true else false).

Definition update (k : fspath) (n : node) (fs : t) : t :=
  fun k' => if fspath_eqb k k' then Some n else fs k'.

(** The root, the working directory and the directories above it exist. *)
Definition is_dir (fs : t) (k : fspath) : bool :=
  match fs k with
  | Some Dir => true
  | Some (File _) => false
  | None => forallb (String.eqb "..") (snd k)
  end.

Definition is_file (fs : t) (k : fspath) : bool :=
  match fs k with
  | Some (File _) => true
  | _ => false
  end.

(** The prefixes of a list of names, the shortest first. *)
Fixpoint inits (l : list string) : list (list string) :=
  match l with
  | [] => [[]]
  | x :: l' => [] :: map (cons x) (inits l')
  end.

Definition parent (k : fspath) : fspath := (fst k, removelast (snd k)).

(** [fs.mkdirSync(p, { recursive: true })]. *)
Definition mkdirSync (p : string) (fs : t) : result t :=
  let k := resolve p in
  if is_file fs k then Throw (IOError "EEXIST" p)
  else if existsb (fun pre => is_file fs (fst k, pre)) (inits (snd k))
  then Throw (IOError "ENOTDIR" p)
  else Ok (fold_left (fun fs pre => update (fst k, pre) Dir fs) (inits (snd k)) fs).

(** [fs.writeFileSync(p, content)]. *)
Definition writeFileSync (p content : string) (fs : t) : result t :=
  let k := resolve p in
  if is_dir fs k then Throw (IOError "EISDIR" p)
  else if negb (is_dir fs (parent k)) then Throw (IOError "ENOENT" p)
  else Ok (update k (File content) fs).

(** [fs.copyFileSync(src, dest)]. *)
Definition copyFileSync (src dest : string) (fs : t) : result t :=
  match fs (resolve src) with
  | Some (File content) =>
      let k := resolve dest in
      if is_dir fs k then Throw (IOError "EISDIR" dest)
      else if negb (is_dir fs (parent k)) then Throw (IOError "ENOENT" dest)
      else Ok (update k (File content) fs)
  | Some Dir => Throw (IOError "EISDIR" src)
  | None => Throw (IOError "ENOENT" src)
  end.

End FS.

(** An argument of a console call. *)
Inductive arg :=
| AStr (s : string)
| ANum (n : number)
| ABool (b : bool)
| AList (l : list string).

Inductive event :=
| Warn (msg : string)
| ConsoleLog (args : list arg)
| ConsoleWarn (args : list arg).

Record world := {
  fs : FS.t;
  log : list event   (* the oldest event first *)
}.

Definition M (A : Type) := world -> result A * world.

Definition ret {A} (a : A) : M A := fun w => (Ok a, w).

Definition bind {A B} (c : M A) (k : A -> M B) : M B :=
  fun w =>
    match c w with
    | (Ok a, w') => k a w'
    | (Throw e, w') => (Throw e, w')
    end.

Definition throw {A} (e : error) : M A := fun w => (Throw e, w).

Definition emit (e : event) : M unit :=
  fun w => (Ok tt, {| fs := fs w; log := (log w ++ [e])%list |}).

Definition liftFS (op : FS.t -> result FS.t) : M unit :=
  fun w =>
    match op (fs w) with
    | Ok fs' => (Ok tt, {| fs := fs'; log := log w |})
    | Throw e => (Throw e, w)
    end.

Definition liftResult {A} (r : result A) : M A :=
  fun w => (r, w).

Notation "x <- c ;; k" := (bind c (fun x => k))
  (at level 61, c at next level, right associativity).
Notation "c ;; k" := (bind c (fun _ => k))
  (at level 61, right associativity).

Definition when (b : bool) (c : M unit) : M unit :=
  if b then c else ret tt.

(** [for (const x of l) { s = body(x, s) }]. *)
Fixpoint forEach {A S} (l : list A) (body : A -> S -> M S) (s : S) : M S :=
  match l with
  | [] => ret s
  | x :: l' => s' <- body x s ;; forEach l' body s'
  end.

(** Modelled from the spec: [warn] of [./Utils], which is not among the
    sources.  A nesting violation and a failed probe are "reported as
    warnings" and processing continues: the message joins the diagnostics. *)
Definition warn (msg : string) : M unit := emit (Warn msg).

Definition console_log (args : list arg) : M unit := emit (ConsoleLog args).
Definition console_warn (args : list arg) : M unit := emit (ConsoleWarn args).

(* ===================================================================== *)
(** ** The program                                                        *)
(* ===================================================================== *)

(** What [sharp(path).metadata()] resolves to. *)
Record ImageMetadata := {
  md_width : option number;
  md_height : option number
}.

(** What [ffprobe] resolves to. *)
Record Stream := { duration : value }.
Record ProbeInfo := { streams : option (list Stream) }.

Definition FileMap := Obj.obj (list string).

Definition of_option (o : option number) : value :=
  match o with
  | Some n => Num n
  | None => Undefined
  end.

(** The character class [[_canvas]]. *)
Definition canvasClass (c : ascii) : bool := mem c "_canvas".

(** [/[_canvas]+/] *)
Definition re_canvas : regex := Plus canvasClass.

(** [/part(\d+)(?:-\d+)?\.mp3$/] *)
Definition re_audio : regex :=
  Seq (lit "part")
    (Seq (Group (Plus is_digit))
       (Seq (Opt (Seq (Chr "-") (Plus is_digit)))
          (Seq (lit ".mp3") Eos))).

(** [/_(\d+)\.[^.]+$/] *)
Definition re_image : regex :=
  Seq (Chr "_")
    (Seq (Group (Plus is_digit))
       (Seq (Chr ".")
          (Seq (Plus (fun c => negb (Ascii.eqb c "."))) Eos))).

(** The callback of [files.filter] in [processRecord]: what it answers.
    Its two calls of [console.log], which report each candidate with a
    fitting extension, are left out of the embedding: they add lines of
    [console.log] to the diagnostics and do nothing else. *)
Definition fileMatches (isAudio : bool) (canvasIndex : number) (file : string)
  : bool :=
  let ext := toLowerCase (extname file) in
  let fileName := basename file in
  if isAudio then
    if ext =? ".mp3" then
      let fileNameLower := toLowerCase fileName in
      match exec re_audio fileNameLower with
      | Some {| group1 := Some g |} =>
          let fileNum := parseInt g in
          strict_eq fileNum canvasIndex
      | _ => false
      end
    else false
  else
    if existsb (String.eqb ext) [".jpg"; ".jpeg"] then
      let fileNameLower := toLowerCase fileName in
      match exec re_image fileNameLower with
      | Some {| group1 := Some g |} =>
          let fileNum := parseInt g in
          strict_eq fileNum canvasIndex
      | _ => false
      end
    else false.

(** [Array.from(fileMap.values()).flat()] *)
Definition allFiles (fileMap : FileMap) : list string :=
  List.concat (map snd fileMap).

(** [parts[i]] for an index that may fall outside of the array. *)
Definition at_index (parts : list string) (i : Z) : option string :=
  if (i <? 0)%Z then None else nth_error parts (Z.to_nat i).

Definition set_last (parts : list string) (x : string) : list string :=
  (removelast parts ++ [x])%list.

Definition truthy_opt (o : option string) : bool :=
  match o with
  | Some s => truthy (Str s)
  | None => false
  end.

(** [canvasIndex] of [processRecord], from the rewritten last part. *)
Definition canvasIndexOf (rewritten : string) : number :=
  let canvasNum := Regex.replace re_canvas "" rewritten in
  parseInt canvasNum.

Definition canvasWarning (lastPart parentPart : string) : string :=
  "Warning: Canvas " ++ lastPart
    ++ " must be inside a manifest. Current parent: " ++ parentPart.

Definition manifestWarning (lastPart parentPart : string) : string :=
  "Warning: Manifest " ++ lastPart
    ++ " cannot be inside another manifest. Current parent: " ++ parentPart.

Section Program.

Set Default Proof Using "Type".

(** The collaborators of the tool: the two probes and the YAML writer.  A
    probe answers [None] when it throws. *)
Variable sharp_metadata : string -> option ImageMetadata.
Variable ffprobe : string -> option (option ProbeInfo).
Variable dump : Info -> string.

(** [v.toString()] for a string or a number. *)
Definition toString (v : value) : string :=
  match v with
  | Str s => s
  | Num n => Number_toString n
  | Undefined => "undefined"
  end.

(** [if (b) record[k] = v] *)
Definition assignWhen (b : bool) (k : string) (v : value) (record : CSVRow)
  : CSVRow :=
  if b then Obj.set record k v else record.

Definition addFileMetadata (filePath : string) (record : CSVRow) : M CSVRow :=
  let ext := toLowerCase (extname filePath) in
  if existsb (String.eqb ext) [".jpg"; ".jpeg"; ".png"; ".tiff"; ".tif"] then
    match sharp_metadata filePath with
    | Some metadata =>
        let record :=
          assignWhen (negb (truthy (field record "width"))) "width"
            (of_option (md_width metadata)) record in
        let record :=
          assignWhen (negb (truthy (field record "height"))) "height"
            (of_option (md_height metadata)) record in
        ret record
    | None =>
        warn ("Could not extract dimensions from image: " ++ filePath) ;;
        ret record
    end
  else if existsb (String.eqb ext) [".mp3"; ".mp4"; ".wav"; ".m4a"] then
    match ffprobe filePath with
    | Some info =>
        match info with
        | Some {| streams := Some (stream0 :: _) |} =>
            let duration := ToNumber (duration stream0) in
            ret (assignWhen (negb (truthy (field record "duration"))) "duration"
                   (Num duration) record)
        | _ => ret record
        end
    | None =>
        warn ("Could not extract duration from media file: " ++ filePath) ;;
        ret record
    end
  else ret record.

(** [if (b) info[k] = v] *)
Definition assignIf (b : bool) (k : string) (v : yaml) (info : Info) : Info :=
  if b then Obj.set info k v else info.

(** [if (record[k]) info[k] = record[k]] *)
Definition copyField (record : CSVRow) (k : string) (info : Info) : Info :=
  assignIf (truthy (field record k)) k (YScalar (field record k)) info.

(** [if (a && b && c) info[group] = { x: a, y: b, z: c }], the names of the
    entries being the text behind the dot of each key. *)
Definition copyGroup (record : CSVRow) (group : string) (subkeys : list string)
  (info : Info) : Info :=
  assignIf
    (forallb (fun sub => truthy (field record (group ++ "." ++ sub))) subkeys)
    group
    (YMap (map (fun sub => (sub, field record (group ++ "." ++ sub))) subkeys))
    info.

(** The metadata bag: the entries of the record whose key starts with
    [metadata.] and whose value is truthy, under the rest of the key, which
    can be any property name. *)
Definition metadataBag (record : CSVRow) : Obj.obj value :=
  fold_left
    (fun metadata kv =>
       if startsWith (fst kv) "metadata." && truthy (snd kv)
       then Obj.put metadata (replace_str "metadata." "" (fst kv)) (snd kv)
       else metadata)
    record [].

(** The assignment of [info.behavior]; [includes] is a method of strings
    only. *)
Definition behaviorField (record : CSVRow) (info : Info) : result Info :=
  if truthy (field record "behavior") then
    match field record "behavior" with
    | Str behavior =>
        Ok (Obj.set info "behavior"
              (if includes behavior ","
               then YSeq (map trim (split "," behavior))
               else YScalar (Str behavior)))
    | _ => Throw (TypeError "record.behavior.includes is not a function")
    end
  else Ok info.

(** The object [info] that [createInfoYml] hands to [dump]. *)
Definition createInfo (record : CSVRow) : result Info :=
  let info : Info := [] in
  let info := copyField record "label" info in
  let info := copyField record "description" info in
  let info := copyField record "attribution" info in
  match behaviorField record info with
  | Throw e => Throw e
  | Ok info =>
      let info :=
        assignIf (truthy (field record "width")) "width"
          (YScalar (Num (parseInt (toString (field record "width"))))) info in
      let info :=
        assignIf (truthy (field record "height")) "height"
          (YScalar (Num (parseInt (toString (field record "height"))))) info in
      let info :=
        assignIf (truthy (field record "duration")) "duration"
          (YScalar (Num (parseFloat (toString (field record "duration"))))) info in
      let info := copyField record "viewingHint" info in
      let info := copyField record "viewingDirection" info in
      let info := copyField record "navDate" info in
      let metadata := metadataBag record in
      let info :=
        assignIf (0 <? List.length (Obj.keys metadata))%nat "metadata"
          (YMap metadata) info in
      let info := copyGroup record "requiredStatement" ["label"; "value"] info in
      let info := copyField record "summary" info in
      let info := copyGroup record "provider" ["id"; "type"; "label"] info in
      let info := copyGroup record "homepage" ["id"; "type"; "label"] info in
      let info := copyGroup record "seeAlso" ["id"; "type"; "label"] info in
      let info := copyGroup record "rendering" ["id"; "type"; "label"] info in
      let info := copyGroup record "start" ["id"; "type"; "label"] info in
      let info := copyGroup record "supplementary" ["id"; "type"; "label"] info in
      let info := copyGroup record "services" ["id"; "type"; "profile"] info in
      Ok info
  end.

Definition createInfoYml (record : CSVRow) : result string :=
  match createInfo record with
  | Ok info => Ok (dump info)
  | Throw e => Throw e
  end.

Definition processRecord (record : CSVRow) (outputDir : string)
  (inputDir : option string) (fileMap : option FileMap) : M unit :=
  hierarchy <- match field record "hierarchy" with
               | Str h => ret h
               | Undefined =>
                   throw (TypeError "Cannot read properties of undefined (reading 'split')")
               | Num _ => throw (TypeError "record.hierarchy.split is not a function")
               end ;;
  let parts := split "/" hierarchy in
  let lastPart := last parts "" in
  let isCanvas := startsWith lastPart "canvas" in
  let isManifest := includes lastPart "manifest" in
  let parts := if isCanvas then set_last parts ("_" ++ lastPart) else parts in
  let parentPart :=
    if (1 <? List.length parts)%nat
    then at_index parts ((Z.of_nat (List.length parts) - 2)%Z)
    else None in
  when (isCanvas && truthy_opt parentPart
        && negb (includes (match parentPart with Some p => p | None => "" end) "manifest"))
    (warn (canvasWarning lastPart (match parentPart with Some p => p | None => "" end))) ;;
  when (isManifest && truthy_opt parentPart
        && includes (match parentPart with Some p => p | None => "" end) "manifest")
    (warn (manifestWarning lastPart (match parentPart with Some p => p | None => "" end))) ;;
  let fullPath := join (outputDir :: parts) in
  liftFS (FS.mkdirSync fullPath) ;;
  record <-
    match fileMap with
    | Some fileMap =>
        if truthy_opt inputDir && isCanvas then
          let canvasIndex := canvasIndexOf (last parts "") in
          let isAudio :=
            match at_index parts ((Z.of_nat (List.length parts) - 2)%Z) with
            | Some p => p =? "audio"
            | None => false
            end in
          let files := allFiles fileMap in
          console_log [AStr (String "010" "Looking for files for:"); AStr (last parts "")] ;;
          console_log [AStr "Canvas index:"; ANum canvasIndex] ;;
          console_log [AStr "Is audio:"; ABool isAudio] ;;
          console_log [AStr "Available files:"; AList (map basename files)] ;;
          let matching := filter (fileMatches isAudio canvasIndex) files in
          record <-
            forEach matching
              (fun file record =>
                 let fileName := basename file in
                 let destPath := join [fullPath; fileName] in
                 liftFS (FS.copyFileSync file destPath) ;;
                 record <- addFileMetadata file record ;;
                 console_log [AStr ("Copied " ++ fileName ++ " to " ++ destPath)] ;;
                 ret record)
              record ;;
          (if (List.length matching =? 0)%nat
           then console_warn [AStr ("No matching files found for canvas " ++ last parts "")]
           else console_log [AStr "Found matching files:"; AList (map basename matching)]) ;;
          ret record
        else ret record
    | None => ret record
    end ;;
  infoContent <- liftResult (createInfoYml record) ;;
  let infoPath := join [fullPath; "info.yml"] in
  liftFS (FS.writeFileSync infoPath infoContent).

Section Scan.

(** [normaliseFilePath] of [./Utils], which is not among the sources: the
    specification only says that it brings a path into a form with
    platform-independent separators, so it stays a parameter. *)
Variable normaliseFilePath : string -> string.

Definition scanInputDirectory (entries : list string) (fileMap : FileMap)
  : FileMap :=
  fold_left
    (fun fileMap entry =>
       let normalizedPath := normaliseFilePath entry in
       let dirName := dirname normalizedPath in
       let fileMap :=
         match Obj.get fileMap dirName with
         | Some _ => fileMap
         | None => Obj.set fileMap dirName []
         end in
       match Obj.get fileMap dirName with
       | Some bucket => Obj.set fileMap dirName (bucket ++ [normalizedPath])%list
       | None => fileMap
       end)
    entries fileMap.

(** [csvToHierarchy] behind the CSV parser and the directory scan: [records]
    are the parsed rows and [entries] what the scan of the input directory
    lists. *)
Definition csvToHierarchy (records : list CSVRow) (outputDir : string)
  (inputDir : option string) (entries : list string) : M unit :=
  let fileMap : FileMap :=
    if truthy_opt inputDir then scanInputDirectory entries [] else [] in
  forEach records
    (fun record _ => processRecord record outputDir inputDir (Some fileMap))
    tt.

End Scan.

Section Main.

(** The collaborators of [csvToHierarchy] and [main]: [normaliseFilePath]
    of [./Utils], the CSV parser with its two options, which answers with
    the records or throws, and the glob with its pattern and its two
    options, which lists the files of the input directory. *)
Variable normaliseFilePath : string -> string.
Variable parse : string -> list CSVRow + string.
Variable glob : string -> FS.t -> list string.

(** [fs.readFileSync(p, 'utf-8')]. *)
Definition readFileSync (p : string) (fs : FS.t) : result string :=
  match fs (FS.resolve p) with
  | Some (FS.File content) => Ok content
  | Some FS.Dir => Throw (IOError "EISDIR" p)
  | None =>
      if FS.is_dir fs (FS.resolve p) then Throw (IOError "EISDIR" p)
      else Throw (IOError "ENOENT" p)
  end.

(** [fs.existsSync(p)]. *)
Definition existsSync (p : string) (fs : FS.t) : bool :=
  if p =? "" then false
  else FS.is_dir fs (FS.resolve p) || FS.is_file fs (FS.resolve p).

(** What the [catch] of [main] can receive: an [Error] that [main] made, an
    exception of the runtime or of the file system, an error of the CSV
    parser. *)
Inductive thrown :=
| ErrorObject (message : string)
| Native (e : error)
| ParseError (message : string).

(** [csvToHierarchy] from its first statement on: the CSV file is read and
    parsed, the input directory is scanned when there is one, and the rows
    are processed. *)
Definition csvToHierarchyFile (csvPath outputDir : string)
  (inputDir : option string) (w : world) : option thrown * world :=
  match readFileSync csvPath (fs w) with
  | Throw e => (Some (Native e), w)
  | Ok csvContent =>
      match parse csvContent with
      | inr message => (Some (ParseError message), w)
      | inl records =>
          let entries :=
            match inputDir with
            | Some dir =>
                if truthy (Str dir) then glob (dir ++ "/**/*") (fs w) else []
            | None => []
            end in
          match csvToHierarchy normaliseFilePath records outputDir inputDir
                  entries w with
          | (Ok _, w') => (None, w')
          | (Throw e, w') => (Some (Native e), w')
          end
      end
  end.

(** An argument of [console.error]. *)
Inductive earg :=
| EStr (s : string)
| EThrown (t : thrown)
| EStack (t : thrown).

(** How the process ends: [process.exit(code)], or [main] comes to its
    end. *)
Inductive ending :=
| Exit (code : Z)
| Returned.

Definition usage : list (list earg) :=
  [[EStr "Usage: ts-node csv-to-biiif.ts <csv-file> <output-directory> [input-directory]"];
   [EStr ""];
   [EStr "Arguments:"];
   [EStr "  csv-file         Path to the CSV file containing collection metadata"];
   [EStr "  output-directory Where to create the BIIIF directory structure"];
   [EStr "  input-directory  Optional. Directory containing the files to include"];
   [EStr ""];
   [EStr "Example:"];
   [EStr "  ts-node csv-to-biiif.ts metadata.csv output-dir input-files"]].

(** [console.log(...args)], on the world. *)
Definition say (args : list arg) (w : world) : world :=
  snd (console_log args w).

(** The [try] block of [main]: what was thrown, if anything. *)
Definition attempt (csvPath outputDir : string) (inputDir : option string)
  (w : world) : option thrown * world :=
  let w := say [AStr "Starting conversion..."] w in
  let w := say [AStr "CSV Path:"; AStr csvPath] w in
  let w := say [AStr "Output Directory:"; AStr outputDir] w in
  let w :=
    say [AStr "Input Directory:";
         AStr (match inputDir with
               | Some dir => if truthy (Str dir) then dir else "Not provided"
               | None => "Not provided"
               end)] w in
  let checked : option thrown * world :=
    match inputDir with
    | Some dir =>
        if truthy (Str dir) then
          let w := say [AStr "Checking input directory exists..."] w in
          if existsSync dir (fs w) then (None, w)
          else (Some (ErrorObject ("Input directory does not exist: " ++ dir)), w)
        else (None, w)
    | None => (None, w)
    end in
  match checked with
  | (Some t, w) => (Some t, w)
  | (None, w) =>
      let w := say [AStr "Checking CSV file exists..."] w in
      if existsSync csvPath (fs w) then
        match csvToHierarchyFile csvPath outputDir inputDir w with
        | (Some t, w) => (Some t, w)
        | (None, w) =>
            (None,
             say [AStr ("Successfully created BIIIF directory structure in "
                          ++ outputDir)] w)
        end
      else (Some (ErrorObject ("CSV file does not exist: " ++ csvPath)), w)
  end.

(** [main], for the arguments of the process: how the process ends, the
    world it leaves and what it wrote with [console.error]. *)
Definition main (argv : list string) (w : world)
  : ending * world * list (list earg) :=
  let csvPath := nth_error argv 2 in
  let outputDir := nth_error argv 3 in
  let inputDir := nth_error argv 4 in
  if negb (truthy_opt csvPath) || negb (truthy_opt outputDir) then
    (Exit 1, w, usage)
  else
    match csvPath, outputDir with
    | Some csvPath, Some outputDir =>
        match attempt csvPath outputDir inputDir w with
        | (None, w') => (Returned, w', [])
        | (Some t, w') =>
            (Exit 1, w',
             [[EStr "Error:"; EThrown t]; [EStr "Stack trace:"; EStack t]])
        end
    | _, _ => (Exit 1, w, usage)
    end.

End Main.

(* ===================================================================== *)
(** ** Diagnostics: what a computation adds to the log                    *)
(* ===================================================================== *)

(** The warnings of the nesting check are the calls of [warn] whose message
    starts with [Warning: ]. *)
Definition nesting_warning (e : event) : bool :=
  match e with
  | Warn msg => startsWith msg "Warning: "
  | _ => false
  end.

(** [c] only adds events that satisfy [P] to the log, whether it returns or
    throws. *)
Definition emits_only (P : event -> Prop) {A} (c : M A) : Prop :=
  forall w, exists evs, log (snd (c w)) = (log w ++ evs)%list /\ Forall P evs.

Lemma emits_only_ret P A (a : A) : emits_only P (ret a).
Proof. intros w. exists []. simpl. now rewrite app_nil_r. Qed.

Lemma emits_only_throw P A (e : error) : emits_only P (@throw A e).
Proof. intros w. exists []. simpl. now rewrite app_nil_r. Qed.

Lemma emits_only_liftResult P A (r : result A) : emits_only P (liftResult r).
Proof. intros w. exists []. simpl. now rewrite app_nil_r. Qed.

Lemma emits_only_liftFS P op : emits_only P (liftFS op).
Proof.
  intros w. exists []. unfold liftFS.
  destruct (op (fs w)); simpl; now rewrite app_nil_r.
Qed.

Lemma emits_only_emit (P : event -> Prop) e : P e -> emits_only P (emit e).
Proof. intros H w. exists [e]. simpl. auto. Qed.

Lemma emits_only_bind P A B (c : M A) (k : A -> M B) :
  emits_only P c -> (forall a, emits_only P (k a)) -> emits_only P (bind c k).
Proof.
  intros Hc Hk w. unfold bind.
  destruct (Hc w) as [evs [E F]].
  destruct (c w) as [[a|e] w1]; simpl in *.
  - destruct (Hk a w1) as [evs' [E' F']].
    exists (evs ++ evs')%list. split.
    + now rewrite E', E, app_assoc.
    + apply Forall_app; auto.
  - exists evs; auto.
Qed.

Lemma emits_only_when P b c : emits_only P c -> emits_only P (when b c).
Proof. destruct b; simpl; auto using emits_only_ret. Qed.

Lemma emits_only_forEach P A S (l : list A) (body : A -> S -> M S) :
  (forall x s, emits_only P (body x s)) ->
  forall s, emits_only P (forEach l body s).
Proof.
  intros Hb. induction l as [|x l IH]; intros s; simpl.
  - apply emits_only_ret.
  - apply emits_only_bind; auto.
Qed.

Definition quiet (e : event) : Prop := nesting_warning e = false.

Lemma addFileMetadata_quiet filePath record :
  emits_only quiet (addFileMetadata filePath record).
Proof.
  unfold addFileMetadata.
  repeat match goal with
  | |- emits_only _ (if ?b then _ else _) => destruct b
  | |- emits_only _ (match ?x with _ => _ end) => destruct x
  | |- emits_only _ (ret _) => apply emits_only_ret
  | |- emits_only _ (bind _ _) => apply emits_only_bind; [|intros]
  | |- emits_only _ (warn _) => apply emits_only_emit; reflexivity
  end.
Qed.

(** What is left of [processRecord] once the nesting check is done adds no
    warning of the nesting check. *)
Ltac quiet_step :=
  match goal with
  | |- emits_only _ (ret _) => apply emits_only_ret
  | |- emits_only _ (throw _) => apply emits_only_throw
  | |- emits_only _ (liftFS _) => apply emits_only_liftFS
  | |- emits_only _ (liftResult _) => apply emits_only_liftResult
  | |- emits_only _ (console_log _) => apply emits_only_emit; reflexivity
  | |- emits_only _ (console_warn _) => apply emits_only_emit; reflexivity
  | |- emits_only _ (addFileMetadata _ _) => apply addFileMetadata_quiet
  | |- emits_only _ (forEach _ _ _) => apply emits_only_forEach; intros
  | |- emits_only _ (bind _ _) => apply emits_only_bind; [|intros]
  | |- emits_only _ (if ?b then _ else _) => destruct b
  | |- emits_only _ (match ?x with _ => _ end) => destruct x
  end.

(** The vocabulary of the specification for a hierarchy string. *)
Definition terminalSegment (hierarchy : string) : string :=
  last (split "/" hierarchy) "".

Definition parentSegment (hierarchy : string) : option string :=
  let parts := split "/" hierarchy in
  match rev parts with
  | _ :: p :: _ => Some p
  | _ => None
  end.

Definition parentText (hierarchy : string) : string :=
  match parentSegment hierarchy with
  | Some p => p
  | None => ""
  end.

(** The two conditions of the nesting check. *)
Definition canvasViolation (hierarchy : string) : bool :=
  startsWith (terminalSegment hierarchy) "canvas"
  && truthy_opt (parentSegment hierarchy)
  && negb (includes (parentText hierarchy) "manifest").

Definition manifestViolation (hierarchy : string) : bool :=
  includes (terminalSegment hierarchy) "manifest"
  && truthy_opt (parentSegment hierarchy)
  && includes (parentText hierarchy) "manifest".

Definition nestingEvents (hierarchy : string) : list event :=
  ((if canvasViolation hierarchy
    then [Warn (canvasWarning (terminalSegment hierarchy) (parentText hierarchy))]
    else [])
   ++
   (if manifestViolation hierarchy
    then [Warn (manifestWarning (terminalSegment hierarchy) (parentText hierarchy))]
    else []))%list.

Lemma split_not_nil sep s : split sep s <> [].
Proof.
  destruct s as [|c s]; simpl; [discriminate|].
  destruct (Ascii.eqb c sep); [discriminate|].
  destruct (split sep s); discriminate.
Qed.

Lemma length_set_last parts x :
  parts <> [] -> List.length (set_last parts x) = List.length parts.
Proof.
  intros H. unfold set_last.
  rewrite (app_removelast_last "" H) at 2.
  now rewrite !length_app.
Qed.

Lemma last_set_last parts x : last (set_last parts x) "" = x.
Proof. unfold set_last. apply last_last. Qed.

Lemma rev_set_last parts x :
  parts <> [] -> rev (set_last parts x) = x :: tl (rev parts).
Proof.
  intros H. unfold set_last. rewrite rev_app_distr. simpl.
  rewrite (app_removelast_last "" H) at 2.
  rewrite rev_app_distr. reflexivity.
Qed.

(** [parts[parts.length - 2]], read from the end of the array. *)
Lemma at_index_penultimate parts :
  at_index parts (Z.of_nat (List.length parts) - 2)%Z =
  match rev parts with
  | _ :: p :: _ => Some p
  | _ => None
  end.
Proof.
  unfold at_index.
  destruct (rev parts) as [|a [|b r]] eqn:E.
  - apply (f_equal (@rev string)) in E. rewrite rev_involutive in E. subst. reflexivity.
  - apply (f_equal (@rev string)) in E. rewrite rev_involutive in E. subst. reflexivity.
  - apply (f_equal (@rev string)) in E. rewrite rev_involutive in E. subst. simpl.
    rewrite !length_app. simpl.
    replace (Z.of_nat (List.length (rev r) + 1 + 1) - 2 <? 0)%Z with false
      by (symmetry; apply Z.ltb_ge; lia).
    replace (Z.to_nat (Z.of_nat (List.length (rev r) + 1 + 1) - 2))
      with (List.length (rev r)) by lia.
    rewrite <- app_assoc. rewrite nth_error_app2 by lia.
    now rewrite Nat.sub_diag.
Qed.

Lemma parentPart_code parts :
  (if (1 <? List.length parts)%nat
   then at_index parts (Z.of_nat (List.length parts) - 2)%Z
   else None) =
  match rev parts with
  | _ :: p :: _ => Some p
  | _ => None
  end.
Proof.
  rewrite at_index_penultimate.
  destruct (1 <? List.length parts)%nat eqn:E; [reflexivity|].
  apply Nat.ltb_ge in E.
  rewrite <- (length_rev parts) in E.
  destruct (rev parts) as [|a [|b r]]; simpl in *; try reflexivity; lia.
Qed.

Lemma bind_when_warn B b msg (k : unit -> M B) w :
  bind (when b (warn msg)) k w
  = k tt {| fs := fs w; log := (log w ++ (if b then [Warn msg] else []))%list |}.
Proof.
  destruct w as [f l]. destruct b; unfold bind; simpl; [reflexivity|].
  now rewrite app_nil_r.
Qed.

(** The warnings of the nesting check that [processRecord] adds to the log
    are those of [nestingEvents], in that order; nothing else it logs is
    such a warning. *)
Lemma processRecord_log record outputDir inputDir fileMap hierarchy :
  field record "hierarchy" = Str hierarchy ->
  forall w, exists evs,
    log (snd (processRecord record outputDir inputDir fileMap w))
    = (log w ++ nestingEvents hierarchy ++ evs)%list
    /\ Forall quiet evs.
Proof.
  intros Hh w. unfold processRecord. rewrite Hh.
  unfold bind at 1. unfold ret at 1.
  change (last (split "/" hierarchy) "") with (terminalSegment hierarchy).
  set (parts := split "/" hierarchy).
  assert (Hne : parts <> []) by apply split_not_nil.
  set (parts' := if startsWith (terminalSegment hierarchy) "canvas"
                 then set_last parts ("_" ++ terminalSegment hierarchy) else parts).
  assert (Hrev : match rev parts' with _ :: p :: _ => Some p | _ => None end
                 = parentSegment hierarchy).
  { unfold parentSegment, parts'. fold parts.
    destruct (startsWith (terminalSegment hierarchy) "canvas"); [|reflexivity].
    rewrite rev_set_last by assumption.
    destruct (rev parts) as [|a [|b r]]; reflexivity. }
  rewrite parentPart_code, Hrev.
  fold (parentText hierarchy).
  fold (canvasViolation hierarchy) (manifestViolation hierarchy).
  match goal with
  | |- context [bind (when (manifestViolation hierarchy) ?c) ?k] =>
      assert (Hrest : emits_only quiet (k tt))
  end.
  { repeat quiet_step. }
  rewrite !bind_when_warn.
  match goal with |- context [log (snd (?c ?w0))] =>
    destruct (Hrest w0) as [evs [E F]] end.
  exists evs. split; [|assumption].
  rewrite E. simpl. unfold nestingEvents. now rewrite <- !app_assoc.
Qed.

Lemma nestingEvents_are_warnings hierarchy :
  Forall (fun e => nesting_warning e = true) (nestingEvents hierarchy).
Proof.
  unfold nestingEvents.
  destruct (canvasViolation hierarchy), (manifestViolation hierarchy);
    repeat constructor.
Qed.

Lemma canvasWarning_not_manifestWarning l p l' p' :
  canvasWarning l p <> manifestWarning l' p'.
Proof. unfold canvasWarning, manifestWarning. simpl. discriminate. Qed.

Lemma quiet_not_in evs e :
  Forall quiet evs -> nesting_warning e = true -> ~ In e evs.
Proof.
  intros F He Hin. rewrite Forall_forall in F.
  specialize (F e Hin). unfold quiet in F. congruence.
Qed.

Lemma single_segment_no_parent hierarchy :
  List.length (split "/" hierarchy) = 1%nat -> parentSegment hierarchy = None.
Proof.
  unfold parentSegment. intros H. rewrite <- length_rev in H.
  destruct (rev (split "/" hierarchy)) as [|a [|b r]]; simpl in *; try reflexivity; lia.
Qed.

(* ===================================================================== *)
(** ** Digits, parseInt and the canvas index                              *)
(* ===================================================================== *)

(** The digits of a string, in order. *)
Fixpoint keepDigits (s : string) : string :=
  match s with
  | EmptyString => EmptyString
  | String c s' => if is_digit c then String c (keepDigits s') else keepDigits s'
  end.

(** The integer that a string of digits denotes, continuing from [acc]. *)
Fixpoint digitsValue (acc : Z) (d : string) : Z :=
  match d with
  | EmptyString => acc
  | String c d' => digitsValue (10 * acc + digit_val c)%Z d'
  end.

Definition no_digit (s : string) : bool :=
  forallb_str (fun c => negb (is_digit c)) s.

Ltac by_cases_on_char c :=
  destruct c as [[] [] [] [] [] [] [] []]; vm_compute; congruence.

Lemma digit_not_space c : is_digit c = true -> is_space c = false.
Proof. by_cases_on_char c. Qed.

Lemma digit_not_minus c : is_digit c = true -> Ascii.eqb c "-" = false.
Proof. by_cases_on_char c. Qed.

Lemma digit_not_plus c : is_digit c = true -> Ascii.eqb c "+" = false.
Proof. by_cases_on_char c. Qed.

Lemma digit_not_x c :
  is_digit c = true -> Ascii.eqb c "x" || Ascii.eqb c "X" = false.
Proof. by_cases_on_char c. Qed.

Lemma digit_not_canvasClass c : is_digit c = true -> canvasClass c = false.
Proof. by_cases_on_char c. Qed.

Lemma zero_is_digit c : Ascii.eqb c "0" = true -> is_digit c = true.
Proof. by_cases_on_char c. Qed.

Lemma dec_prefix_digits d : forall acc n,
  forallb_str is_digit d = true ->
  dec_prefix acc n d = (digitsValue acc d, (n + String.length d)%nat).
Proof.
  induction d as [|c d IH]; intros acc n H; simpl in *.
  - now rewrite Nat.add_0_r.
  - apply andb_true_iff in H. destruct H as [Hc Hd].
    rewrite Hc, IH by assumption. f_equal. lia.
Qed.

Lemma dec_prefix_no_digit s :
  match s with
  | String c _ => is_digit c = false
  | EmptyString => True
  end ->
  dec_prefix 0 0 s = (0%Z, O).
Proof. destruct s as [|c s]; simpl; [reflexivity|]. now intros ->. Qed.

(** [parseInt] of a non-empty string of digits is the Number of the integer
    they denote. *)
Lemma parseInt_digits d :
  d <> "" -> forallb_str is_digit d = true ->
  parseInt d = number_of_Z (digitsValue 0 d) false.
Proof.
  intros Hne H. destruct d as [|c d]; [contradiction|].
  pose proof H as H'. simpl in H'. apply andb_true_iff in H'. destruct H' as [Hc Hd].
  unfold parseInt. simpl dropWhile.
  rewrite (digit_not_space c Hc).
  unfold strip_sign. rewrite (digit_not_minus c Hc), (digit_not_plus c Hc).
  cbn [fst snd].
  assert (E : int_prefix (String c d) = dec_prefix 0 0 (String c d)).
  { unfold int_prefix. destruct d as [|x r]; [reflexivity|].
    simpl in Hd. apply andb_true_iff in Hd. destruct Hd as [Hx _].
    now rewrite (digit_not_x x Hx), andb_false_r. }
  rewrite E, (dec_prefix_digits _ 0 0 H). reflexivity.
Qed.

Lemma no_digit_dropWhile p s : no_digit s = true -> no_digit (dropWhile p s) = true.
Proof.
  unfold no_digit. induction s as [|c s IH]; simpl; [reflexivity|].
  intros H. destruct (p c); [|assumption].
  apply andb_true_iff in H. now apply IH.
Qed.

Lemma no_digit_strip_sign s :
  no_digit s = true -> no_digit (snd (strip_sign s)) = true.
Proof.
  unfold no_digit, strip_sign. destruct s as [|c s]; [reflexivity|].
  intros H. pose proof H as H'. simpl in H'. apply andb_true_iff in H'.
  destruct H' as [_ Hs].
  destruct (Ascii.eqb c "-"); [assumption|].
  destruct (Ascii.eqb c "+"); assumption.
Qed.

Lemma int_prefix_no_digit s : no_digit s = true -> int_prefix s = (0%Z, O).
Proof.
  unfold no_digit, int_prefix. destruct s as [|c s]; [reflexivity|].
  simpl forallb_str. intros H. apply andb_true_iff in H.
  destruct H as [Hc _]. apply negb_true_iff in Hc.
  assert (Z0 : Ascii.eqb c "0" = false).
  { destruct (Ascii.eqb c "0") eqn:E; [|reflexivity].
    apply zero_is_digit in E. congruence. }
  destruct s as [|x r]; rewrite ?Z0; simpl; now rewrite Hc.
Qed.

(** [parseInt] of a string without digits is NaN. *)
Lemma parseInt_no_digit s : no_digit s = true -> parseInt s = NaN.
Proof.
  intros H. unfold parseInt.
  now rewrite int_prefix_no_digit
    by (apply no_digit_strip_sign, no_digit_dropWhile, H).
Qed.

Lemma strict_eq_NaN n : strict_eq n NaN = false.
Proof. destruct n as [[]|[]| |[] m e]; reflexivity. Qed.

(** Nothing matches a canvas whose index is NaN. *)
Lemma fileMatches_NaN isAudio file : fileMatches isAudio NaN file = false.
Proof.
  unfold fileMatches.
  repeat match goal with
  | |- (if ?b then _ else _) = false => destruct b
  | |- match ?x with _ => _ end = false => destruct x
  | |- strict_eq _ NaN = false => apply strict_eq_NaN
  | |- false = false => reflexivity
  end.
Qed.

(** The greedy [cls+] in front of a continuation that accepts everything
    takes the whole run. *)
Lemma plus_takes_run A cls (f : string -> A) a s :
  cls a = true ->
  plus cls (String a s) (fun rest => Some (f rest)) = Some (f (dropWhile cls s)).
Proof.
  revert a. induction s as [|b s IH]; intros a Ha; simpl; rewrite Ha.
  - reflexivity.
  - destruct (cls b) eqn:Hb.
    + specialize (IH b Hb). simpl in IH. rewrite Hb in IH. now rewrite IH.
    + reflexivity.
Qed.

(** On a rewritten segment the pattern matches at the very start, so the
    replacement removes the leading run of characters of the class. *)
Lemma canvasIndexOf_rewritten seg :
  canvasIndexOf (String "_" seg) = parseInt (dropWhile canvasClass seg).
Proof.
  unfold canvasIndexOf, Regex.replace, exec.
  assert (E : exec_from re_canvas 0 (String "_" seg)
              = Some {| index := 0; after := dropWhile canvasClass seg;
                        group1 := None |}).
  { cbn [exec_from]. unfold match_here, re_canvas. cbn [run].
    now rewrite (plus_takes_run _ canvasClass (fun rest => (rest, @None string)) "_" seg)
      by reflexivity. }
  rewrite E. reflexivity.
Qed.

(* ===================================================================== *)
(** ** Regular expressions: what a match is                               *)
(* ===================================================================== *)

Lemma str_app_nil_r (s : string) : s ++ "" = s.
Proof. induction s; simpl; congruence. Qed.

Lemma str_app_assoc (a b c : string) : (a ++ b) ++ c = a ++ b ++ c.
Proof. induction a; simpl; congruence. Qed.

Lemma str_length_app (a b : string) :
  String.length (a ++ b) = (String.length a + String.length b)%nat.
Proof. induction a; simpl; congruence. Qed.

Lemma substring_prefix (a b : string) :
  String.substring 0 (String.length a) (a ++ b) = a.
Proof.
  induction a as [|c a IH]; simpl.
  - now destruct b.
  - now rewrite IH.
Qed.

Lemma consumed_app (a b : string) : consumed (a ++ b) b = a.
Proof.
  unfold consumed. rewrite str_length_app.
  replace (String.length a + String.length b - String.length b)%nat
    with (String.length a) by lia.
  apply substring_prefix.
Qed.

Lemma take_drop p s : s = takeWhile p s ++ dropWhile p s.
Proof.
  induction s as [|c s IH]; simpl; [reflexivity|].
  destruct (p c); simpl; congruence.
Qed.

Lemma takeWhile_all p s : forallb_str p (takeWhile p s) = true.
Proof.
  induction s as [|c s IH]; simpl; [reflexivity|].
  destruct (p c) eqn:E; simpl; [now rewrite E|reflexivity].
Qed.

(** The text [b] does not start with a character of the class. *)
Definition stops (p : ascii -> bool) (b : string) : Prop :=
  match b with
  | String c _ => p c = false
  | EmptyString => True
  end.

Lemma dropWhile_stops p s : stops p (dropWhile p s).
Proof.
  induction s as [|c s IH]; simpl; [exact I|].
  destruct (p c) eqn:E; [exact IH|exact E].
Qed.

Lemma dropWhile_app p a b :
  forallb_str p a = true -> stops p b -> dropWhile p (a ++ b) = b.
Proof.
  induction a as [|c a IH]; simpl; intros Ha Hb.
  - destruct b as [|c b]; [reflexivity|]. simpl in *. now rewrite Hb.
  - apply andb_true_iff in Ha. destruct Ha as [Hc Ha]. rewrite Hc. auto.
Qed.

(** A run of the class in front of a text that stops it is determined. *)
Lemma run_unique p a b a' b' :
  forallb_str p a = true -> forallb_str p a' = true ->
  stops p b -> stops p b' ->
  a ++ b = a' ++ b' -> a = a' /\ b = b'.
Proof.
  revert a'. induction a as [|c a IH]; intros a' Ha Ha' Hb Hb' E.
  - destruct a' as [|c' a']; [auto|].
    simpl in *. subst b. simpl in Hb.
    apply andb_true_iff in Ha'. destruct Ha' as [Hc _]. congruence.
  - destruct a' as [|c' a'].
    + simpl in *. subst b'. simpl in Hb'.
      apply andb_true_iff in Ha. destruct Ha as [Hc _]. congruence.
    + simpl in *. injection E as -> E.
      apply andb_true_iff in Ha, Ha'.
      destruct (IH a' (proj2 Ha) (proj2 Ha') Hb Hb' E) as [-> ->]. auto.
Qed.

(** [cls+] in front of a continuation that rejects every text starting in
    the class: the run is the longest one. *)
Lemma plus_maximal A cls (k : string -> option A) s :
  (forall a t, cls a = true -> k (String a t) = None) ->
  plus cls s k =
  match s with
  | String a _ => if cls a then k (dropWhile cls s) else None
  | EmptyString => None
  end.
Proof.
  intros Hk. induction s as [|a s IH]; [reflexivity|].
  cbn [plus]. destruct (cls a) eqn:Ea; [|reflexivity].
  rewrite IH. cbn [dropWhile]. rewrite Ea.
  destruct s as [|b s]; [reflexivity|].
  destruct (cls b) eqn:Eb.
  - destruct (k (dropWhile cls (String b s))); [reflexivity|].
    now apply Hk.
  - cbn [dropWhile]. now rewrite Eb.
Qed.



(** [exec] answers with the match at the first position that has one. *)
Lemma exec_from_some r i s m :
  exec_from r i s = Some m ->
  exists pre t, s = pre ++ t /\ match_here r t = Some (after m, group1 m).
Proof.
  revert i. induction s as [|c s IH]; intros i H; cbn [exec_from] in H.
  - destruct (match_here r "") as [[rest cap]|] eqn:E; [|discriminate].
    injection H as <-. exists "", "". auto.
  - destruct (match_here r (String c s)) as [[rest cap]|] eqn:E.
    + injection H as <-. exists "", (String c s). auto.
    + destruct (IH _ H) as [pre [t [-> Ht]]].
      exists (String c pre), t. auto.
Qed.

Lemma exec_from_complete r i pre t :
  match_here r t <> None -> exec_from r i (pre ++ t) <> None.
Proof.
  revert i. induction pre as [|c pre IH]; intros i H.
  - simpl. destruct t as [|c t]; cbn [exec_from];
      destruct (match_here r _) as [[rest cap]|]; congruence.
  - cbn [append exec_from].
    destruct (match_here r (String c (pre ++ t))) as [[rest cap]|]; [discriminate|].
    now apply IH.
Qed.

(** Two suffixes of one text: one of them is a suffix of the other. *)
Lemma suffixes_comparable (pre t pre' t' : string) :
  pre ++ t = pre' ++ t' ->
  (exists q, t = q ++ t') \/ (exists q, t' = q ++ t).
Proof.
  revert pre'. induction pre as [|c pre IH]; intros pre' E.
  - left. exists pre'. exact E.
  - destruct pre' as [|c' pre'].
    + right. exists (String c pre). now symmetry.
    + injection E as _ E. now apply IH in E.
Qed.

Lemma forallb_str_app p a b :
  forallb_str p (a ++ b) = forallb_str p a && forallb_str p b.
Proof.
  induction a as [|c a IH]; simpl; [reflexivity|].
  now rewrite IH, andb_assoc.
Qed.

(** One or more digits. *)
Definition digits_run (d : string) : Prop :=
  d <> "" /\ forallb_str is_digit d = true.

Lemma digits_run_take s :
  match s with String a _ => is_digit a = true | EmptyString => False end ->
  digits_run (takeWhile is_digit s).
Proof.
  destruct s as [|a s]; [contradiction|]. intros Ha. split.
  - simpl. now rewrite Ha.
  - apply takeWhile_all.
Qed.

(** *** The pattern of audio files *)



Definition accept (rest : string) (cap : option string)
  : option (string * option string) :=
  Some (rest, cap).

Lemma digit_not_dot c : is_digit c = true -> Ascii.eqb c "." = false.
Proof. by_cases_on_char c. Qed.

Lemma digit_not_underscore c : is_digit c = true -> Ascii.eqb c "_" = false.
Proof. by_cases_on_char c. Qed.


Lemma run_Seq A r1 r2 s cap (k : string -> option string -> option A) :
  run (Seq r1 r2) s cap k = run r1 s cap (fun s' cap' => run r2 s' cap' k).
Proof. reflexivity. Qed.


Lemma run_Chr A c s cap (k : string -> option string -> option A) :
  run (Chr c) s cap k
  = match s with
    | String a s' => if Ascii.eqb a c then k s' cap else None
    | EmptyString => None
    end.
Proof. reflexivity. Qed.

Lemma run_Plus A cls s cap (k : string -> option string -> option A) :
  run (Plus cls) s cap k = plus cls s (fun s' => k s' cap).
Proof. reflexivity. Qed.














(** *** The pattern of image files *)

Definition notDot (c : ascii) : bool := negb (Ascii.eqb c ".").

Definition nodot (s : string) : bool := forallb_str notDot s.

(** [s] is an underscore, digits [d], a dot and a non-empty text without
    dots. *)
Definition imageAt (s d : string) : Prop :=
  exists e,
    s = "_" ++ d ++ "." ++ e
    /\ digits_run d /\ e <> "" /\ nodot e = true.

Definition imagePattern (name d : string) : Prop :=
  exists pre t, name = pre ++ t /\ imageAt t d.

(** [\.[^.]+$] *)
Definition extTail (s : string) (cap : option string)
  : option (string * option string) :=
  run (Seq (Chr ".") (Seq (Plus notDot) Eos)) s cap accept.

Lemma run_Eos_cons A a t cap (k : string -> option string -> option A) :
  run Eos (String a t) cap k = None.
Proof. reflexivity. Qed.

Lemma extTail_some s cap r :
  extTail s cap = Some r ->
  r = ("", cap) /\ exists e, s = "." ++ e /\ e <> "" /\ nodot e = true.
Proof.
  unfold extTail. rewrite run_Seq, run_Chr.
  destruct s as [|a s]; [discriminate|].
  destruct (Ascii.eqb_spec a ".") as [->|]; [|discriminate].
  rewrite run_Seq, run_Plus, plus_maximal by (intros; apply run_Eos_cons).
  destruct s as [|b s]; [discriminate|].
  destruct (notDot b) eqn:Eb; [|discriminate].
  intros H.
  destruct (dropWhile notDot (String b s)) as [|c u] eqn:Ed; [|discriminate].
  injection H as <-. split; [reflexivity|].
  exists (String b s). split; [reflexivity|]. split; [discriminate|].
  unfold nodot. rewrite (take_drop notDot (String b s)), Ed, str_app_nil_r.
  apply takeWhile_all.
Qed.

Lemma extTail_ok e cap :
  e <> "" -> nodot e = true -> extTail ("." ++ e) cap = Some ("", cap).
Proof.
  intros Hne He. unfold extTail. rewrite run_Seq, run_Chr.
  cbn [append]. change (Ascii.eqb "." ".") with true. cbv iota.
  rewrite run_Seq, run_Plus, plus_maximal by (intros; apply run_Eos_cons).
  destruct e as [|b e]; [contradiction|].
  pose proof He as He'. unfold nodot in He'. cbn [forallb_str] in He'.
  apply andb_true_iff in He'. destruct He' as [Hb _]. rewrite Hb.
  rewrite <- (str_app_nil_r (String b e)).
  rewrite dropWhile_app by (assumption || exact I).
  reflexivity.
Qed.

Lemma extTail_digit a t cap :
  is_digit a = true -> extTail (String a t) cap = None.
Proof.
  intros Ha. unfold extTail. rewrite run_Seq, run_Chr.
  now rewrite (digit_not_dot a Ha).
Qed.

Lemma match_here_image s :
  match_here re_image s
  = run (Chr "_") s None
      (fun s1 _ =>
         plus is_digit s1 (fun s2 => extTail s2 (Some (consumed s1 s2)))).
Proof. reflexivity. Qed.

(** A match of the image pattern at the start of [s]. *)
Lemma image_here_some s rest cap :
  match_here re_image s = Some (rest, cap) ->
  rest = "" /\ exists d, cap = Some d /\ imageAt s d.
Proof.
  rewrite match_here_image, run_Chr. intros H.
  destruct s as [|u s1]; [discriminate|].
  destruct (Ascii.eqb_spec u "_") as [->|]; [|discriminate].
  rewrite plus_maximal in H by (intros; now apply extTail_digit).
  destruct s1 as [|a s1]; [discriminate|].
  destruct (is_digit a) eqn:Ea; [|discriminate].
  apply extTail_some in H. destruct H as [[= -> ->] [e [Ht [Hne He]]]].
  split; [reflexivity|].
  set (t := String a s1) in *.
  change (if is_digit a then dropWhile is_digit s1 else t)
    with (dropWhile is_digit t).
  assert (Hd : digits_run (takeWhile is_digit t)) by (apply digits_run_take; exact Ea).
  assert (Ec : consumed t (dropWhile is_digit t) = takeWhile is_digit t).
  { rewrite (take_drop is_digit t) at 1. apply consumed_app. }
  exists (takeWhile is_digit t). split; [now rewrite Ec|].
  exists e. split; [|auto].
  change ("_" ++ ?x) with (String "_" x). f_equal.
  rewrite (take_drop is_digit t) at 1. now rewrite Ht.
Qed.

Lemma image_here_ok s d :
  imageAt s d -> match_here re_image s = Some ("", Some d).
Proof.
  intros [e [-> [[Hne Hd] [Hen He]]]].
  rewrite match_here_image, run_Chr.
  cbn [append]. change (Ascii.eqb "_" "_") with true. cbv iota.
  rewrite plus_maximal by (intros; now apply extTail_digit).
  destruct d as [|a d]; [contradiction|].
  pose proof Hd as Hd'. cbn [forallb_str] in Hd'.
  apply andb_true_iff in Hd'. destruct Hd' as [Ha _].
  cbn [append]. rewrite Ha.
  change (String a (d ++ String "." e)) with (String a d ++ "." ++ e).
  rewrite dropWhile_app by (assumption || reflexivity).
  rewrite consumed_app. now apply extTail_ok.
Qed.

Lemma app_eq_split (a b c d : string) :
  a ++ b = c ++ d ->
  (exists x, a = c ++ x /\ d = x ++ b) \/ (exists x, c = a ++ x /\ b = x ++ d).
Proof.
  revert c. induction a as [|u a IH]; intros c E.
  - right. exists c. auto.
  - destruct c as [|v c].
    + left. exists (String u a). auto.
    + injection E as -> E. destruct (IH c E) as [[x [-> ->]]|[x [-> ->]]].
      * left. exists x. auto.
      * right. exists x. auto.
Qed.

(** The digits that a match of the image pattern captures do not depend on
    where the match starts. *)
Lemma imageAt_unique pre t d pre' t' d' :
  pre ++ t = pre' ++ t' -> imageAt t d -> imageAt t' d' -> d = d'.
Proof.
  assert (Same : forall t d d', imageAt t d -> imageAt t d' -> d = d').
  { intros u e e' [x [-> [[_ Hd] _]]] [x' [E [[_ Hd'] _]]].
    assert (E' : e ++ "." ++ x = e' ++ "." ++ x') by (now injection E).
    apply (run_unique is_digit) in E'; try assumption; try reflexivity.
    now destruct E'. }
  assert (Off : forall q t t' d d', q <> "" -> t = q ++ t' ->
                imageAt t d -> imageAt t' d' -> False).
  { intros q u u' e e' Hq -> [x [E [[_ Hd] [_ Hx]]]] [x' [-> _]].
    destruct q as [|c q]; [contradiction|].
    cbn [append] in E. injection E as _ E.
    symmetry in E.
    destruct (app_eq_split _ _ _ _ E) as [[y [-> Ey]]|[y [-> Ey]]].
    - rewrite forallb_str_app in Hd. apply andb_true_iff in Hd.
      destruct Hd as [_ Hy].
      destruct y as [|c' y]; [discriminate|].
      cbn [append] in Ey. injection Ey as <- _.
      cbn [forallb_str] in Hy. discriminate.
    - destruct y as [|c' y]; [discriminate|].
      cbn [append] in Ey. injection Ey as <- ->.
      unfold nodot in Hx. rewrite forallb_str_app in Hx.
      apply andb_true_iff in Hx. destruct Hx as [_ Hx].
      cbn [append forallb_str] in Hx.
      rewrite forallb_str_app in Hx.
      apply andb_true_iff in Hx. destruct Hx as [_ Hx].
      apply andb_true_iff in Hx. destruct Hx as [_ Hx].
      cbn [append forallb_str] in Hx. discriminate. }
  intros E H H'.
  destruct (suffixes_comparable _ _ _ _ E) as [[q Eq]|[q Eq]].
  - destruct q as [|c q].
    + simpl in Eq. subst. exact (Same _ _ _ H H').
    + exfalso. apply (Off (String c q) t t' d d'); (discriminate || assumption).
  - destruct q as [|c q].
    + simpl in Eq. subst. exact (Same _ _ _ H H').
    + exfalso. apply (Off (String c q) t' t d' d); (discriminate || assumption).
Qed.

(** *** Lower case and extensions *)

Lemma lower_app a b : toLowerCase (a ++ b) = toLowerCase a ++ toLowerCase b.
Proof. induction a as [|c a IH]; simpl; congruence. Qed.

Lemma lower_app_inv s a b :
  toLowerCase s = a ++ b ->
  exists a' b', s = a' ++ b' /\ toLowerCase a' = a /\ toLowerCase b' = b.
Proof.
  revert s. induction a as [|c a IH]; intros s E.
  - exists "", s. auto.
  - destruct s as [|u s]; [discriminate|].
    cbn [toLowerCase append] in E. injection E as Ec E.
    destruct (IH s E) as [a' [b' [-> [Ha Hb]]]].
    exists (String u a'), b'. cbn [toLowerCase append]. now rewrite Ec, Ha.
Qed.

Lemma lower_digit_inv c : is_digit (lower_char c) = true -> lower_char c = c.
Proof. by_cases_on_char c. Qed.

Lemma lower_digit c : is_digit c = true -> lower_char c = c.
Proof. by_cases_on_char c. Qed.

Lemma lower_underscore_inv c : lower_char c = "_"%char -> c = "_"%char.
Proof. by_cases_on_char c. Qed.

Lemma lower_notDot c : notDot (lower_char c) = notDot c.
Proof. destruct c as [[] [] [] [] [] [] [] []]; vm_compute; reflexivity. Qed.

Lemma lower_digits d : forallb_str is_digit d = true -> toLowerCase d = d.
Proof.
  induction d as [|c d IH]; [reflexivity|]. cbn [forallb_str toLowerCase].
  intros H. apply andb_true_iff in H. destruct H as [Hc Hd].
  now rewrite (lower_digit c Hc), IH.
Qed.

Lemma lower_digits_inv s d :
  toLowerCase s = d -> forallb_str is_digit d = true -> s = d.
Proof.
  revert d. induction s as [|c s IH]; intros d E H; [exact E|].
  cbn [toLowerCase] in E. subst d. cbn [forallb_str] in H.
  apply andb_true_iff in H. destruct H as [Hc Hd].
  rewrite (lower_digit_inv c Hc). f_equal. exact (IH _ eq_refl Hd).
Qed.

Lemma lower_nodot e : nodot (toLowerCase e) = nodot e.
Proof.
  unfold nodot. induction e as [|c e IH]; [reflexivity|].
  cbn [toLowerCase forallb_str]. now rewrite lower_notDot, IH.
Qed.

Lemma lower_not_empty e : e <> "" -> toLowerCase e <> "".
Proof. destruct e; [contradiction|discriminate]. Qed.

Lemma split_last_dot_nodot e : nodot e = true -> split_last_dot e = None.
Proof.
  unfold nodot. induction e as [|c e IH]; [reflexivity|].
  cbn [forallb_str split_last_dot]. intros H.
  apply andb_true_iff in H. destruct H as [Hc He]. rewrite (IH He).
  unfold notDot in Hc. apply negb_true_iff in Hc. now rewrite Hc.
Qed.

(** The last dot of a text splits it in one way only. *)
Lemma split_last_dot_app stem e :
  nodot e = true -> split_last_dot (stem ++ "." ++ e) = Some (stem, "." ++ e).
Proof.
  intros He. induction stem as [|c stem IH].
  - cbn [append split_last_dot]. now rewrite (split_last_dot_nodot e He).
  - cbn [append split_last_dot]. cbn [append] in IH. now rewrite IH.
Qed.

Lemma split_last_dot_some b stem ext :
  split_last_dot b = Some (stem, ext) ->
  exists e, ext = "." ++ e /\ nodot e = true /\ b = stem ++ ext.
Proof.
  revert stem. induction b as [|c b IH]; intros stem H; [discriminate|].
  cbn [split_last_dot] in H.
  destruct (split_last_dot b) as [[stem' ext']|] eqn:E.
  - injection H as <- <-. destruct (IH _ eq_refl) as [e [-> [He ->]]].
    exists e. auto.
  - destruct (Ascii.eqb_spec c ".") as [->|]; [|discriminate].
    injection H as <- <-. exists b. split; [reflexivity|]. split; [|reflexivity].
    clear IH. unfold nodot. induction b as [|u b IH]; [reflexivity|].
    cbn [split_last_dot] in E.
    destruct (split_last_dot b) as [[? ?]|]; [discriminate|].
    cbn [forallb_str]. unfold notDot at 1.
    destruct (Ascii.eqb u "."); [discriminate|]. now apply IH.
Qed.

Lemma last_dot_unique a e a' e' :
  a ++ "." ++ e = a' ++ "." ++ e' -> nodot e = true -> nodot e' = true ->
  a = a' /\ e = e'.
Proof.
  intros E He He'.
  pose proof (split_last_dot_app a e He) as S.
  rewrite E, (split_last_dot_app a' e' He') in S.
  injection S as Ha He0. split; [congruence|].
  cbn [append] in He0. congruence.
Qed.

(** A non-empty extension is the text from the last dot of the base name
    on. *)
Lemma extname_some file :
  extname file <> "" ->
  exists stem e,
    basename file = stem ++ extname file
    /\ extname file = "." ++ e /\ nodot e = true.
Proof.
  unfold extname. intros H.
  destruct (split_last_dot (basename file)) as [[stem ext]|] eqn:E;
    [|now elim H].
  destruct ((stem =? "") || (basename file =? "..")); [now elim H|].
  destruct (split_last_dot_some _ _ _ E) as [e [-> [He Hb]]].
  exists stem, e. auto.
Qed.

(* ===================================================================== *)
(** ** Paths: segments, normalisation and resolution                      *)
(* ===================================================================== *)

Definition noslash (s : string) : bool :=
  forallb_str (fun c => negb (Ascii.eqb c "/")) s.

(** A name that the normalisation keeps as it is. *)
Definition plain (s : string) : Prop :=
  s <> "" /\ s <> "." /\ s <> ".." /\ noslash s = true.

Lemma split_cons sep s : exists h t, split sep s = h :: t.
Proof.
  destruct (split sep s) as [|h t] eqn:E; [|eauto].
  now apply split_not_nil in E.
Qed.

Lemma split_app_sep a b :
  split "/" (a ++ String "/" b) = (split "/" a ++ split "/" b)%list.
Proof.
  induction a as [|c a IH]; simpl; [reflexivity|].
  destruct (Ascii.eqb c "/").
  - now rewrite IH.
  - rewrite IH. destruct (split_cons "/" a) as [h [t ->]]. reflexivity.
Qed.

Lemma split_noslash s : noslash s = true -> split "/" s = [s].
Proof.
  unfold noslash. induction s as [|c s IH]; simpl; [reflexivity|].
  intros H. apply andb_true_iff in H. destruct H as [Hc Hs].
  apply negb_true_iff in Hc. now rewrite Hc, IH.
Qed.

Lemma split_all_noslash s : Forall (fun x => noslash x = true) (split "/" s).
Proof.
  induction s as [|c s IH]; simpl.
  - now constructor.
  - destruct (Ascii.eqb c "/") eqn:E.
    + now constructor.
    + destruct (split_cons "/" s) as [h [t Hs]]. rewrite Hs in *.
      inversion IH; subst. constructor; [|assumption].
      unfold noslash in *. simpl. now rewrite E.
Qed.

Lemma split_concat l :
  l <> [] -> Forall (fun x => noslash x = true) l ->
  split "/" (String.concat "/" l) = l.
Proof.
  induction l as [|x l IH]; [contradiction|]. intros _ H.
  inversion H; subst.
  destruct l as [|y l].
  - simpl. now apply split_noslash.
  - change (String.concat "/" (x :: y :: l))
      with (x ++ String "/" (String.concat "/" (y :: l))).
    rewrite split_app_sep, IH, split_noslash by (assumption || discriminate).
    reflexivity.
Qed.

Lemma plain_step allow stack seg :
  plain seg -> normalizeStep allow stack seg = seg :: stack.
Proof.
  intros [H1 [H2 [H3 _]]]. unfold normalizeStep.
  apply String.eqb_neq in H1, H2, H3. now rewrite H1, H2, H3.
Qed.

(** The shape of a stack of the normalisation: plain names on top of
    [..] segments, which only a relative path can have. *)
Definition normal_stack (allow : bool) (stack : list string) : Prop :=
  exists names k,
    stack = (names ++ repeat ".." k)%list
    /\ Forall plain names
    /\ (allow = false -> k = O).

Lemma normal_stack_nil allow : normal_stack allow [].
Proof. exists [], O. simpl. auto. Qed.

Lemma normalizeStep_normal allow stack seg :
  noslash seg = true -> normal_stack allow stack ->
  normal_stack allow (normalizeStep allow stack seg).
Proof.
  intros Hs [names [k [-> [Hn Hk]]]]. unfold normalizeStep.
  destruct (String.eqb_spec seg "") as [->|E1]; simpl; [exists names, k; auto|].
  destruct (String.eqb_spec seg ".") as [->|E2]; simpl; [exists names, k; auto|].
  destruct (String.eqb_spec seg "..") as [->|E3].
  - destruct names as [|top names]; simpl.
    + destruct k as [|k]; simpl.
      * destruct allow; [exists [], 1%nat|exists [], O]; simpl; auto.
        repeat split; auto. discriminate.
      * destruct allow; [|now specialize (Hk eq_refl)].
        exists [], (S (S k)). simpl. repeat split; auto. discriminate.
    + inversion Hn as [|? ? Ht Hn']; subst.
      destruct Ht as [_ [_ [Ht _]]]. apply String.eqb_neq in Ht. rewrite Ht.
      exists names, k. auto.
  - exists (seg :: names), k. repeat split; auto.
    constructor; [|assumption]. repeat split; assumption.
Qed.

Lemma fold_normal allow segs : forall stack,
  Forall (fun x => noslash x = true) segs -> normal_stack allow stack ->
  normal_stack allow (fold_left (normalizeStep allow) segs stack).
Proof.
  induction segs as [|seg segs IH]; intros stack Hs Hn; simpl; [assumption|].
  inversion Hs; subst. apply IH; [assumption|].
  now apply normalizeStep_normal.
Qed.

Lemma fold_plain allow names : forall stack,
  Forall plain names ->
  fold_left (normalizeStep allow) names stack = (rev names ++ stack)%list.
Proof.
  induction names as [|n names IH]; intros stack H; simpl; [reflexivity|].
  inversion H; subst. rewrite plain_step by assumption.
  rewrite IH by assumption. now rewrite <- app_assoc.
Qed.

Lemma fold_dotdots k : forall j,
  fold_left (normalizeStep true) (repeat ".." k) (repeat ".." j)
  = repeat ".." (k + j).
Proof.
  induction k as [|k IH]; intros j; simpl; [reflexivity|].
  replace (normalizeStep true (repeat ".." j) "..") with (repeat ".." (S j))
    by (destruct j; reflexivity).
  rewrite IH. now replace (k + S j)%nat with (S (k + j)) by lia.
Qed.

Lemma rev_repeat (x : string) k : rev (repeat x k) = repeat x k.
Proof.
  induction k as [|k IH]; simpl; [reflexivity|].
  rewrite IH. clear IH. induction k as [|k IH]; simpl; [reflexivity|].
  now rewrite IH.
Qed.

(** Normal segments are left as they are by another normalisation. *)
Lemma normalize_idempotent allow stack :
  normal_stack allow stack ->
  fold_left (normalizeStep allow) (rev stack) [] = stack.
Proof.
  intros [names [k [-> [Hn Hk]]]].
  rewrite rev_app_distr, rev_repeat, fold_left_app.
  assert (D : fold_left (normalizeStep allow) (repeat ".." k) [] = repeat ".." k).
  { destruct allow.
    - change (@nil string) with (repeat ".." 0).
      rewrite fold_dotdots. f_equal. lia.
    - now rewrite (Hk eq_refl). }
  rewrite D, fold_plain by (now apply Forall_rev).
  now rewrite rev_involutive.
Qed.

Lemma normal_stack_noslash allow stack :
  normal_stack allow stack -> Forall (fun x => noslash x = true) stack.
Proof.
  intros [names [k [-> [Hn _]]]]. apply Forall_app. split.
  - eapply Forall_impl; [|exact Hn]. now intros a [_ [_ [_ H]]].
  - clear. induction k; simpl; constructor; auto.
Qed.

Lemma normal_stack_nonempty allow stack :
  normal_stack allow stack -> Forall (fun x => x <> "") stack.
Proof.
  intros [names [k [-> [Hn _]]]]. apply Forall_app. split.
  - eapply Forall_impl; [|exact Hn]. now intros a [H _].
  - clear. induction k; simpl; constructor; auto. discriminate.
Qed.

Lemma isAbsolute_cons c p : isAbsolute (String c p) = Ascii.eqb c "/".
Proof.
  unfold isAbsolute. cbn [startsWith]. destruct p; apply andb_true_r.
Qed.

Lemma isAbsolute_app p q : p <> "" -> isAbsolute (p ++ q) = isAbsolute p.
Proof. destruct p as [|c p]; [contradiction|]. intros _. simpl. now rewrite !isAbsolute_cons. Qed.

Lemma isAbsolute_noslash x t : x <> "" -> noslash x = true -> isAbsolute (x ++ t) = false.
Proof.
  destruct x as [|c x]; [contradiction|]. intros _ H. simpl.
  rewrite isAbsolute_cons. unfold noslash in H. simpl in H.
  apply andb_true_iff in H. destruct H as [H _]. now apply negb_true_iff in H.
Qed.

Lemma concat_cons_app x l :
  exists t, String.concat "/" (x :: l) = x ++ t.
Proof.
  destruct l as [|y l].
  - exists "". simpl. now rewrite str_app_nil_r.
  - eexists. reflexivity.
Qed.

Lemma fold_skip_empty allow segs stack :
  fold_left (normalizeStep allow) (segs ++ [""])%list stack
  = fold_left (normalizeStep allow) segs stack.
Proof. now rewrite fold_left_app. Qed.

Lemma fold_skip_first allow segs stack :
  fold_left (normalizeStep allow) ("" :: segs) stack
  = fold_left (normalizeStep allow) segs stack.
Proof. reflexivity. Qed.

(** What the operating system makes of a normalised path is what it makes
    of the path itself. *)
Lemma resolve_normalize q : FS.resolve (normalize q) = FS.resolve q.
Proof.
  unfold normalize.
  destruct (String.eqb_spec q "") as [->|Hq]; [reflexivity|].
  unfold FS.resolve.
  set (abs := isAbsolute q).
  unfold normalizeSegments.
  set (st := fold_left (normalizeStep (negb abs)) (split "/" q) []).
  assert (N : normal_stack (negb abs) st)
    by (apply fold_normal; [apply split_all_noslash|apply normal_stack_nil]).
  pose proof (normalize_idempotent _ _ N) as Idem.
  pose proof (normal_stack_noslash _ _ N) as Hns.
  pose proof (normal_stack_nonempty _ _ N) as Hne.
  apply Forall_rev in Hns, Hne.
  destruct (rev st) as [|x l] eqn:E.
  - assert (st = []) as ->
      by (apply (f_equal (@rev string)) in E; now rewrite rev_involutive in E).
    simpl String.concat. cbn [String.eqb].
    destruct abs; [reflexivity|].
    destruct (endsWithSlash q); reflexivity.
  - destruct (concat_cons_app x l) as [t Ht].
    inversion Hne as [|? ? Hx _]; subst.
    assert (Hb : (String.concat "/" (x :: l) =? "") = false).
    { rewrite Ht. apply String.eqb_neq. destruct x; [contradiction|discriminate]. }
    rewrite Hb.
    assert (Sp : split "/" (String.concat "/" (x :: l)) = x :: l)
      by (apply split_concat; [discriminate|assumption]).
    inversion Hns as [|? ? Hxs _]; subst.
    assert (Enot : negb abs = negb (isAbsolute q)) by reflexivity.
    destruct abs eqn:Eabs; destruct (endsWithSlash q).
    + change ("/" ++ ?b) with (String "/" b).
      rewrite isAbsolute_cons. change (Ascii.eqb "/" "/") with true. f_equal.
      change (String "/" (String.concat "/" (x :: l) ++ "/"))
        with ("" ++ String "/" (String.concat "/" (x :: l) ++ String "/" "")).
      rewrite !split_app_sep, Sp. cbn [split app].
      rewrite fold_skip_first, app_comm_cons, fold_skip_empty.
      now rewrite Idem.
    + change ("/" ++ ?b) with (String "/" b).
      rewrite isAbsolute_cons. change (Ascii.eqb "/" "/") with true. f_equal.
      change (String "/" (String.concat "/" (x :: l)))
        with ("" ++ String "/" (String.concat "/" (x :: l))).
      rewrite split_app_sep, Sp. cbn [split app].
      rewrite fold_skip_first.
      now rewrite Idem.
    + rewrite Ht, str_app_assoc, isAbsolute_noslash by assumption.
      rewrite <- str_app_assoc, <- Ht. f_equal.
      change (String.concat "/" (x :: l) ++ "/")
        with (String.concat "/" (x :: l) ++ String "/" "").
      rewrite split_app_sep, Sp. cbn [split].
      rewrite fold_skip_empty.
      now rewrite Idem.
    + rewrite Ht, isAbsolute_noslash by assumption.
      rewrite <- Ht, Sp. f_equal.
      now rewrite Idem.
Qed.

(** The segments of a normalised path: those of the normalisation, behind
    an empty one for the root and in front of an empty one for a trailing
    separator. *)
Lemma split_normalize q x l :
  q <> "" ->
  normalizeSegments (negb (isAbsolute q)) (split "/" q) = x :: l ->
  split "/" (normalize q)
  = ((if isAbsolute q then [""] else [])
       ++ (x :: l) ++ (if endsWithSlash q then [""] else []))%list.
Proof.
  intros Hq E. unfold normalize.
  apply String.eqb_neq in Hq. rewrite Hq, E.
  unfold normalizeSegments in E.
  set (st := fold_left (normalizeStep (negb (isAbsolute q))) (split "/" q) []) in E.
  assert (N : normal_stack (negb (isAbsolute q)) st)
    by (apply fold_normal; [apply split_all_noslash|apply normal_stack_nil]).
  pose proof (normal_stack_noslash _ _ N) as Hns.
  pose proof (normal_stack_nonempty _ _ N) as Hne.
  apply Forall_rev in Hns, Hne. rewrite E in Hns, Hne.
  destruct (concat_cons_app x l) as [t Ht].
  inversion Hne as [|? ? Hx _]; subst.
  assert (Hb : (String.concat "/" (x :: l) =? "") = false).
  { rewrite Ht. apply String.eqb_neq. destruct x; [contradiction|discriminate]. }
  rewrite Hb.
  assert (Sp : split "/" (String.concat "/" (x :: l)) = x :: l)
    by (apply split_concat; [discriminate|assumption]).
  destruct (isAbsolute q); destruct (endsWithSlash q).
  - change ("/" ++ (String.concat "/" (x :: l) ++ "/"))
      with ("" ++ String "/" (String.concat "/" (x :: l) ++ String "/" "")).
    now rewrite !split_app_sep, Sp.
  - change ("/" ++ String.concat "/" (x :: l))
      with ("" ++ String "/" (String.concat "/" (x :: l))).
    now rewrite split_app_sep, Sp, app_nil_r.
  - change (String.concat "/" (x :: l) ++ "/")
      with (String.concat "/" (x :: l) ++ String "/" "").
    now rewrite split_app_sep, Sp.
  - now rewrite Sp, app_nil_r.
Qed.

Lemma filter_nonempty_id l :
  Forall (fun x => x <> "") l -> filter nonempty l = l.
Proof.
  induction 1 as [|x l Hx _ IH]; simpl; [reflexivity|].
  unfold nonempty at 1. apply String.eqb_neq in Hx. now rewrite Hx, IH.
Qed.

(** The base name of a normalised path is the last name of the path as it
    is resolved, when there is one. *)
Lemma basename_normalize q :
  snd (FS.resolve q) <> [] ->
  basename (normalize q) = last (snd (FS.resolve q)) "".
Proof.
  unfold FS.resolve. cbn [snd]. intros Hn.
  destruct (String.eqb_spec q "") as [->|Hq]; [now elim Hn|].
  destruct (normalizeSegments (negb (isAbsolute q)) (split "/" q))
    as [|x l] eqn:E; [now elim Hn|].
  unfold basename. rewrite (split_normalize q x l Hq E).
  assert (Hne : Forall (fun x => x <> "") (x :: l)).
  { unfold normalizeSegments in E. rewrite <- E. apply Forall_rev.
    apply (normal_stack_nonempty (negb (isAbsolute q))).
    apply fold_normal; [apply split_all_noslash|apply normal_stack_nil]. }
  rewrite !filter_app, (filter_nonempty_id _ Hne).
  destruct (isAbsolute q); destruct (endsWithSlash q); cbn [filter nonempty String.eqb negb app];
    now rewrite ?app_nil_r.
Qed.

Lemma resolve_join l :
  FS.resolve (join l) = FS.resolve (String.concat "/" (filter nonempty l)).
Proof.
  unfold join. destruct (filter nonempty l) as [|x l']; [reflexivity|].
  apply resolve_normalize.
Qed.

Lemma plain_nonempty m : plain m -> nonempty m = true.
Proof. intros [H _]. unfold nonempty. apply String.eqb_neq in H. now rewrite H. Qed.

(** A plain name behind a path resolves to the path with the name added. *)
Lemma resolve_snoc A m :
  plain m ->
  FS.resolve (if A =? "" then m else A ++ String "/" m)
  = (fst (FS.resolve A), (snd (FS.resolve A) ++ [m])%list).
Proof.
  intros Hm. pose proof Hm as [Hm0 [_ [_ Hms]]].
  unfold FS.resolve, normalizeSegments. cbn [fst snd].
  destruct (String.eqb_spec A "") as [->|HA].
  - replace m with (m ++ "") at 1 by apply str_app_nil_r.
    rewrite isAbsolute_noslash by assumption.
    rewrite split_noslash by assumption.
    cbn [fold_left split isAbsolute startsWith negb normalizeStep String.eqb orb].
    now rewrite plain_step.
  - rewrite isAbsolute_app by assumption.
    rewrite split_app_sep, (split_noslash m) by assumption.
    rewrite fold_left_app. cbn [fold_left].
    now rewrite plain_step.
Qed.

Lemma concat_snoc l m :
  String.concat "/" (l ++ [m])
  = if String.concat "/" l =? "" then
      (if match l with [] => true | _ => false end then m
       else String.concat "/" l ++ String "/" m)
    else String.concat "/" l ++ String "/" m.
Proof.
  induction l as [|x l IH]; [reflexivity|].
  destruct l as [|y l].
  - simpl. now destruct (x =? "").
  - change (String.concat "/" ((x :: y :: l) ++ [m]))
      with (x ++ String "/" (String.concat "/" ((y :: l) ++ [m]))).
    rewrite IH.
    change (String.concat "/" (x :: y :: l))
      with (x ++ String "/" (String.concat "/" (y :: l))).
    assert (E : forall t, (x ++ String "/" t =? "") = false)
      by (intros t; apply String.eqb_neq; destruct x; discriminate).
    rewrite E.
    destruct (String.concat "/" (y :: l) =? "");
      now rewrite str_app_assoc.
Qed.

Lemma concat_filter_nonempty_empty l :
  String.concat "/" (filter nonempty l) = "" -> filter nonempty l = [].
Proof.
  destruct (filter nonempty l) as [|x l'] eqn:E; [reflexivity|].
  assert (Hx : nonempty x = true).
  { assert (In x (filter nonempty l)) by (rewrite E; now left).
    now apply filter_In in H. }
  destruct (concat_cons_app x l') as [t ->].
  unfold nonempty in Hx. destruct x; [discriminate|discriminate].
Qed.

(** The full path of a row resolves to some directory names followed by the
    last part, when the last part is a plain name. *)
Lemma resolve_join_last outputDir init m :
  plain m ->
  FS.resolve (join (outputDir :: init ++ [m]))
  = (fst (FS.resolve (String.concat "/" (filter nonempty (outputDir :: init)))),
     (snd (FS.resolve (String.concat "/" (filter nonempty (outputDir :: init))))
        ++ [m])%list).
Proof.
  intros Hm. rewrite resolve_join.
  rewrite app_comm_cons, filter_app.
  change (filter nonempty [m]) with (if nonempty m then [m] else []).
  rewrite (plain_nonempty m Hm).
  set (l0 := filter nonempty (outputDir :: init)).
  rewrite concat_snoc. rewrite <- (resolve_snoc _ m Hm).
  destruct (String.eqb_spec (String.concat "/" l0) "") as [E|E]; [|reflexivity].
  unfold l0 in *. now rewrite (concat_filter_nonempty_empty _ E).
Qed.

Lemma resolve_join_child F name :
  plain name ->
  FS.resolve (join [F; name])
  = (fst (FS.resolve F), (snd (FS.resolve F) ++ [name])%list).
Proof.
  intros Hm. rewrite resolve_join. cbn [filter].
  rewrite (plain_nonempty name Hm). rewrite <- (resolve_snoc _ name Hm).
  unfold nonempty. destruct (F =? ""); reflexivity.
Qed.

Lemma rewritten_plain x :
  noslash x = true -> plain ("_" ++ x).
Proof.
  intros H. repeat split; try discriminate.
  unfold noslash in *. simpl. exact H.
Qed.

Lemma Forall_last (P : string -> Prop) l d :
  Forall P l -> l <> [] -> P (last l d).
Proof.
  induction 1 as [|x l Hx Hl IH]; [contradiction|]. intros _.
  destruct l as [|y l]; [exact Hx|]. apply IH. discriminate.
Qed.

Lemma last_noslash s : noslash (last (split "/" s) "") = true.
Proof.
  apply (Forall_last (fun x => noslash x = true));
    [apply split_all_noslash|apply split_not_nil].
Qed.

(** [path.join] keeps a plain last part as the base name of the result. *)
Lemma basename_join_last outputDir init m :
  plain m -> basename (join (outputDir :: init ++ [m])) = m.
Proof.
  intros Hm.
  pose proof (resolve_join_last outputDir init m Hm) as R.
  rewrite resolve_join in R.
  unfold join.
  destruct (filter nonempty (outputDir :: init ++ [m])) as [|x l] eqn:E.
  - exfalso. rewrite app_comm_cons, filter_app in E.
    change (filter nonempty [m]) with (if nonempty m then [m] else []) in E.
    rewrite (plain_nonempty m Hm) in E.
    now destruct (filter nonempty (outputDir :: init)).
  - rewrite basename_normalize; rewrite R; cbn [snd].
    + apply last_last.
    + now destruct (snd (FS.resolve (String.concat "/" (filter nonempty (outputDir :: init))))).
Qed.

(* ===================================================================== *)
(** ** The file system                                                    *)
(* ===================================================================== *)

Lemma fspath_eqb_spec a b : reflect (a = b) (FS.fspath_eqb a b).
Proof.
  destruct a as [a1 a2], b as [b1 b2]. unfold FS.fspath_eqb. cbn [fst snd].
  destruct (Bool.eqb_spec a1 b1) as [->|N]; cbn [andb].
  - destruct (list_eq_dec string_dec a2 b2) as [->|N]; constructor; congruence.
  - constructor. congruence.
Qed.

Lemma update_same k n fs : FS.update k n fs k = Some n.
Proof. unfold FS.update. now destruct (fspath_eqb_spec k k). Qed.

Lemma update_other k n fs k' : k <> k' -> FS.update k n fs k' = fs k'.
Proof. intros N. unfold FS.update. now destruct (fspath_eqb_spec k k'). Qed.

Lemma inits_length l pre : In pre (FS.inits l) -> (List.length pre <= List.length l)%nat.
Proof.
  revert pre. induction l as [|x l IH]; intros pre; simpl.
  - intros [<-|[]]. reflexivity.
  - intros [<-|H]; [simpl; lia|].
    apply in_map_iff in H. destruct H as [pre' [<- H]].
    simpl. apply IH in H. lia.
Qed.

Lemma inits_self l : In l (FS.inits l).
Proof.
  induction l as [|x l IH]; simpl; [now left|].
  right. now apply in_map.
Qed.

Lemma mkdir_fold a pres : forall fs k,
  fold_left (fun fs pre => FS.update (a, pre) FS.Dir fs) pres fs k
  = if existsb (fun pre => FS.fspath_eqb (a, pre) k) pres then Some FS.Dir else fs k.
Proof.
  induction pres as [|p pres IH]; intros fs k; simpl; [reflexivity|].
  rewrite IH. unfold FS.update.
  destruct (FS.fspath_eqb (a, p) k); simpl.
  - now destruct (existsb _ pres).
  - reflexivity.
Qed.

(** [mkdirSync] with [recursive] succeeds when no name on the way is a
    file; the directory exists afterwards, and only names on the way are
    touched. *)
Lemma mkdirSync_ok p fs :
  (forall pre, In pre (FS.inits (snd (FS.resolve p))) ->
     FS.is_file fs (fst (FS.resolve p), pre) = false) ->
  exists fs',
    FS.mkdirSync p fs = Ok fs'
    /\ FS.is_dir fs' (FS.resolve p) = true
    /\ (forall k, (List.length (snd (FS.resolve p)) < List.length (snd k))%nat ->
          fs' k = fs k)
    /\ (forall k, FS.is_file fs k = true -> FS.is_file fs' k = true).
Proof.
  intros H. unfold FS.mkdirSync.
  set (k := FS.resolve p) in *. clearbody k. cbv zeta.
  assert (E : existsb (fun pre => FS.is_file fs (fst k, pre)) (FS.inits (snd k)) = false).
  { apply not_true_is_false. intros T. apply existsb_exists in T.
    destruct T as [pre [Hin T]]. rewrite (H pre Hin) in T. discriminate. }
  assert (Hk : FS.is_file fs k = false).
  { specialize (H (snd k) (inits_self _)). now destruct k. }
  rewrite Hk, E. eexists. split; [reflexivity|]. split; [|split].
  - unfold FS.is_dir. rewrite mkdir_fold.
    replace (existsb _ _) with true; [reflexivity|].
    symmetry. apply existsb_exists. exists (snd k). split; [apply inits_self|].
    destruct k as [b l]. cbn [fst snd].
    now destruct (fspath_eqb_spec (b, l) (b, l)).
  - intros k' Hlen. rewrite mkdir_fold.
    replace (existsb _ _) with false; [reflexivity|].
    symmetry. apply not_true_is_false. intros T. apply existsb_exists in T.
    destruct T as [pre [Hin T]].
    destruct (fspath_eqb_spec (fst k, pre) k') as [<-|]; [|discriminate].
    apply inits_length in Hin. cbn [snd] in Hlen. lia.
  - intros k' Hf. unfold FS.is_file in *. rewrite mkdir_fold.
    destruct (existsb (fun pre => FS.fspath_eqb (fst k, pre) k')
                (FS.inits (snd k))) eqn:T; [|assumption].
    apply existsb_exists in T. destruct T as [pre [Hin T]].
    destruct (fspath_eqb_spec (fst k, pre) k') as [<-|]; [|discriminate].
    specialize (H pre Hin). unfold FS.is_file in H.
    destruct (fs (fst k, pre)) as [[|c]|]; discriminate.
Qed.

(** The key of a child of directory [K]. *)
Definition child (K : FS.fspath) (name : string) : FS.fspath :=
  (fst K, (snd K ++ [name])%list).

Lemma child_parent K name : FS.parent (child K name) = K.
Proof. destruct K. unfold FS.parent, child. cbn [fst snd]. now rewrite removelast_last. Qed.

Lemma child_neq K name : child K name <> K.
Proof.
  destruct K as [a l]. unfold child. cbn [fst snd]. intros [= E].
  apply (f_equal (@List.length string)) in E. rewrite length_app in E. simpl in E. lia.
Qed.

(** The files of the index are there, a directory [K] exists and none of
    its children is a directory: what the copies and the final write need,
    and what they keep. *)
Definition node_ready (files : list string) (K : FS.fspath) (fs : FS.t) : Prop :=
  FS.is_dir fs K = true
  /\ (forall name, fs (child K name) <> Some FS.Dir)
  /\ (forall file, In file files -> FS.is_file fs (FS.resolve file) = true).

Lemma child_not_dir fs K name :
  name <> ".." -> fs (child K name) <> Some FS.Dir ->
  FS.is_dir fs (child K name) = false.
Proof.
  intros Hn H. unfold FS.is_dir.
  destruct (fs (child K name)) as [[|c]|]; [congruence|reflexivity|].
  unfold child. cbn [snd]. rewrite forallb_app. cbn [forallb].
  apply String.eqb_neq in Hn. rewrite String.eqb_sym in Hn.
  now rewrite Hn, andb_false_r.
Qed.

Lemma node_ready_put_file files K fs name content :
  node_ready files K fs ->
  node_ready files K (FS.update (child K name) (FS.File content) fs).
Proof.
  intros [Hd [Hc Hf]]. split; [|split].
  - unfold FS.is_dir. rewrite update_other by apply child_neq. exact Hd.
  - intros name'. destruct (fspath_eqb_spec (child K name) (child K name')) as [<-|N].
    + rewrite update_same. discriminate.
    + rewrite update_other by assumption. apply Hc.
  - intros file Hin. unfold FS.is_file.
    destruct (fspath_eqb_spec (child K name) (FS.resolve file)) as [<-|N].
    + now rewrite update_same.
    + rewrite update_other by assumption. apply Hf, Hin.
Qed.

Lemma writeFileSync_child files K fs F name content :
  FS.resolve F = K -> plain name -> node_ready files K fs ->
  FS.writeFileSync (join [F; name]) content fs
  = Ok (FS.update (child K name) (FS.File content) fs).
Proof.
  intros <- Hn [Hd [Hc Hf]]. unfold FS.writeFileSync.
  rewrite (resolve_join_child F name Hn).
  fold (child (FS.resolve F) name).
  rewrite child_not_dir by (auto; now destruct Hn as [_ [_ [? _]]]).
  now rewrite child_parent, Hd.
Qed.

Lemma copyFileSync_child files K fs F file :
  FS.resolve F = K -> plain (basename file) -> In file files ->
  node_ready files K fs ->
  exists content,
    FS.copyFileSync file (join [F; basename file]) fs
    = Ok (FS.update (child K (basename file)) (FS.File content) fs).
Proof.
  intros <- Hn Hin [Hd [Hc Hf]]. unfold FS.copyFileSync.
  specialize (Hf file Hin). unfold FS.is_file in Hf.
  destruct (fs (FS.resolve file)) as [[|content]|]; try discriminate.
  exists content.
  rewrite (resolve_join_child F (basename file) Hn).
  fold (child (FS.resolve F) (basename file)).
  rewrite child_not_dir by (auto; now destruct Hn as [_ [_ [? _]]]).
  now rewrite child_parent, Hd.
Qed.

(* ===================================================================== *)
(** ** Objects and rows                                                   *)
(* ===================================================================== *)

Lemma get_set V (o : Obj.obj V) k v k' :
  Obj.get (Obj.set o k v) k' = if k =? k' then Some v else Obj.get o k'.
Proof.
  induction o as [|[k0 v0] o IH]; simpl.
  - destruct (String.eqb_spec k k'); reflexivity.
  - destruct (String.eqb_spec k0 k) as [->|Hk0]; simpl.
    + destruct (String.eqb_spec k k'); reflexivity.
    + rewrite IH. destruct (String.eqb_spec k0 k') as [->|Hk0'].
      * destruct (String.eqb_spec k k'); [congruence|reflexivity].
      * reflexivity.
Qed.

Lemma get_assignIf (b : bool) info k v k' :
  Obj.get (assignIf b k v info) k'
  = if b && (k =? k') then Some v else Obj.get info k'.
Proof. destruct b; simpl; [apply get_set|reflexivity]. Qed.

Lemma get_assignIf_other (b : bool) info k v k' :
  (k =? k') = false -> Obj.get (assignIf b k v info) k' = Obj.get info k'.
Proof. intros E. now rewrite get_assignIf, E, andb_false_r. Qed.

Lemma get_copyField_other record info k k' :
  (k =? k') = false -> Obj.get (copyField record k info) k' = Obj.get info k'.
Proof. apply get_assignIf_other. Qed.

Lemma get_copyGroup_other record info g subkeys k' :
  (g =? k') = false -> Obj.get (copyGroup record g subkeys info) k' = Obj.get info k'.
Proof. apply get_assignIf_other. Qed.

Lemma get_copyGroup_same record info g subkeys :
  Obj.get (copyGroup record g subkeys info) g
  = if forallb (fun sub => truthy (field record (g ++ "." ++ sub))) subkeys
    then Some (YMap (map (fun sub => (sub, field record (g ++ "." ++ sub))) subkeys))
    else Obj.get info g.
Proof.
  unfold copyGroup. now rewrite get_assignIf, String.eqb_refl, andb_true_r.
Qed.

Ltac peel :=
  repeat first
    [ rewrite get_copyGroup_other by reflexivity
    | rewrite get_copyField_other by reflexivity
    | rewrite get_assignIf_other by reflexivity ].

(** The three fields that [addFileMetadata] may assign. *)
Definition technical : list string := ["width"; "height"; "duration"].

(** Every value of the record is a string, except perhaps those of the
    technical fields: the shape of a row of the CSV file, before and after
    the extraction of metadata. *)
Definition csv_typed (record : CSVRow) : Prop :=
  forall k v, Obj.get record k = Some v ->
    (exists s, v = Str s) \/ In k technical.

(** The key is present on the row with a non-empty text. *)
Definition present_nonempty (record : CSVRow) (key : string) : bool :=
  match Obj.get record key with
  | Some (Str s) => negb (s =? "")
  | _ => false
  end.

Lemma csv_typed_set record k v :
  csv_typed record -> (exists s, v = Str s) \/ In k technical ->
  csv_typed (Obj.set record k v).
Proof.
  intros H Hv k' v'. rewrite get_set.
  destruct (String.eqb_spec k k') as [->|_].
  - intros [= <-]. exact Hv.
  - apply H.
Qed.

Lemma row_of_cells_csv_typed cells : csv_typed (row_of_cells cells).
Proof.
  unfold row_of_cells.
  assert (G : forall r, csv_typed r ->
            csv_typed (fold_left (fun r kv => Obj.set r (fst kv) (Str (snd kv))) cells r)).
  { induction cells as [|kv cells IH]; intros r Hr; simpl; [assumption|].
    apply IH. apply csv_typed_set; eauto. }
  apply G. intros k v. discriminate.
Qed.

Lemma truthy_present record k :
  csv_typed record -> ~ In k technical ->
  truthy (field record k) = present_nonempty record k.
Proof.
  intros H Hk. unfold field, present_nonempty.
  destruct (Obj.get record k) as [v|] eqn:E; [|reflexivity].
  destruct (H k v E) as [[s ->]|Hin]; [reflexivity|contradiction].
Qed.

(** [r] is a row of the CSV file that differs from [record] in technical
    fields at most. *)
Definition same_shape (record r : CSVRow) : Prop :=
  csv_typed r
  /\ (forall k, ~ In k technical -> Obj.get r k = Obj.get record k).

Lemma same_shape_refl record : csv_typed record -> same_shape record record.
Proof. split; auto. Qed.

Lemma same_shape_set record r k v :
  In k technical -> same_shape record r -> same_shape record (Obj.set r k v).
Proof.
  intros Hk [Hr Hsame]. split.
  - apply csv_typed_set; auto.
  - intros k' Hk'. rewrite get_set.
    destruct (String.eqb_spec k k') as [->|_]; [contradiction|auto].
Qed.

Lemma same_shape_assignWhen record r (b : bool) k v :
  In k technical -> same_shape record r -> same_shape record (assignWhen b k v r).
Proof. destruct b; simpl; [apply same_shape_set|auto]. Qed.

Ltac shape :=
  repeat match goal with
  | |- same_shape _ (assignWhen _ _ _ _) =>
      apply same_shape_assignWhen; [simpl; tauto|]
  | |- same_shape _ (if ?b then _ else _) => destruct b
  | |- same_shape _ (Obj.set _ _ _) => apply same_shape_set; [simpl; tauto|]
  | |- same_shape ?r ?r => apply same_shape_refl; assumption
  end.

(** [addFileMetadata] returns, leaves the file system as it is and answers
    with a row that is still a row of the CSV file. *)
Lemma addFileMetadata_csv_typed filePath record w :
  csv_typed record ->
  exists record' evs,
    addFileMetadata filePath record w
    = (Ok record', {| fs := fs w; log := (log w ++ evs)%list |})
    /\ same_shape record record'.
Proof.
  intros H. unfold addFileMetadata.
  assert (R : forall r, same_shape record r ->
            exists record' evs,
              ret r w = (Ok record', {| fs := fs w; log := (log w ++ evs)%list |})
              /\ same_shape record record').
  { intros r Hr. exists r, []. destruct w; simpl. rewrite app_nil_r. auto. }
  assert (W : forall msg,
            exists record' evs,
              (warn msg ;; ret record) w
              = (Ok record', {| fs := fs w; log := (log w ++ evs)%list |})
              /\ same_shape record record').
  { intros msg. exists record, [Warn msg]. split; [reflexivity|].
    now apply same_shape_refl. }
  destruct (existsb _ _).
  - destruct (sharp_metadata filePath) as [md|]; [|apply W].
    apply R. cbv zeta. shape.
  - destruct (existsb _ _); [|apply R; shape].
    destruct (ffprobe filePath) as [info|]; [|apply W].
    destruct info as [[[[|stream0 rest]|]]|]; apply R; shape.
Qed.

Lemma createInfo_behavior_ok record :
  csv_typed record ->
  truthy (field record "behavior") = true ->
  exists behavior, field record "behavior" = Str behavior.
Proof.
  intros H T. unfold field in *.
  destruct (Obj.get record "behavior") as [v|] eqn:E; [|discriminate].
  destruct (H _ _ E) as [[b ->]|Hin]; [eauto|].
  simpl in Hin. intuition discriminate.
Qed.

(* ===================================================================== *)
(** ** Numbers and their text                                             *)
(* ===================================================================== *)

(** *** The Number of a small integer *)









(** *** Decimal numerals *)








(** *** parseFloat of a numeral *)




(** *** The text of an integer *)





(** *** The text of any number *)





























(* ===================================================================== *)
(** ** The extraction of metadata                                         *)
(* ===================================================================== *)

(** [r''] is [r] after some calls of [addFileMetadata]. *)
Inductive extracts : CSVRow -> CSVRow -> Prop :=
| extracts_refl r : extracts r r
| extracts_step r file w r' r'' :
    fst (addFileMetadata file r w) = Ok r' ->
    extracts r' r'' ->
    extracts r r''.

Lemma extracts_snoc r r' file w r'' :
  extracts r r' -> fst (addFileMetadata file r' w) = Ok r'' -> extracts r r''.
Proof.
  induction 1 as [r|r f0 w0 r1 r2 H1 H2 IH]; intros H.
  - eapply extracts_step; [exact H|apply extracts_refl].
  - eapply extracts_step; [exact H1|]. now apply IH.
Qed.

Lemma field_set record k v k' :
  field (Obj.set record k v) k' = if k =? k' then v else field record k'.
Proof. unfold field. rewrite get_set. now destruct (k =? k'). Qed.

Lemma get_assignWhen (b : bool) record k v k' :
  Obj.get (assignWhen b k v record) k'
  = if b && (k =? k') then Some v else Obj.get record k'.
Proof. destruct b; simpl; [apply get_set|reflexivity]. Qed.







(** The entry that [createInfoYml] writes for a technical field holding [v]:
    [parseInt(v.toString())], and [parseFloat(v.toString())] for the
    duration. *)
Definition technicalEntry (k : string) (v : value) : yaml :=
  YScalar (Num ((if k =? "duration" then parseFloat else parseInt) (toString v))).


(** The technical fields of the document are those of the row that hold a
    truthy value. *)
Lemma createInfo_technical record info k :
  In k technical ->
  createInfo record = Ok info ->
  Obj.get info k
  = if truthy (field record k) then Some (technicalEntry k (field record k))
    else None.
Proof.
  intros Hk. unfold createInfo.
  destruct (behaviorField record _) as [info0|e] eqn:B; [|discriminate].
  assert (B0 : Obj.get info0 k = None).
  { unfold behaviorField in B.
    destruct (truthy (field record "behavior")).
    - destruct (field record "behavior"); try discriminate B.
      injection B as <-. rewrite get_set.
      destruct Hk as [<-|[<-|[<-|[]]]]; cbn [String.eqb Ascii.eqb Bool.eqb];
        peel; reflexivity.
    - injection B as <-.
      destruct Hk as [<-|[<-|[<-|[]]]]; peel; reflexivity. }
  intros [= <-]. unfold technicalEntry.
  destruct Hk as [<-|[<-|[<-|[]]]]; peel; rewrite get_assignIf; peel;
    rewrite B0; cbn [String.eqb Ascii.eqb Bool.eqb]; rewrite andb_true_r;
    reflexivity.
Qed.

(* ===================================================================== *)
(** ** Runs that return                                                   *)
(* ===================================================================== *)

(** [c] returns from [w], with a result and a file system that satisfy
    [Q]. *)
Definition returnsFS {A} (c : M A) (w : world) (Q : A -> FS.t -> Prop) : Prop :=
  exists a w', c w = (Ok a, w') /\ Q a (fs w').

Lemma returnsFS_ret A (a : A) w (Q : A -> FS.t -> Prop) :
  Q a (fs w) -> returnsFS (ret a) w Q.
Proof. intros H. exists a, w. auto. Qed.

Lemma returnsFS_bind A B (c : M A) (k : A -> M B) w (Q : B -> FS.t -> Prop) :
  returnsFS c w (fun a f => forall w1, fs w1 = f -> returnsFS (k a) w1 Q) ->
  returnsFS (bind c k) w Q.
Proof.
  intros [a [w1 [E H]]]. destruct (H w1 eq_refl) as [b [w2 [E2 H2]]].
  exists b, w2. unfold bind. rewrite E. auto.
Qed.

Lemma returnsFS_emit e w (Q : unit -> FS.t -> Prop) :
  Q tt (fs w) -> returnsFS (emit e) w Q.
Proof. intros H. eexists tt, _. split; [reflexivity|exact H]. Qed.

Lemma returnsFS_when_emit b e w (Q : unit -> FS.t -> Prop) :
  Q tt (fs w) -> returnsFS (when b (emit e)) w Q.
Proof. destruct b; [apply returnsFS_emit|apply returnsFS_ret]. Qed.

Lemma returnsFS_liftFS op w f (Q : unit -> FS.t -> Prop) :
  op (fs w) = Ok f -> Q tt f -> returnsFS (liftFS op) w Q.
Proof.
  intros E H. exists tt, {| fs := f; log := log w |}.
  unfold liftFS. rewrite E. auto.
Qed.

Lemma returnsFS_liftResult A (a : A) w (Q : A -> FS.t -> Prop) :
  Q a (fs w) -> returnsFS (liftResult (Ok a)) w Q.
Proof. intros H. exists a, w. auto. Qed.

Lemma returnsFS_forEach A S (l : list A) (body : A -> S -> M S)
  (I : S -> FS.t -> Prop) :
  (forall x s w, In x l -> I s (fs w) -> returnsFS (body x s) w I) ->
  forall s w, I s (fs w) -> returnsFS (forEach l body s) w I.
Proof.
  induction l as [|x l IH]; intros Hb s w Hi; simpl.
  - now apply returnsFS_ret.
  - apply returnsFS_bind.
    destruct (Hb x s w (or_introl eq_refl) Hi) as [s' [w' [E Hi']]].
    exists s', w'. split; [assumption|].
    intros w1 E1. apply IH; [|now rewrite E1].
    intros y t w2 Hy. apply Hb. now right.
Qed.

Lemma same_shape_trans r1 r2 r3 :
  same_shape r1 r2 -> same_shape r2 r3 -> same_shape r1 r3.
Proof.
  intros [_ H12] [H3 H23]. split; [assumption|].
  intros k Hk. now rewrite H23, H12.
Qed.

Lemma returnsFS_addFileMetadata record0 file record w :
  same_shape record0 record ->
  returnsFS (addFileMetadata file record) w
    (fun record' f =>
       f = fs w /\ same_shape record0 record'
       /\ fst (addFileMetadata file record w) = Ok record').
Proof.
  intros H.
  destruct (addFileMetadata_csv_typed file record w (proj1 H))
    as [record' [evs [E Hs]]].
  eexists _, _. split; [exact E|]. split; [reflexivity|]. split.
  - eapply same_shape_trans; eassumption.
  - now rewrite E.
Qed.

Lemma createInfo_ok record :
  csv_typed record -> exists info, createInfo record = Ok info.
Proof.
  intros H. unfold createInfo, behaviorField.
  destruct (truthy (field record "behavior")) eqn:T.
  - destruct (createInfo_behavior_ok record H T) as [b ->]. eauto.
  - eauto.
Qed.

(** The parts of the hierarchy as [processRecord] joins them, and the path
    of the directory of the row. *)
Definition rewrittenParts (hierarchy : string) : list string :=
  let parts := split "/" hierarchy in
  if startsWith (last parts "") "canvas"
  then set_last parts ("_" ++ last parts "")
  else parts.

Definition fullPathOf (outputDir hierarchy : string) : string :=
  join (outputDir :: rewrittenParts hierarchy).

Definition indexed (fileMap : option FileMap) : list string :=
  match fileMap with
  | Some fileMap => allFiles fileMap
  | None => []
  end.

(** What a run of [processRecord] needs from the file system: no name on
    the way to the directory of the row is a file, the directory has no
    subdirectory, and the indexed files are regular files with a plain base
    name. *)
Definition io_ready (outputDir hierarchy : string) (fileMap : option FileMap)
  (fs : FS.t) : Prop :=
  let K := FS.resolve (fullPathOf outputDir hierarchy) in
  (forall pre, In pre (FS.inits (snd K)) -> FS.is_file fs (fst K, pre) = false)
  /\ (forall name, fs (child K name) <> Some FS.Dir)
  /\ (forall file, In file (indexed fileMap) ->
        FS.is_file fs (FS.resolve file) = true /\ plain (basename file)).

Lemma plain_info_yml : plain "info.yml".
Proof. repeat split; discriminate. Qed.

Lemma returnsFS_weaken A (c : M A) w (Q1 Q2 : A -> FS.t -> Prop) :
  returnsFS c w Q1 -> (forall a f, Q1 a f -> Q2 a f) -> returnsFS c w Q2.
Proof. intros [a [w' [E H]]] HQ. exists a, w'. auto. Qed.

(** On a file system that is ready for it, [processRecord] returns: the
    directory of the row exists, and its [info.yml] holds the document of
    the row as the extraction of metadata left it. *)
Lemma processRecord_runs record outputDir inputDir fileMap hierarchy w :
  field record "hierarchy" = Str hierarchy ->
  csv_typed record ->
  io_ready outputDir hierarchy fileMap (fs w) ->
  returnsFS (processRecord record outputDir inputDir fileMap) w
    (fun _ f =>
       let K := FS.resolve (fullPathOf outputDir hierarchy) in
       FS.is_dir f K = true
       /\ exists record' info,
            same_shape record record'
            /\ extracts record record'
            /\ createInfo record' = Ok info
            /\ f (child K "info.yml") = Some (FS.File (dump info))).
Proof.
  intros Hh Hcsv [Hpre [Hsub Hidx]].
  set (K := FS.resolve (fullPathOf outputDir hierarchy)) in *.
  unfold processRecord. rewrite Hh.
  apply returnsFS_bind, returnsFS_ret. intros w1 E1. cbv beta zeta.
  fold (rewrittenParts hierarchy). fold (fullPathOf outputDir hierarchy).
  unfold warn.
  apply returnsFS_bind, returnsFS_when_emit. intros w2 E2.
  apply returnsFS_bind, returnsFS_when_emit. intros w3 E3.
  rewrite E1 in E2. rewrite E2 in E3. clear w1 w2 E1 E2.
  rewrite <- E3 in Hpre, Hsub, Hidx.
  destruct (mkdirSync_ok (fullPathOf outputDir hierarchy) (fs w3) Hpre)
    as [f1 [Emk [Hd [Hsame Hfile]]]].
  fold K in Hd, Hsame.
  assert (Hready : node_ready (indexed fileMap) K f1).
  { split; [exact Hd|]. split.
    - intros name. rewrite Hsame; [apply Hsub|].
      unfold child. cbn [snd]. rewrite length_app. simpl. lia.
    - intros file Hin. apply Hfile. now apply Hidx. }
  apply returnsFS_bind. eapply returnsFS_liftFS; [exact Emk|].
  intros w4 E4. rewrite <- E4 in Hready. clear Emk Hd Hsame Hfile.
  apply returnsFS_bind.
  apply (returnsFS_weaken _ _ _
           (fun record' f => (same_shape record record'
                              /\ extracts record record')
                             /\ node_ready (indexed fileMap) K f)).
  - assert (Ret : returnsFS (ret record) w4
                    (fun record' f => (same_shape record record'
                                       /\ extracts record record')
                                      /\ node_ready (indexed fileMap) K f))
      by (apply returnsFS_ret; split; [split|exact Hready];
          [now apply same_shape_refl|apply extracts_refl]).
    destruct fileMap as [fm|]; [|exact Ret].
    destruct (truthy_opt inputDir && startsWith (last (split "/" hierarchy) "") "canvas");
      [|exact Ret].
    unfold console_log, console_warn.
    apply returnsFS_bind, returnsFS_emit. intros w5 E5.
    apply returnsFS_bind, returnsFS_emit. intros w6 E6.
    apply returnsFS_bind, returnsFS_emit. intros w7 E7.
    apply returnsFS_bind, returnsFS_emit. intros w8 E8.
    rewrite E5 in E6. rewrite E6 in E7. rewrite E7 in E8.
    rewrite <- E8 in Hready. clear Ret.
    apply returnsFS_bind.
    apply (returnsFS_weaken _ _ _
             (fun record' f => (same_shape record record'
                                /\ extracts record record')
                               /\ node_ready (indexed (Some fm)) K f)).
    + apply (returnsFS_forEach _ _ _ _
               (fun record' f => (same_shape record record'
                                  /\ extracts record record')
                                 /\ node_ready (indexed (Some fm)) K f));
        [|split; [split|exact Hready];
          [now apply same_shape_refl|apply extracts_refl]].
      intros file r wx Hin [[Hr Hx] Hn].
      apply filter_In in Hin. destruct Hin as [Hin _].
      destruct (copyFileSync_child (indexed (Some fm)) K (fs wx)
                  (fullPathOf outputDir hierarchy) file eq_refl
                  (proj2 (Hidx file Hin)) Hin Hn) as [content Ecp].
      apply returnsFS_bind. eapply returnsFS_liftFS; [exact Ecp|].
      intros wy Ey.
      apply returnsFS_bind.
      apply (returnsFS_weaken _ _ _ _ _ (returnsFS_addFileMetadata record file r wy Hr)).
      intros r' f [Ef [Hr' Hstep]] wz Ez.
      apply returnsFS_bind, returnsFS_emit. intros wz' Ez'.
      apply returnsFS_ret. split;
        [split; [exact Hr'|exact (extracts_snoc _ _ _ _ _ Hx Hstep)]|].
      rewrite Ez', Ez, Ef, Ey. now apply node_ready_put_file.
    + intros r f [[Hr Hx] Hn] wx Ex.
      apply returnsFS_bind.
      apply (returnsFS_weaken _ _ _ (fun _ f' => f' = fs wx)).
      * destruct (_ =? _)%nat; now apply returnsFS_emit.
      * intros _ f' -> wy Ey. apply returnsFS_ret. rewrite Ey, Ex. auto.
  - intros record' f [[Hr Hx] Hn] w5 E5.
    destruct (createInfo_ok record' (proj1 Hr)) as [info Hinfo].
    apply returnsFS_bind. unfold createInfoYml. rewrite Hinfo.
    apply returnsFS_liftResult. intros w6 E6.
    rewrite <- E5, <- E6 in Hn.
    eapply returnsFS_liftFS;
      [apply (writeFileSync_child (indexed fileMap) K (fs w6)
                (fullPathOf outputDir hierarchy) "info.yml" (dump info) eq_refl
                plain_info_yml Hn)|].
    cbv zeta. fold K. split.
    + now apply (node_ready_put_file (indexed fileMap) K (fs w6)).
    + exists record', info. split; [exact Hr|]. split; [exact Hx|].
      split; [exact Hinfo|].
      apply update_same.
Qed.

(* ===================================================================== *)
(** ** The claims                                                         *)
(* ===================================================================== *)

(** C10. For a row whose hierarchy is a single segment, [processRecord]
    adds no warning of the nesting check to the diagnostics: neither the
    canvas warning nor the manifest warning, for any texts in them, nor any
    other call of [warn] with a message starting with [Warning: ].  This
    covers a single-segment canvas row. *)
Theorem C10_single_segment_no_nesting_warning
  record outputDir inputDir fileMap hierarchy w :
  field record "hierarchy" = Str hierarchy ->
  List.length (split "/" hierarchy) = 1%nat ->
  exists evs,
    log (snd (processRecord record outputDir inputDir fileMap w))
    = (log w ++ evs)%list
    /\ (forall e, In e evs -> nesting_warning e = false)
    /\ (forall l p, ~ In (Warn (canvasWarning l p)) evs)
    /\ (forall l p, ~ In (Warn (manifestWarning l p)) evs).
Proof.
  intros Hh Hlen.
  destruct (processRecord_log record outputDir inputDir fileMap hierarchy Hh w)
    as [evs [E F]].
  assert (N : nestingEvents hierarchy = []).
  { unfold nestingEvents, canvasViolation, manifestViolation.
    rewrite (single_segment_no_parent _ Hlen). simpl.
    now rewrite !andb_false_r. }
  rewrite N in E. simpl in E.
  exists evs. split; [assumption|].
  split; [now apply Forall_forall|].
  split; intros l p; apply quiet_not_in; auto.
Qed.

(** C5 (amended). The two textual tests are independent.  The manifest
    warning is added exactly when the terminal segment contains [manifest]
    and its non-empty parent segment contains [manifest], whether or not the
    terminal segment starts with [canvas]; the canvas warning is added
    exactly when the terminal segment starts with [canvas] and its non-empty
    parent segment does not contain [manifest]; and these are the only
    warnings of the nesting check. *)
Theorem C5_role_tests_independent
  record outputDir inputDir fileMap hierarchy w :
  field record "hierarchy" = Str hierarchy ->
  let l := terminalSegment hierarchy in
  let p := parentText hierarchy in
  exists evs,
    log (snd (processRecord record outputDir inputDir fileMap w))
    = (log w ++ evs)%list
    /\ (In (Warn (manifestWarning l p)) evs <->
        includes l "manifest" = true
        /\ truthy_opt (parentSegment hierarchy) = true
        /\ includes p "manifest" = true)
    /\ (In (Warn (canvasWarning l p)) evs <->
        startsWith l "canvas" = true
        /\ truthy_opt (parentSegment hierarchy) = true
        /\ includes p "manifest" = false)
    /\ (forall e, In e evs -> nesting_warning e = true ->
        e = Warn (canvasWarning l p) \/ e = Warn (manifestWarning l p)).
Proof.
  intros Hh l p.
  destruct (processRecord_log record outputDir inputDir fileMap hierarchy Hh w)
    as [evs [E F]].
  exists (nestingEvents hierarchy ++ evs)%list. split; [assumption|].
  assert (Q : forall e, nesting_warning e = true ->
                In e (nestingEvents hierarchy ++ evs)%list ->
                In e (nestingEvents hierarchy)).
  { intros e He Hin. apply in_app_or in Hin. destruct Hin as [Hin|Hin]; [assumption|].
    exfalso. revert Hin. now apply quiet_not_in. }
  assert (CV : canvasViolation hierarchy = true <->
               startsWith l "canvas" = true
               /\ truthy_opt (parentSegment hierarchy) = true
               /\ includes p "manifest" = false).
  { unfold canvasViolation. fold l p.
    rewrite !andb_true_iff, negb_true_iff. tauto. }
  assert (MV : manifestViolation hierarchy = true <->
               includes l "manifest" = true
               /\ truthy_opt (parentSegment hierarchy) = true
               /\ includes p "manifest" = true).
  { unfold manifestViolation. fold l p.
    rewrite !andb_true_iff. tauto. }
  rewrite <- CV, <- MV.
  unfold nestingEvents in *. fold l p in Q |- *.
  split; [|split].
  - split.
    + intros Hin. apply Q in Hin; [|reflexivity]. revert Hin.
      destruct (canvasViolation hierarchy), (manifestViolation hierarchy);
        cbn [app In]; intros Hin; try tauto;
        destruct Hin as [Hin|Hin]; try tauto;
        exfalso; apply (canvasWarning_not_manifestWarning l p l p); congruence.
    + intros Hm. rewrite Hm. apply in_or_app. left.
      apply in_or_app. right. now left.
  - split.
    + intros Hin. apply Q in Hin; [|reflexivity]. revert Hin.
      destruct (canvasViolation hierarchy), (manifestViolation hierarchy);
        cbn [app In]; intros Hin; try tauto;
        destruct Hin as [Hin|Hin]; try tauto;
        exfalso; apply (canvasWarning_not_manifestWarning l p l p); congruence.
    + intros Hc. rewrite Hc. apply in_or_app. left. now left.
  - intros e Hin He. apply Q in Hin; [|assumption]. revert Hin.
    destruct (canvasViolation hierarchy), (manifestViolation hierarchy);
      cbn [app In]; intuition auto.
Qed.

(** The compound groups of the specification with their required
    sub-keys. *)
Definition compoundGroups : list (string * list string) :=
  [ ("provider", ["id"; "type"; "label"]);
    ("homepage", ["id"; "type"; "label"]);
    ("seeAlso", ["id"; "type"; "label"]);
    ("rendering", ["id"; "type"; "label"]);
    ("start", ["id"; "type"; "label"]);
    ("supplementary", ["id"; "type"; "label"]);
    ("services", ["id"; "type"; "profile"]);
    ("requiredStatement", ["label"; "value"]) ].


(** C6. For a row of the CSV file, as [createInfoYml] receives it, the
    document is built, and each compound group is in it exactly when every
    required sub-key of the group is present and non-empty on the row: then
    the group holds the values of its sub-keys, and otherwise (a partial
    group) the document has no entry for the group at all. *)
Theorem C6_compound_groups record :
  csv_typed record ->
  exists info,
    createInfo record = Ok info
    /\ forall group subkeys, In (group, subkeys) compoundGroups ->
         Obj.get info group =
         if forallb (fun sub => present_nonempty record (group ++ "." ++ sub)) subkeys
         then Some (YMap (map (fun sub => (sub, field record (group ++ "." ++ sub))) subkeys))
         else None.
Proof.
  intros H. unfold createInfo.
  assert (B : exists info0,
            behaviorField record
              (copyField record "attribution"
                 (copyField record "description"
                    (copyField record "label" [])))
            = Ok info0
            /\ forall group subkeys, In (group, subkeys) compoundGroups ->
                 Obj.get info0 group = None).
  { unfold behaviorField.
    destruct (truthy (field record "behavior")) eqn:T.
    - destruct (createInfo_behavior_ok record H T) as [b ->].
      eexists. split; [reflexivity|].
      intros group subkeys Hin. simpl in Hin.
      repeat (destruct Hin as [Hin|Hin]; [injection Hin as <- <-|]);
        try contradiction;
        rewrite get_set; cbn [String.eqb Ascii.eqb Bool.eqb];
        rewrite !get_copyField_other by reflexivity; reflexivity.
    - eexists. split; [reflexivity|].
      intros group subkeys Hin. simpl in Hin.
      repeat (destruct Hin as [Hin|Hin]; [injection Hin as <- <-|]);
        try contradiction;
        rewrite !get_copyField_other by reflexivity; reflexivity. }
  destruct B as [info0 [-> B]].
  eexists. split; [reflexivity|].
  intros group subkeys Hin.
  specialize (B group subkeys Hin).
  simpl in Hin.
  repeat (destruct Hin as [Hin|Hin]; [injection Hin as <- <-|]);
    try contradiction;
    peel; rewrite get_copyGroup_same; peel;
    rewrite B;
    cbn [forallb];
    rewrite !(truthy_present record)
      by (try assumption; cbn [technical In]; intros [E|[E|[E|[]]]]; discriminate E);
    reflexivity.
Qed.

(** The flattened index after a scan holds the scanned paths, whatever
    their directories: nothing is lost and nothing is added. *)
Lemma allFiles_set_new (fileMap : FileMap) dirName :
  Obj.get fileMap dirName = None ->
  allFiles (Obj.set fileMap dirName []) = allFiles fileMap.
Proof.
  unfold allFiles.
  induction fileMap as [|[d b] fm IH]; simpl; [reflexivity|].
  destruct (String.eqb_spec d dirName); [discriminate|].
  intros G. simpl. now rewrite IH.
Qed.

Lemma allFiles_push (fileMap : FileMap) dirName bucket x :
  Obj.get fileMap dirName = Some bucket ->
  Permutation (allFiles (Obj.set fileMap dirName (bucket ++ [x])%list))
              (allFiles fileMap ++ [x])%list.
Proof.
  unfold allFiles.
  induction fileMap as [|[d b] fm IH]; simpl; [discriminate|].
  destruct (String.eqb_spec d dirName) as [->|Hd].
  - intros [= ->]. simpl.
    rewrite <- !app_assoc. apply Permutation_app_head.
    apply Permutation_app_comm.
  - intros G. simpl. rewrite <- app_assoc.
    apply Permutation_app_head. now apply IH.
Qed.

Lemma scanInputDirectory_files normaliseFilePath entries (fileMap : FileMap) :
  Permutation (allFiles (scanInputDirectory normaliseFilePath entries fileMap))
              (allFiles fileMap ++ map normaliseFilePath entries)%list.
Proof.
  unfold scanInputDirectory.
  revert fileMap. induction entries as [|entry entries IH]; intros fileMap; simpl.
  - now rewrite app_nil_r.
  - rewrite IH.
    replace (allFiles fileMap ++ normaliseFilePath entry :: map normaliseFilePath entries)%list
      with ((allFiles fileMap ++ [normaliseFilePath entry])
              ++ map normaliseFilePath entries)%list
      by (now rewrite <- app_assoc).
    apply Permutation_app_tail.
    set (dirName := dirname (normaliseFilePath entry)).
    destruct (Obj.get fileMap dirName) as [bucket|] eqn:G.
    + rewrite G. now apply allFiles_push.
    + rewrite get_set, String.eqb_refl.
      rewrite (allFiles_push (Obj.set fileMap dirName []) dirName []).
      * now rewrite allFiles_set_new.
      * now rewrite get_set, String.eqb_refl.
Qed.

Lemma dropWhile_canvasClass_digits d :
  forallb_str is_digit d = true -> dropWhile canvasClass d = d.
Proof.
  destruct d as [|c d]; [reflexivity|]. simpl. intros H.
  apply andb_true_iff in H. destruct H as [Hc _].
  now rewrite (digit_not_canvasClass c Hc).
Qed.

(** C2 (amended). From the rewritten terminal segment of a canvas row the
    leading run of characters among [_], [c], [a], [n], [v], [s] is
    removed, and [parseInt] reads what is left.  For a terminal segment
    [canvas] followed by digits only, the index is the integer these digits
    denote.  For a terminal segment without digits the index is NaN and no
    file is matched. *)
Theorem C2_canvas_index seg :
  startsWith seg "canvas" = true ->
  canvasIndexOf ("_" ++ seg) = parseInt (dropWhile canvasClass seg)
  /\ (forall d, seg = "canvas" ++ d -> d <> "" -> forallb_str is_digit d = true ->
        canvasIndexOf ("_" ++ seg) = number_of_Z (digitsValue 0 d) false)
  /\ (no_digit seg = true ->
        canvasIndexOf ("_" ++ seg) = NaN
        /\ forall isAudio file,
             fileMatches isAudio (canvasIndexOf ("_" ++ seg)) file = false).
Proof.
  intros _. change ("_" ++ seg) with (String "_" seg).
  rewrite canvasIndexOf_rewritten.
  split; [reflexivity|]. split.
  - intros d -> Hne Hd.
    change (dropWhile canvasClass ("canvas" ++ d)) with (dropWhile canvasClass d).
    rewrite dropWhile_canvasClass_digits by assumption.
    now apply parseInt_digits.
  - intros Hn.
    assert (E : parseInt (dropWhile canvasClass seg) = NaN)
      by (apply parseInt_no_digit, no_digit_dropWhile, Hn).
    rewrite E. split; [reflexivity|].
    intros isAudio file. apply fileMatches_NaN.
Qed.

(** Stripping the reserved marker from a directory name. *)
Definition stripMarker (name : string) : string :=
  match name with
  | String c rest => if Ascii.eqb c "_" then rest else name
  | EmptyString => name
  end.

Lemma fullPathOf_canvas outputDir hierarchy :
  startsWith (terminalSegment hierarchy) "canvas" = true ->
  fullPathOf outputDir hierarchy
  = join (outputDir :: removelast (split "/" hierarchy)
                         ++ ["_" ++ terminalSegment hierarchy]).
Proof.
  intros H. unfold fullPathOf, rewrittenParts. cbv zeta.
  fold (terminalSegment hierarchy). now rewrite H.
Qed.

(** C7. For a hierarchy whose terminal segment starts with [canvas], the
    directory that [processRecord] creates has the terminal segment with the
    marker [_] in front as its name, both as the base name of the joined
    path and as the last name of the resolved directory; stripping the
    marker from that name gives the terminal segment back, character for
    character.  On a file system that is ready, the run returns and that
    directory exists. *)
Theorem C7_canvas_marker_round_trip
  record outputDir inputDir fileMap hierarchy w :
  field record "hierarchy" = Str hierarchy ->
  csv_typed record ->
  io_ready outputDir hierarchy fileMap (fs w) ->
  startsWith (terminalSegment hierarchy) "canvas" = true ->
  let fullPath := fullPathOf outputDir hierarchy in
  basename fullPath = "_" ++ terminalSegment hierarchy
  /\ last (snd (FS.resolve fullPath)) "" = "_" ++ terminalSegment hierarchy
  /\ stripMarker (basename fullPath) = terminalSegment hierarchy
  /\ exists w',
       processRecord record outputDir inputDir fileMap w = (Ok tt, w')
       /\ FS.is_dir (fs w') (FS.resolve fullPath) = true.
Proof.
  intros Hh Hcsv Hio Hc fullPath.
  assert (Hp : plain ("_" ++ terminalSegment hierarchy))
    by apply rewritten_plain, last_noslash.
  assert (B : basename fullPath = "_" ++ terminalSegment hierarchy).
  { unfold fullPath. rewrite fullPathOf_canvas by assumption.
    now apply basename_join_last. }
  split; [exact B|]. split; [|split].
  - unfold fullPath. rewrite fullPathOf_canvas by assumption.
    rewrite resolve_join_last by assumption. cbn [snd]. apply last_last.
  - rewrite B. reflexivity.
  - destruct (processRecord_runs record outputDir inputDir fileMap hierarchy w
                Hh Hcsv Hio) as [[] [w' [E [Hd _]]]].
    exists w'. auto.
Qed.

(** C8 (amended). A row that violates a nesting rule with a non-empty
    parent segment (a canvas whose parent segment does not contain
    [manifest], a manifest whose parent segment contains [manifest]) is
    processed to the end: the warning is in the diagnostics, and on a file
    system that is ready the run returns, the directory of the row exists
    and its [info.yml] holds the document of the row. *)
Theorem C8_nesting_violation_is_not_fatal
  record outputDir inputDir fileMap hierarchy w :
  field record "hierarchy" = Str hierarchy ->
  csv_typed record ->
  io_ready outputDir hierarchy fileMap (fs w) ->
  canvasViolation hierarchy = true \/ manifestViolation hierarchy = true ->
  let fullPath := fullPathOf outputDir hierarchy in
  let l := terminalSegment hierarchy in
  let p := parentText hierarchy in
  exists w' evs,
    processRecord record outputDir inputDir fileMap w = (Ok tt, w')
    /\ log w' = (log w ++ evs)%list
    /\ (canvasViolation hierarchy = true -> In (Warn (canvasWarning l p)) evs)
    /\ (manifestViolation hierarchy = true -> In (Warn (manifestWarning l p)) evs)
    /\ FS.is_dir (fs w') (FS.resolve fullPath) = true
    /\ exists record' info,
         same_shape record record'
         /\ createInfo record' = Ok info
         /\ fs w' (FS.resolve (join [fullPath; "info.yml"]))
            = Some (FS.File (dump info)).
Proof.
  intros Hh Hcsv Hio Hv fullPath l p.
  destruct (processRecord_runs record outputDir inputDir fileMap hierarchy w
              Hh Hcsv Hio) as [[] [w' [E [Hd Hinfo]]]].
  destruct (processRecord_log record outputDir inputDir fileMap hierarchy Hh w)
    as [evs [El _]].
  rewrite E in El. cbn [snd] in El.
  exists w', (nestingEvents hierarchy ++ evs)%list.
  split; [exact E|]. split; [exact El|].
  split; [|split; [|split]].
  - intros Hc. apply in_or_app. left. unfold nestingEvents. rewrite Hc.
    now left.
  - intros Hm. apply in_or_app. left. unfold nestingEvents. rewrite Hm.
    apply in_or_app. right. now left.
  - exact Hd.
  - unfold fullPath. rewrite (resolve_join_child _ "info.yml" plain_info_yml).
    destruct Hinfo as [record' [info [Hs [_ [Hc Hf]]]]].
    exists record', info. split; [exact Hs|]. split; [exact Hc|exact Hf].
Qed.


Lemma image_ext_cases ext :
  existsb (String.eqb ext) [".jpg"; ".jpeg"] = true <->
  ext = ".jpg" \/ ext = ".jpeg".
Proof.
  cbn [existsb]. rewrite !orb_true_iff, !String.eqb_eq.
  split; [intros [H|[H|H]]; [now left|now right|discriminate]
         |intros [H|H]; [now left|right; now left]].
Qed.

(** C4. An image canvas with index [canvasIndex] matches a file exactly
    when the lowercased extension of the file is [.jpg] or [.jpeg] and its
    base name ends with an underscore, one or more digits and the
    extension, the digits denoting an integer equal to the index.  For
    index 1 a name ending in [_01.JPG] is matched, one ending in [_010.JPG]
    is not. *)
Theorem C4_image_matching :
  (forall canvasIndex file,
     fileMatches false canvasIndex file = true <->
     (toLowerCase (extname file) = ".jpg" \/ toLowerCase (extname file) = ".jpeg")
     /\ exists pre d,
          basename file = pre ++ "_" ++ d ++ extname file
          /\ digits_run d
          /\ strict_eq (number_of_Z (digitsValue 0 d) false) canvasIndex = true)
  /\ filter (fileMatches false (canvasIndexOf "_canvas1"))
       ["in/BHC001_AF_01.JPG"; "in/BHC001_AF_010.JPG"]
     = ["in/BHC001_AF_01.JPG"].
Proof.
  split; [|vm_compute; reflexivity].
  intros canvasIndex file. unfold fileMatches.
  set (name := toLowerCase (basename file)).
  destruct (existsb (String.eqb (toLowerCase (extname file))) [".jpg"; ".jpeg"])
    eqn:Eext.
  - apply image_ext_cases in Eext.
    split.
    + intros H. split; [assumption|].
      unfold exec in H.
      destruct (exec_from re_image 0 name) as [m|] eqn:E; [|discriminate].
      destruct (exec_from_some _ _ _ _ E) as [pre' [t [Hname Ht]]].
      apply image_here_some in Ht. destruct Ht as [_ [g [Hg Ht]]].
      destruct m as [i a g0]. cbn [group1] in Hg. subst g0.
      assert (Hne : extname file <> "")
        by (intros Z; rewrite Z in Eext; destruct Eext; discriminate).
      destruct (extname_some file Hne) as [stem [e0 [Hb [He0 Hnd]]]].
      destruct Ht as [e' [Et [[Hgne Hgd] [He'ne He']]]].
      assert (L : (pre' ++ "_" ++ g) ++ "." ++ e'
                  = toLowerCase stem ++ "." ++ toLowerCase e0).
      { rewrite str_app_assoc.
        change ("_" ++ g) with (String "_" g). cbn [append].
        change (String "_" (g ++ String "." e')) with ("_" ++ g ++ "." ++ e').
        rewrite <- Et, <- Hname. unfold name.
        rewrite Hb, He0, lower_app. reflexivity. }
      apply last_dot_unique in L; [|assumption|now rewrite lower_nodot].
      destruct L as [L _]. symmetry in L.
      apply lower_app_inv in L. destruct L as [p [r [-> [_ Hr]]]].
      destruct r as [|u r]; [discriminate|].
      cbn [toLowerCase append] in Hr. injection Hr as Hu Hr.
      apply lower_underscore_inv in Hu. subst u.
      apply lower_digits_inv in Hr; [|assumption]. subst r.
      exists p, g. split; [|split].
      * rewrite Hb. now rewrite str_app_assoc.
      * split; assumption.
      * now rewrite <- (parseInt_digits g Hgne Hgd).
    + intros [_ [pre [d [Hb [[Hne Hd] Heq]]]]].
      assert (Hat : imageAt ("_" ++ d ++ toLowerCase (extname file)) d).
      { destruct Eext as [->| ->].
        - exists "jpg". repeat split; try assumption; discriminate.
        - exists "jpeg". repeat split; try assumption; discriminate. }
      assert (Hname : name = toLowerCase pre
                             ++ ("_" ++ d ++ toLowerCase (extname file))).
      { unfold name. rewrite Hb, lower_app.
        change ("_" ++ d ++ extname file) with (String "_" (d ++ extname file)).
        cbn [toLowerCase]. rewrite lower_app, (lower_digits d Hd). reflexivity. }
      pose proof (image_here_ok _ d Hat) as Hok.
      assert (Hex : exec_from re_image 0 name <> None).
      { rewrite Hname. apply exec_from_complete. now rewrite Hok. }
      unfold exec.
      destruct (exec_from re_image 0 name) as [m|] eqn:E; [|contradiction].
      destruct (exec_from_some _ _ _ _ E) as [pre' [t' [Hname' Ht']]].
      apply image_here_some in Ht'. destruct Ht' as [_ [d' [Hg Ht']]].
      destruct m as [i a g]. cbn [group1] in Hg. subst g.
      assert (d' = d).
      { apply (imageAt_unique pre' t' d' (toLowerCase pre)
                 ("_" ++ d ++ toLowerCase (extname file)) d);
          [congruence|assumption..]. }
      subst d'. now rewrite (parseInt_digits d Hne Hd).
  - split; [discriminate|]. intros [E _].
    apply image_ext_cases in E. congruence.
Qed.




(* ===================================================================== *)
(** ** Beyond the claims: the index of the input directory                *)
(* ===================================================================== *)

Lemma keys_set V (o : Obj.obj V) k v :
  Obj.keys (Obj.set o k v)
  = match Obj.get o k with
    | Some _ => Obj.keys o
    | None => (Obj.keys o ++ [k])%list
    end.
Proof.
  induction o as [|[k0 v0] o IH]; simpl; [reflexivity|].
  destruct (String.eqb_spec k0 k) as [->|N]; simpl; [reflexivity|].
  rewrite IH. now destruct (Obj.get o k).
Qed.

Lemma get_None_keys V (o : Obj.obj V) k :
  Obj.get o k = None <-> ~ In k (Obj.keys o).
Proof.
  induction o as [|[k0 v0] o IH]; simpl.
  - split; [intros _ []|reflexivity].
  - destruct (String.eqb_spec k0 k) as [->|N].
    + split; [discriminate|]. intros H. exfalso. apply H. now left.
    + rewrite IH. split.
      * intros H [E|E]; [congruence|contradiction].
      * intros H E. apply H. now right.
Qed.

Lemma In_get V (o : Obj.obj V) k v :
  NoDup (Obj.keys o) -> In (k, v) o -> Obj.get o k = Some v.
Proof.
  induction o as [|[k0 v0] o IH]; simpl; [intros _ []|].
  intros Hnd [E|Hin].
  - injection E as -> ->. now rewrite String.eqb_refl.
  - inversion Hnd as [|? ? Hnotin Hnd']; subst.
    destruct (String.eqb_spec k0 k) as [->|N].
    + exfalso. apply Hnotin. change k with (fst (k, v)). now apply in_map.
    + now apply IH.
Qed.

Lemma get_In V (o : Obj.obj V) k v : Obj.get o k = Some v -> In (k, v) o.
Proof.
  induction o as [|[k0 v0] o IH]; simpl; [discriminate|].
  destruct (String.eqb_spec k0 k) as [->|N].
  - intros [= ->]. now left.
  - intros H. right. now apply IH.
Qed.

Lemma NoDup_keys_set V (o : Obj.obj V) k v :
  NoDup (Obj.keys o) -> NoDup (Obj.keys (Obj.set o k v)).
Proof.
  intros H. rewrite keys_set.
  destruct (Obj.get o k) eqn:G; [assumption|].
  apply get_None_keys in G.
  apply NoDup_app; [assumption|repeat constructor; intros []|].
  intros x Hx [<-|[]]. contradiction.
Qed.

(** One turn of the loop of [scanInputDirectory]. *)
Lemma scan_step_get (fileMap : FileMap) p dirName :
  let d := dirname p in
  let fileMap1 :=
    match Obj.get fileMap d with
    | Some _ => fileMap
    | None => Obj.set fileMap d []
    end in
  Obj.get
    (match Obj.get fileMap1 d with
     | Some bucket => Obj.set fileMap1 d (bucket ++ [p])%list
     | None => fileMap1
     end) dirName
  = if d =? dirName
    then Some (match Obj.get fileMap d with
               | Some bucket => bucket ++ [p]
               | None => [p]
               end)%list
    else Obj.get fileMap dirName.
Proof.
  cbv zeta. set (d := dirname p).
  destruct (Obj.get fileMap d) as [bucket|] eqn:G.
  - rewrite G, get_set. reflexivity.
  - rewrite get_set, String.eqb_refl, !get_set.
    destruct (String.eqb_spec d dirName); reflexivity.
Qed.

Lemma scan_step_NoDup (fileMap : FileMap) p :
  let d := dirname p in
  let fileMap1 :=
    match Obj.get fileMap d with
    | Some _ => fileMap
    | None => Obj.set fileMap d []
    end in
  NoDup (Obj.keys fileMap) ->
  NoDup (Obj.keys
           (match Obj.get fileMap1 d with
            | Some bucket => Obj.set fileMap1 d (bucket ++ [p])%list
            | None => fileMap1
            end)).
Proof.
  cbv zeta. intros H.
  destruct (Obj.get fileMap (dirname p)) as [bucket|] eqn:G.
  - rewrite G. now apply NoDup_keys_set.
  - rewrite get_set, String.eqb_refl. now repeat apply NoDup_keys_set.
Qed.

Lemma scan_get normaliseFilePath entries : forall (fileMap : FileMap) dirName,
  Obj.get (scanInputDirectory normaliseFilePath entries fileMap) dirName =
  let found :=
    filter (fun p => dirname p =? dirName) (map normaliseFilePath entries) in
  match Obj.get fileMap dirName, found with
  | None, [] => None
  | None, _ :: _ => Some found
  | Some bucket, _ => Some (bucket ++ found)%list
  end.
Proof.
  unfold scanInputDirectory.
  induction entries as [|entry entries IH]; intros fileMap dirName.
  - simpl. destruct (Obj.get fileMap dirName); [now rewrite app_nil_r|reflexivity].
  - cbn [fold_left map filter]. rewrite IH. cbv zeta.
    rewrite scan_step_get.
    set (p := normaliseFilePath entry).
    destruct (String.eqb_spec (dirname p) dirName) as [E|N].
    + rewrite E.
      destruct (Obj.get fileMap dirName) as [bucket|].
      * now rewrite <- app_assoc.
      * reflexivity.
    + reflexivity.
Qed.

Lemma scan_NoDup normaliseFilePath entries : forall (fileMap : FileMap),
  NoDup (Obj.keys fileMap) ->
  NoDup (Obj.keys (scanInputDirectory normaliseFilePath entries fileMap)).
Proof.
  unfold scanInputDirectory.
  induction entries as [|entry entries IH]; intros fileMap H; [exact H|].
  cbn [fold_left]. apply IH. now apply scan_step_NoDup.
Qed.

(** X1. After a scan, the bucket of a directory holds what was there
    before, followed by the normalised entries of that directory in the
    order of the scan; a directory without entries gets no bucket.  From
    the empty map, the bucket of a directory is the list of its normalised
    entries, and there is one exactly when that list is not empty. *)
Theorem X1_scanInputDirectory_lookup normaliseFilePath entries dirName :
  let found :=
    filter (fun p => dirname p =? dirName) (map normaliseFilePath entries) in
  (forall fileMap : FileMap,
     Obj.get (scanInputDirectory normaliseFilePath entries fileMap) dirName =
     match Obj.get fileMap dirName, found with
     | None, [] => None
     | None, _ :: _ => Some found
     | Some bucket, _ => Some (bucket ++ found)%list
     end)
  /\ (found <> [] ->
      Obj.get (scanInputDirectory normaliseFilePath entries []) dirName
      = Some found)
  /\ (found = [] ->
      Obj.get (scanInputDirectory normaliseFilePath entries []) dirName = None).
Proof.
  cbv zeta. split; [|split].
  - intros fileMap. apply scan_get.
  - intros Hne. rewrite scan_get. cbv zeta. cbn [Obj.get].
    destruct (filter _ _); [contradiction|reflexivity].
  - intros He. rewrite scan_get. cbv zeta. cbn [Obj.get]. now rewrite He.
Qed.

(** X2. The index that a scan builds from the empty map lists no directory
    twice, has no empty bucket, keeps in the bucket of a directory only
    paths of that directory, and holds every normalised entry exactly
    once. *)
Theorem X2_scanInputDirectory_index normaliseFilePath entries :
  let fileMap := scanInputDirectory normaliseFilePath entries [] in
  NoDup (Obj.keys fileMap)
  /\ (forall dirName bucket, In (dirName, bucket) fileMap ->
        bucket <> [] /\ forall p, In p bucket -> dirname p = dirName)
  /\ Permutation (allFiles fileMap) (map normaliseFilePath entries).
Proof.
  cbv zeta.
  assert (Hnd : NoDup (Obj.keys (scanInputDirectory normaliseFilePath entries [])))
    by (apply scan_NoDup; constructor).
  split; [exact Hnd|]. split.
  - intros dirName bucket Hin.
    pose proof (In_get _ _ _ _ Hnd Hin) as G.
    rewrite scan_get in G. cbv zeta in G. cbn [Obj.get] in G.
    destruct (filter _ _) as [|p0 found] eqn:F; [discriminate|].
    injection G as <-. split; [discriminate|].
    intros p Hp. rewrite <- F in Hp. apply filter_In in Hp.
    destruct Hp as [_ Hp]. now apply String.eqb_eq in Hp.
  - apply (scanInputDirectory_files normaliseFilePath entries []).
Qed.

(* ===================================================================== *)
(** ** Beyond the claims: the extraction of metadata                      *)
(* ===================================================================== *)

(** The two lists of extensions of [addFileMetadata]. *)
Definition isImage (filePath : string) : bool :=
  existsb (String.eqb (toLowerCase (extname filePath)))
    [".jpg"; ".jpeg"; ".png"; ".tiff"; ".tif"].

Definition isMedia (filePath : string) : bool :=
  existsb (String.eqb (toLowerCase (extname filePath)))
    [".mp3"; ".mp4"; ".wav"; ".m4a"].

(** The row that [addFileMetadata] answers with. *)
Definition rowAfter (filePath : string) (record : CSVRow) : CSVRow :=
  if isImage filePath then
    match sharp_metadata filePath with
    | Some metadata =>
        let record :=
          assignWhen (negb (truthy (field record "width"))) "width"
            (of_option (md_width metadata)) record in
        assignWhen (negb (truthy (field record "height"))) "height"
          (of_option (md_height metadata)) record
    | None => record
    end
  else if isMedia filePath then
    match ffprobe filePath with
    | Some (Some {| streams := Some (stream0 :: _) |}) =>
        assignWhen (negb (truthy (field record "duration"))) "duration"
          (Num (ToNumber (duration stream0))) record
    | _ => record
    end
  else record.

Lemma addFileMetadata_row filePath record w :
  fst (addFileMetadata filePath record w) = Ok (rowAfter filePath record).
Proof.
  unfold addFileMetadata, rowAfter, isImage, isMedia.
  destruct (existsb _ [".jpg"; ".jpeg"; ".png"; ".tiff"; ".tif"]).
  - destruct (sharp_metadata filePath); reflexivity.
  - destruct (existsb _ [".mp3"; ".mp4"; ".wav"; ".m4a"]); [|reflexivity].
    destruct (ffprobe filePath) as [[[[[|stream0 rest]|]]|]|]; reflexivity.
Qed.

Lemma set_same V (o : Obj.obj V) k v : Obj.get o k = Some v -> Obj.set o k v = o.
Proof.
  induction o as [|[k0 v0] o IH]; simpl; [discriminate|].
  destruct (String.eqb_spec k0 k) as [->|N].
  - now intros [= ->].
  - intros H. now rewrite IH.
Qed.

(** An assignment under [if (!record[k])], once more with the same value. *)
Lemma assignWhen_again record r k v :
  Obj.get r k = Obj.get (assignWhen (negb (truthy (field record k))) k v record) k ->
  assignWhen (negb (truthy (field r k))) k v r = r.
Proof.
  intros E. unfold assignWhen at 1.
  destruct (truthy (field r k)) eqn:T; [reflexivity|]. cbn [negb].
  apply set_same. rewrite E, get_assignWhen, String.eqb_refl, andb_true_r.
  destruct (truthy (field record k)) eqn:T0; [|reflexivity].
  exfalso.
  assert (Er : Obj.get r k = Obj.get record k) by (rewrite E; reflexivity).
  unfold field in T, T0. rewrite Er in T. congruence.
Qed.

(** X3. [addFileMetadata] never throws and never touches the file system.
    It logs one warning that names the file when the probe of an image or
    of a media file throws, and then gives the row back as it was; in every
    other case it logs nothing, and a file that is neither an image nor a
    media file leaves the row as it was as well. *)
Theorem X3_addFileMetadata_swallows_probe_failures filePath record w :
  exists record' evs,
    addFileMetadata filePath record w
    = (Ok record', {| fs := fs w; log := (log w ++ evs)%list |})
    /\ (isImage filePath = true -> sharp_metadata filePath = None ->
        record' = record
        /\ evs = [Warn ("Could not extract dimensions from image: " ++ filePath)])
    /\ (isImage filePath = false -> isMedia filePath = true ->
        ffprobe filePath = None ->
        record' = record
        /\ evs = [Warn ("Could not extract duration from media file: " ++ filePath)])
    /\ (isImage filePath = true -> sharp_metadata filePath <> None -> evs = [])
    /\ (isImage filePath = false -> isMedia filePath = true ->
        ffprobe filePath <> None -> evs = [])
    /\ (isImage filePath = false -> isMedia filePath = false ->
        record' = record /\ evs = []).
Proof.
  unfold addFileMetadata, isImage, isMedia.
  assert (R : forall r : CSVRow,
            ret r w = (Ok r, {| fs := fs w; log := (log w ++ [])%list |}))
    by (intros r; destruct w; simpl; now rewrite app_nil_r).
  destruct (existsb _ [".jpg"; ".jpeg"; ".png"; ".tiff"; ".tif"]).
  - destruct (sharp_metadata filePath) as [md|].
    + eexists _, []. split; [apply R|].
      repeat split; try discriminate; congruence.
    + eexists record, [_]. split; [reflexivity|].
      repeat split; try discriminate; congruence.
  - destruct (existsb _ [".mp3"; ".mp4"; ".wav"; ".m4a"]).
    + destruct (ffprobe filePath) as [info|].
      * assert (E : exists record',
                  match info with
                  | Some {| streams := Some (stream0 :: _) |} =>
                      ret (assignWhen (negb (truthy (field record "duration")))
                             "duration" (Num (ToNumber (duration stream0))) record)
                  | _ => ret record
                  end w
                  = (Ok record', {| fs := fs w; log := (log w ++ [])%list |})).
        { destruct info as [[[[|stream0 rest]|]]|]; eexists; apply R. }
        destruct E as [record' E]. exists record', []. split; [exact E|].
        repeat split; try discriminate; congruence.
      * eexists record, [_]. split; [reflexivity|].
        repeat split; try discriminate; congruence.
    + exists record, []. split; [apply R|].
      repeat split; try discriminate; congruence.
Qed.

(** X4. Extracting the metadata of the same file a second time changes
    nothing: the row after the first extraction is a fixed point. *)
Theorem X4_addFileMetadata_idempotent filePath record w :
  exists record',
    fst (addFileMetadata filePath record w) = Ok record'
    /\ forall w', fst (addFileMetadata filePath record' w') = Ok record'.
Proof.
  exists (rowAfter filePath record). split; [apply addFileMetadata_row|].
  intros w'. rewrite addFileMetadata_row. f_equal.
  unfold rowAfter.
  destruct (isImage filePath).
  - destruct (sharp_metadata filePath) as [md|]; [|reflexivity]. cbv zeta.
    set (r0 := assignWhen (negb (truthy (field record "width"))) "width"
                 (of_option (md_width md)) record).
    set (r1 := assignWhen (negb (truthy (field r0 "height"))) "height"
                 (of_option (md_height md)) r0).
    assert (E : assignWhen (negb (truthy (field r1 "width"))) "width"
                  (of_option (md_width md)) r1 = r1).
    { apply (assignWhen_again record). unfold r1.
      rewrite get_assignWhen. cbn [String.eqb Ascii.eqb Bool.eqb].
      now rewrite andb_false_r. }
    rewrite E. now apply (assignWhen_again r0).
  - destruct (isMedia filePath); [|reflexivity].
    destruct (ffprobe filePath) as [[[[[|stream0 rest]|]]|]|]; try reflexivity.
    now apply (assignWhen_again record).
Qed.

(** X5. The extraction changes no field of the row other than [width],
    [height] and [duration], removes no key and keeps the keys in their
    order; the probe of an image leaves [duration] alone, and the probe of a
    media file leaves [width] and [height] alone. *)
Theorem X5_addFileMetadata_frame filePath record w :
  exists record',
    fst (addFileMetadata filePath record w) = Ok record'
    /\ (forall k, ~ In k technical -> Obj.get record' k = Obj.get record k)
    /\ (exists added, Obj.keys record' = (Obj.keys record ++ added)%list
                      /\ incl added technical)
    /\ (isImage filePath = true ->
        Obj.get record' "duration" = Obj.get record "duration")
    /\ (isImage filePath = false ->
        Obj.get record' "width" = Obj.get record "width"
        /\ Obj.get record' "height" = Obj.get record "height").
Proof.
  exists (rowAfter filePath record). split; [apply addFileMetadata_row|].
  assert (K : forall (b : bool) k v r,
            In k technical ->
            exists added, Obj.keys (assignWhen b k v r) = (Obj.keys r ++ added)%list
                          /\ incl added technical).
  { intros b k v r Hk. destruct b; cbn [assignWhen].
    - rewrite keys_set. destruct (Obj.get r k).
      + exists []. split; [now rewrite app_nil_r|intros x []].
      + exists [k]. split; [reflexivity|]. intros x [<-|[]]. exact Hk.
    - exists []. split; [now rewrite app_nil_r|intros x []]. }
  assert (K0 : exists added, Obj.keys record = (Obj.keys record ++ added)%list
                             /\ incl added technical)
    by (exists []; split; [now rewrite app_nil_r|intros x []]).
  unfold rowAfter.
  destruct (isImage filePath).
  - destruct (sharp_metadata filePath) as [md|].
    + cbv zeta. split; [|split; [|split]].
      * intros k Hk. rewrite !get_assignWhen.
        destruct (String.eqb_spec "height" k) as [<-|_];
          [exfalso; apply Hk; simpl; tauto|].
        destruct (String.eqb_spec "width" k) as [<-|_];
          [exfalso; apply Hk; simpl; tauto|].
        now rewrite !andb_false_r.
      * match goal with
        | |- context [assignWhen ?b "height" ?v ?r] =>
            destruct (K b "height" v r) as [a2 [E2 I2]]; [simpl; tauto|]
        end.
        match type of E2 with
        | context [assignWhen ?b "width" ?v ?r] =>
            destruct (K b "width" v r) as [a1 [E1 I1]]; [simpl; tauto|]
        end.
        exists (a1 ++ a2)%list. split.
        -- now rewrite E2, E1, app_assoc.
        -- now apply incl_app.
      * intros _. rewrite !get_assignWhen.
        cbn [String.eqb Ascii.eqb Bool.eqb]. now rewrite !andb_false_r.
      * discriminate.
    + repeat split; auto; discriminate.
  - destruct (isMedia filePath); [|repeat split; auto; discriminate].
    assert (G : forall b v,
              (forall k, ~ In k technical ->
                 Obj.get (assignWhen b "duration" v record) k = Obj.get record k)
              /\ Obj.get (assignWhen b "duration" v record) "width"
                 = Obj.get record "width"
              /\ Obj.get (assignWhen b "duration" v record) "height"
                 = Obj.get record "height").
    { intros b v. split; [|split].
      - intros k Hk. rewrite get_assignWhen.
        destruct (String.eqb_spec "duration" k) as [<-|_];
          [exfalso; apply Hk; simpl; tauto|].
        now rewrite andb_false_r.
      - rewrite get_assignWhen. cbn [String.eqb Ascii.eqb Bool.eqb].
        now rewrite andb_false_r.
      - rewrite get_assignWhen. cbn [String.eqb Ascii.eqb Bool.eqb].
        now rewrite andb_false_r. }
    destruct (ffprobe filePath) as [[[[[|stream0 rest]|]]|]|];
      try (repeat split; auto; discriminate).
    match goal with
    | |- context [assignWhen ?b "duration" ?v record] =>
        destruct (G b v) as [G1 [G2 G3]];
        destruct (K b "duration" v record) as [a [Ea Ia]]; [simpl; tauto|]
    end.
    split; [exact G1|]. split; [exists a; auto|].
    split; [discriminate|]. intros _. split; assumption.
Qed.

(* ===================================================================== *)
(** ** Beyond the claims: the metadata document                           *)
(* ===================================================================== *)

(** The fields that [createInfoYml] copies as they are. *)
Definition plainFields : list string :=
  ["label"; "description"; "attribution"; "viewingHint"; "viewingDirection";
   "navDate"; "summary"].

(** The keys of the document, in the order of the assignments of
    [createInfoYml]. *)
Definition documentOrder : list string :=
  ["label"; "description"; "attribution"; "behavior"; "width"; "height";
   "duration"; "viewingHint"; "viewingDirection"; "navDate"; "metadata";
   "requiredStatement"; "summary"; "provider"; "homepage"; "seeAlso";
   "rendering"; "start"; "supplementary"; "services"].

Definition has {V} (o : Obj.obj V) (k : string) : bool :=
  match Obj.get o k with
  | Some _ => true
  | None => false
  end.

(** What [behaviorField] does is one more conditional assignment, unless it
    throws. *)
Lemma behaviorField_assignIf record info info0 :
  behaviorField record info = Ok info0 ->
  exists (b : bool) v, info0 = assignIf b "behavior" v info.
Proof.
  unfold behaviorField.
  destruct (truthy (field record "behavior")).
  - destruct (field record "behavior"); try discriminate.
    intros [= <-]. now exists true; eexists.
  - intros [= <-]. exists false, (YSeq []). reflexivity.
Qed.

Lemma behaviorField_get_other record info info0 k :
  behaviorField record info = Ok info0 -> ("behavior" =? k) = false ->
  Obj.get info0 k = Obj.get info k.
Proof.
  intros H E. destruct (behaviorField_assignIf _ _ _ H) as [b [v ->]].
  now apply get_assignIf_other.
Qed.

(** An assignment to a key that is new keeps the keys in the order of the
    assignments. *)
Lemma ordered_assignIf (rprefix : list string) (info : Info) (b : bool) k v :
  Obj.keys info = filter (has info) (rev rprefix) ->
  ~ In k rprefix ->
  Obj.keys (assignIf b k v info)
  = filter (has (assignIf b k v info)) (rev (k :: rprefix)).
Proof.
  intros H Hk.
  assert (G : Obj.get info k = None).
  { apply get_None_keys. rewrite H. intros Hin. apply filter_In in Hin.
    apply Hk. now apply in_rev. }
  cbn [rev]. rewrite filter_app.
  assert (Hpre : filter (has (assignIf b k v info)) (rev rprefix)
                 = filter (has info) (rev rprefix)).
  { apply filter_ext_in. intros k' Hin. unfold has.
    rewrite get_assignIf.
    destruct (String.eqb_spec k k') as [<-|_].
    - exfalso. apply Hk. now apply in_rev.
    - now rewrite andb_false_r. }
  rewrite Hpre, <- H. cbn [filter]. unfold has at 1.
  rewrite get_assignIf, String.eqb_refl, andb_true_r.
  destruct b; cbn [assignIf].
  - rewrite keys_set, G. reflexivity.
  - rewrite G. now rewrite app_nil_r.
Qed.

Lemma startsWith_app p r : startsWith (p ++ r) p = true.
Proof.
  induction p as [|c p IH]; simpl; [now destruct r|].
  now rewrite Ascii.eqb_refl.
Qed.

Lemma startsWith_inv s p : startsWith s p = true -> exists r, s = p ++ r.
Proof.
  revert s. induction p as [|c p IH]; intros s; simpl.
  - intros _. now exists s.
  - destruct s as [|b s]; [discriminate|].
    intros H. apply andb_true_iff in H. destruct H as [Hc Hs].
    apply Ascii.eqb_eq in Hc. subst b.
    destruct (IH s Hs) as [r ->]. now exists r.
Qed.

Lemma substring_drop p r :
  String.substring (String.length p) (String.length (p ++ r) - String.length p)
    (p ++ r) = r.
Proof.
  induction p as [|c p IH]; simpl.
  - rewrite Nat.sub_0_r. induction r as [|c r IHr]; simpl; [reflexivity|].
    now rewrite IHr.
  - exact IH.
Qed.

Lemma replace_str_prefix p r : replace_str p "" (p ++ r) = r.
Proof.
  assert (E : replace_str p "" (p ++ r)
              = "" ++ String.substring (String.length p)
                        (String.length (p ++ r) - String.length p) (p ++ r)).
  { destruct (p ++ r) eqn:Es; cbn [replace_str]; rewrite <- Es;
      now rewrite startsWith_app. }
  rewrite E. apply substring_drop.
Qed.

(** Assignments to an object under any property name. *)
Lemma get_putIndex V n k (v : V) k' : forall o,
  Obj.get (Obj.putIndex n k v o) k' = if k =? k' then Some v else Obj.get o k'.
Proof.
  induction o as [|[k0 v0] o IH]; cbn [Obj.putIndex Obj.get]; [reflexivity|].
  destruct (String.eqb_spec k0 k) as [->|N].
  - cbn [Obj.get]. now destruct (k =? k').
  - destruct (Obj.arrayIndex k0) as [m|]; [|reflexivity].
    destruct (m <? n)%Z; [|reflexivity].
    cbn [Obj.get]. rewrite IH.
    destruct (String.eqb_spec k0 k') as [->|_]; [|reflexivity].
    destruct (String.eqb_spec k k'); [congruence|reflexivity].
Qed.

Lemma get_put V (o : Obj.obj V) k v k' :
  Obj.get (Obj.put o k v) k'
  = if k =? "__proto__" then Obj.get o k'
    else if k =? k' then Some v else Obj.get o k'.
Proof.
  unfold Obj.put. destruct (k =? "__proto__"); [reflexivity|].
  destruct (Obj.arrayIndex k); [apply get_putIndex|apply get_set].
Qed.

Lemma put_nonempty V (o : Obj.obj V) k v :
  (k =? "__proto__") = false ->
  (0 <? List.length (Obj.keys (Obj.put o k v)))%nat = true.
Proof.
  intros E.
  assert (G : Obj.get (Obj.put o k v) k = Some v)
    by (now rewrite get_put, E, String.eqb_refl).
  apply get_In in G. now destruct (Obj.put o k v).
Qed.

(** One turn of the loop that fills the metadata bag. *)
Definition bagStep (metadata : Obj.obj value) (kv : string * value)
  : Obj.obj value :=
  if startsWith (fst kv) "metadata." && truthy (snd kv)
  then Obj.put metadata (replace_str "metadata." "" (fst kv)) (snd kv)
  else metadata.

(** The entries of a row that become properties of the metadata bag. *)
Definition inBag (kv : string * value) : bool :=
  startsWith (fst kv) "metadata." && truthy (snd kv)
  && negb (fst kv =? "metadata.__proto__").

Lemma eqb_metadata_proto r :
  ("metadata." ++ r =? "metadata.__proto__") = (r =? "__proto__").
Proof.
  destruct (String.eqb_spec r "__proto__") as [->|N].
  - apply String.eqb_refl.
  - apply String.eqb_neq. intros E. apply N. now injection E.
Qed.

Lemma bag_get (record : CSVRow) name : forall metadata,
  NoDup (Obj.keys record) ->
  Obj.get (fold_left bagStep record metadata) name
  = if name =? "__proto__" then Obj.get metadata name
    else match Obj.get record ("metadata." ++ name) with
         | Some v => if truthy v then Some v else Obj.get metadata name
         | None => Obj.get metadata name
         end.
Proof.
  induction record as [|[k v] record IH]; intros metadata Hnd;
    [now destruct (name =? "__proto__")|].
  inversion Hnd as [|? ? Hnotin Hnd']; subst.
  cbn [fold_left]. rewrite (IH _ Hnd'). cbn [Obj.get].
  destruct (String.eqb_spec k ("metadata." ++ name)) as [->|N].
  - apply get_None_keys in Hnotin. rewrite Hnotin.
    unfold bagStep. cbn [fst snd].
    rewrite startsWith_app, replace_str_prefix. cbn [andb].
    destruct (name =? "__proto__") eqn:Ep.
    + destruct (truthy v); [|reflexivity]. now rewrite get_put, Ep.
    + destruct (truthy v); [|reflexivity].
      now rewrite get_put, Ep, String.eqb_refl.
  - assert (E : Obj.get (bagStep metadata (k, v)) name = Obj.get metadata name).
    { unfold bagStep. cbn [fst snd].
      destruct (startsWith k "metadata.") eqn:Hs; [|reflexivity].
      destruct (truthy v); [|reflexivity]. cbn [andb].
      apply startsWith_inv in Hs. destruct Hs as [r ->].
      rewrite replace_str_prefix, get_put.
      destruct (r =? "__proto__"); [reflexivity|].
      destruct (String.eqb_spec r name) as [->|_]; [contradiction|reflexivity]. }
    rewrite E. reflexivity.
Qed.

Lemma bag_empty (record : CSVRow) : forall metadata,
  (0 <? List.length (Obj.keys (fold_left bagStep record metadata)))%nat
  = (0 <? List.length (Obj.keys metadata))%nat || existsb inBag record.
Proof.
  induction record as [|[k v] record IH]; intros metadata.
  - cbn [fold_left existsb]. now rewrite orb_false_r.
  - cbn [fold_left existsb]. rewrite IH. unfold bagStep, inBag. cbn [fst snd].
    destruct (startsWith k "metadata.") eqn:Hs; [|reflexivity].
    destruct (truthy v); [|reflexivity]. cbn [andb].
    apply startsWith_inv in Hs. destruct Hs as [r ->].
    rewrite replace_str_prefix, eqb_metadata_proto.
    destruct (r =? "__proto__") eqn:Ep.
    + unfold Obj.put. now rewrite Ep.
    + rewrite (put_nonempty _ _ _ _ Ep). cbn [negb orb].
      now rewrite orb_true_r.
Qed.

(** The order of the properties of the bag. *)
Definition isIndex (k : string) : bool :=
  match Obj.arrayIndex k with
  | Some _ => true
  | None => false
  end.

(** Names that are array indices, in strictly ascending order of the
    indices, all above [lo]. *)
Fixpoint ascending (lo : Z) (ks : list string) : Prop :=
  match ks with
  | [] => True
  | k :: ks' =>
      match Obj.arrayIndex k with
      | Some n => (lo < n)%Z /\ ascending n ks'
      | None => False
      end
  end.

(** The names of the properties of the bag, in the order of the row. *)
Definition bagNames (record : CSVRow) : list string :=
  map (fun kv => replace_str "metadata." "" (fst kv)) (filter inBag record).

Lemma digit_val_nonneg c : is_digit c = true -> (0 <= digit_val c)%Z.
Proof.
  unfold is_digit, digit_val. intros H. apply andb_true_iff in H.
  destruct H as [H _]. apply N.leb_le in H. lia.
Qed.

Lemma digitsValue_nonneg d : forall acc,
  forallb_str is_digit d = true -> (0 <= acc)%Z -> (0 <= digitsValue acc d)%Z.
Proof.
  induction d as [|c d IH]; intros acc H Ha;
    cbn [digitsValue forallb_str] in *; [exact Ha|].
  apply andb_true_iff in H. destruct H as [Hc Hd].
  apply IH; [exact Hd|]. pose proof (digit_val_nonneg c Hc). lia.
Qed.

Lemma arrayIndex_nonneg k n : Obj.arrayIndex k = Some n -> (0 <= n)%Z.
Proof.
  unfold Obj.arrayIndex. destruct k as [|c r]; [discriminate|].
  destruct (forallb_str is_digit (String c r)) eqn:Hd; [|discriminate].
  cbn [andb]. destruct (negb (Ascii.eqb c "0") || (r =? "")); [|discriminate].
  rewrite (dec_prefix_digits _ 0 0 Hd). cbn [fst].
  destruct (_ <? _)%Z; [|discriminate]. intros [= <-].
  exact (digitsValue_nonneg (String c r) 0%Z Hd (Z.le_refl 0)).
Qed.

(** Different array indices are different integers. *)
Lemma digitsValue_shift d : forall acc,
  digitsValue acc d
  = (acc * 10 ^ Z.of_nat (String.length d) + digitsValue 0 d)%Z.
Proof.
  induction d as [|c d IH]; intros acc; cbn [digitsValue String.length].
  - simpl. lia.
  - rewrite IH, (IH (10 * 0 + digit_val c)%Z).
    rewrite Nat2Z.inj_succ, Z.pow_succ_r by lia. ring.
Qed.

Lemma digit_val_range c : is_digit c = true -> (0 <= digit_val c <= 9)%Z.
Proof.
  unfold is_digit, digit_val. intros H. apply andb_true_iff in H.
  destruct H as [H1 H2]. apply N.leb_le in H1, H2. lia.
Qed.

Lemma digitsValue_bound d :
  forallb_str is_digit d = true ->
  (0 <= digitsValue 0 d < 10 ^ Z.of_nat (String.length d))%Z.
Proof.
  induction d as [|c d IH]; cbn [forallb_str digitsValue String.length]; intros H.
  - simpl. lia.
  - apply andb_true_iff in H. destruct H as [Hc Hd].
    specialize (IH Hd). pose proof (digit_val_range c Hc).
    rewrite digitsValue_shift, Nat2Z.inj_succ, Z.pow_succ_r by lia.
    nia.
Qed.

Lemma digit_val_inj c d :
  is_digit c = true -> is_digit d = true -> digit_val c = digit_val d -> c = d.
Proof.
  unfold digit_val. intros _ _ H.
  assert (E : N_of_ascii c = N_of_ascii d) by (unfold code in H; lia).
  rewrite <- (ascii_N_embedding c), <- (ascii_N_embedding d). now rewrite E.
Qed.

(** Two strings of digits of the same length that denote the same integer
    are the same. *)
Lemma digits_same_length a : forall b,
  String.length a = String.length b ->
  forallb_str is_digit a = true -> forallb_str is_digit b = true ->
  digitsValue 0 a = digitsValue 0 b -> a = b.
Proof.
  induction a as [|c a IH]; intros [|d b] Hl Ha Hb Hv; try discriminate Hl;
    [reflexivity|].
  cbn [forallb_str digitsValue String.length] in *.
  apply andb_true_iff in Ha, Hb. destruct Ha as [Hc Ha], Hb as [Hd Hb].
  injection Hl as Hl.
  rewrite (digitsValue_shift a), (digitsValue_shift b), <- Hl in Hv.
  pose proof (digitsValue_bound a Ha) as Ba.
  pose proof (digitsValue_bound b Hb) as Bb. rewrite <- Hl in Bb.
  pose proof (digit_val_range c Hc). pose proof (digit_val_range d Hd).
  assert (Ed : digit_val c = digit_val d) by nia.
  assert (Ev : digitsValue 0 a = digitsValue 0 b) by nia.
  f_equal; [now apply digit_val_inj|now apply IH].
Qed.

Lemma arrayIndex_inj a b n :
  Obj.arrayIndex a = Some n -> Obj.arrayIndex b = Some n -> a = b.
Proof.
  assert (Canon : forall k m, Obj.arrayIndex k = Some m ->
            forallb_str is_digit k = true
            /\ digitsValue 0 k = m
            /\ (k = "0"
                \/ (10 ^ (Z.of_nat (String.length k) - 1) <= m)%Z
                   /\ (1 <= String.length k)%nat)).
  { intros k m. unfold Obj.arrayIndex. destruct k as [|c r]; [discriminate|].
    destruct (forallb_str is_digit (String c r)) eqn:Hd; [|discriminate].
    cbn [andb]. destruct (negb (Ascii.eqb c "0") || (r =? "")) eqn:Hz;
      [|discriminate].
    rewrite (dec_prefix_digits _ 0 0 Hd). cbn [fst].
    destruct (_ <? _)%Z; [|discriminate]. intros [= <-].
    split; [reflexivity|]. split; [reflexivity|].
    destruct (Ascii.eqb c "0") eqn:Ec.
    - left. cbn [negb orb] in Hz. apply String.eqb_eq in Hz. subst r.
      apply Ascii.eqb_eq in Ec. now subst c.
    - right. split; [|cbn [String.length]; lia].
      cbn [forallb_str] in Hd. apply andb_true_iff in Hd. destruct Hd as [Hc Hr].
      cbn [digitsValue String.length]. rewrite digitsValue_shift.
      pose proof (digitsValue_bound r Hr). pose proof (digit_val_range c Hc).
      assert (digit_val c <> 0)%Z.
      { intros E0. assert (c = "0"%char) by (apply digit_val_inj; auto).
        subst c. discriminate Ec. }
      replace (Z.of_nat (S (String.length r)) - 1)%Z
        with (Z.of_nat (String.length r)) by lia.
      assert (0 < 10 ^ Z.of_nat (String.length r))%Z
        by (apply Z.pow_pos_nonneg; lia).
      nia. }
  intros Ha Hb.
  destruct (Canon a n Ha) as [Da [Va Ca]], (Canon b n Hb) as [Db [Vb Cb]].
  pose proof (digitsValue_bound a Da) as Ba. rewrite Va in Ba.
  pose proof (digitsValue_bound b Db) as Bb. rewrite Vb in Bb.
  assert (Hlen : String.length a = String.length b).
  { destruct Ca as [->|[La Na]], Cb as [->|[Lb Nb]]; try reflexivity.
    - change (digitsValue 0 "0") with 0%Z in Va. subst n.
      assert (0 < 10 ^ (Z.of_nat (String.length b) - 1))%Z
        by (apply Z.pow_pos_nonneg; lia). lia.
    - change (digitsValue 0 "0") with 0%Z in Vb. subst n.
      assert (0 < 10 ^ (Z.of_nat (String.length a) - 1))%Z
        by (apply Z.pow_pos_nonneg; lia). lia.
    - destruct (Nat.lt_trichotomy (String.length a) (String.length b))
        as [Hlt|[E|Hgt]]; [exfalso|exact E|exfalso].
      + assert (10 ^ Z.of_nat (String.length a)
                <= 10 ^ (Z.of_nat (String.length b) - 1))%Z
          by (apply Z.pow_le_mono_r; lia). lia.
      + assert (10 ^ Z.of_nat (String.length b)
                <= 10 ^ (Z.of_nat (String.length a) - 1))%Z
          by (apply Z.pow_le_mono_r; lia). lia. }
  apply digits_same_length; congruence.
Qed.

(** A new array index goes to its place among the indices. *)
Lemma keys_putIndex V n k (v : V) : forall indices (o : Obj.obj V) lo named,
  Obj.arrayIndex k = Some n ->
  Obj.keys o = (indices ++ named)%list ->
  ascending lo indices ->
  Forall (fun x => isIndex x = false) named ->
  (lo < n)%Z ->
  ~ In k (Obj.keys o) ->
  exists indices',
    Obj.keys (Obj.putIndex n k v o) = (indices' ++ named)%list
    /\ ascending lo indices'
    /\ Permutation indices' (k :: indices).
Proof.
  induction indices as [|a indices IH];
    intros o lo named Hk Ho Hasc Hnamed Hlo Hnew.
  - exists [k]. cbn [app] in Ho.
    assert (A : ascending lo [k]) by (cbn [ascending]; rewrite Hk; auto).
    split; [|split; [exact A|apply Permutation_refl]].
    destruct o as [|[k0 v0] o]; cbn [Obj.putIndex].
    + cbn [Obj.keys map] in Ho. now rewrite <- Ho.
    + cbn [Obj.keys map fst] in Ho, Hnew.
      destruct (String.eqb_spec k0 k) as [->|N];
        [exfalso; apply Hnew; now left|].
      destruct named as [|x named]; [discriminate Ho|].
      injection Ho as -> Ho. inversion Hnamed as [|? ? Hx _]; subst.
      unfold isIndex in Hx. destruct (Obj.arrayIndex x); [discriminate|].
      reflexivity.
  - destruct o as [|[k0 v0] o]; [discriminate Ho|].
    cbn [Obj.keys map fst app] in Ho, Hnew. injection Ho as -> Ho.
    cbn [ascending] in Hasc.
    destruct (Obj.arrayIndex a) as [m|] eqn:Ea; [|contradiction].
    destruct Hasc as [Hm Hasc].
    cbn [Obj.putIndex].
    destruct (String.eqb_spec a k) as [->|N];
      [exfalso; apply Hnew; now left|].
    rewrite Ea. destruct (Z.ltb_spec m n) as [Hlt|Hge].
    + destruct (IH o m named Hk Ho Hasc Hnamed Hlt
                  (fun H => Hnew (or_intror H)))
        as [idx [Hkeys [Hidx Hperm]]].
      exists (a :: idx). split; [|split].
      * cbn [Obj.keys map fst app]. f_equal. exact Hkeys.
      * cbn [ascending]. rewrite Ea. auto.
      * apply perm_trans with (a :: k :: indices);
          [now apply perm_skip|apply perm_swap].
    + assert (Hnm : (n < m)%Z).
      { destruct (Z.eq_dec m n) as [E|]; [|lia]. exfalso. apply N.
        subst m. exact (arrayIndex_inj a k n Ea Hk). }
      exists (k :: a :: indices). split; [|split].
      * cbn [Obj.keys map fst app]. now rewrite Ho.
      * cbn [ascending]. rewrite Hk, Ea. auto.
      * apply Permutation_refl.
Qed.

Lemma bagStep_out metadata kv : inBag kv = false -> bagStep metadata kv = metadata.
Proof.
  unfold inBag, bagStep. destruct kv as [k v]. cbn [fst snd].
  destruct (startsWith k "metadata.") eqn:Hs; [|reflexivity].
  destruct (truthy v); [|reflexivity]. cbn [andb].
  apply startsWith_inv in Hs. destruct Hs as [r ->].
  rewrite replace_str_prefix, eqb_metadata_proto.
  intros E. apply negb_false_iff in E. unfold Obj.put. now rewrite E.
Qed.

Lemma bagStep_in metadata k v :
  inBag (k, v) = true ->
  exists r, k = "metadata." ++ r
            /\ (r =? "__proto__") = false
            /\ replace_str "metadata." "" k = r
            /\ bagStep metadata (k, v) = Obj.put metadata r v.
Proof.
  unfold inBag, bagStep. cbn [fst snd]. intros H.
  apply andb_true_iff in H. destruct H as [H Hp].
  rewrite H. apply andb_true_iff in H. destruct H as [Hs _].
  apply startsWith_inv in Hs. destruct Hs as [r ->].
  exists r. rewrite eqb_metadata_proto in Hp. apply negb_true_iff in Hp.
  rewrite replace_str_prefix. auto.
Qed.

Lemma bagNames_NoDup (record : CSVRow) :
  NoDup (Obj.keys record) -> NoDup (bagNames record).
Proof.
  unfold bagNames.
  induction record as [|[k v] record IH]; intros Hnd; [constructor|].
  inversion Hnd as [|? ? Hnotin Hnd']; subst. cbn [filter].
  destruct (inBag (k, v)) eqn:Hin; [|now apply IH].
  cbn [map fst]. constructor; [|now apply IH].
  destruct (bagStep_in [] k v Hin) as [r [-> [_ [Hr _]]]]. rewrite Hr.
  intros Hmem. apply in_map_iff in Hmem.
  destruct Hmem as [[k' v'] [Hk' Hmem]]. cbn [fst] in Hk'.
  apply filter_In in Hmem. destruct Hmem as [Hmem Hin'].
  destruct (bagStep_in [] k' v' Hin') as [r' [-> [_ [Hr' _]]]].
  rewrite Hr' in Hk'. subst r'.
  apply Hnotin. change ("metadata." ++ r) with (fst ("metadata." ++ r, v')).
  now apply in_map.
Qed.

Lemma keys_put_cases V (o : Obj.obj V) k v x :
  In x (Obj.keys (Obj.put o k v)) -> x = k \/ In x (Obj.keys o).
Proof.
  intros H. destruct (String.eqb_spec k x) as [->|N]; [now left|right].
  destruct (Obj.get o x) as [v0|] eqn:G.
  - apply get_In in G. change x with (fst (x, v0)). now apply in_map.
  - exfalso. revert H. apply get_None_keys. rewrite get_put.
    destruct (k =? "__proto__"); [exact G|].
    destruct (String.eqb_spec k x); [contradiction|exact G].
Qed.

(** The bag enumerates its array indices first, in ascending order, and
    then its other names in the order of the row. *)
Lemma bag_order (record : CSVRow) : forall metadata indices named,
  NoDup (bagNames record) ->
  Obj.keys metadata = (indices ++ named)%list ->
  ascending (-1) indices ->
  Forall (fun x => isIndex x = false) named ->
  (forall k, In k (bagNames record) -> ~ In k (Obj.keys metadata)) ->
  exists indices',
    Obj.keys (fold_left bagStep record metadata)
    = (indices' ++ named
         ++ filter (fun k => negb (isIndex k)) (bagNames record))%list
    /\ ascending (-1) indices'
    /\ Permutation indices' (indices ++ filter isIndex (bagNames record)).
Proof.
  induction record as [|[k v] record IH];
    intros metadata indices named Hnd Hkeys Hasc Hnamed Hfresh.
  - exists indices. cbn [fold_left bagNames filter map].
    rewrite !app_nil_r. auto.
  - cbn [fold_left]. unfold bagNames in *. cbn [filter] in *.
    destruct (inBag (k, v)) eqn:Hin;
      [|rewrite bagStep_out by exact Hin; now apply IH].
    destruct (bagStep_in metadata k v Hin) as [r [-> [Hp [Hr ->]]]].
    cbn [map fst] in *. rewrite Hr in *.
    inversion Hnd as [|? ? Hrnew Hnd']; subst.
    assert (Hout : ~ In r (Obj.keys metadata)) by (apply Hfresh; now left).
    assert (Hfresh' : forall k0,
              In k0 (map (fun kv => replace_str "metadata." "" (fst kv))
                       (filter inBag record)) ->
              ~ In k0 (Obj.keys (Obj.put metadata r v))).
    { intros k0 Hk0 Hmem. apply keys_put_cases in Hmem.
      destruct Hmem as [->|Hmem]; [contradiction|].
      exact (Hfresh k0 (or_intror Hk0) Hmem). }
    cbn [filter].
    destruct (Obj.arrayIndex r) as [n|] eqn:Ea;
      [assert (Hi : isIndex r = true) by (unfold isIndex; now rewrite Ea)
      |assert (Hi : isIndex r = false) by (unfold isIndex; now rewrite Ea)];
      rewrite Hi; cbn [negb].
    + assert (Hn : (-1 < n)%Z) by (pose proof (arrayIndex_nonneg r n Ea); lia).
      assert (Eput : Obj.put metadata r v = Obj.putIndex n r v metadata)
        by (unfold Obj.put; now rewrite Hp, Ea).
      destruct (keys_putIndex _ n r v indices metadata (-1)%Z named Ea Hkeys Hasc
                  Hnamed Hn Hout) as [idx [Hk1 [Hidx Hperm]]].
      rewrite <- Eput in Hk1.
      destruct (IH (Obj.put metadata r v) idx named Hnd' Hk1 Hidx Hnamed Hfresh')
        as [indices' [Hk2 [Hasc2 Hperm2]]].
      exists indices'. split; [exact Hk2|]. split; [exact Hasc2|].
      apply (perm_trans Hperm2).
      eapply perm_trans; [apply Permutation_app_tail; exact Hperm|].
      cbn [app]. apply Permutation_middle.
    + assert (Eput : Obj.put metadata r v = Obj.set metadata r v)
        by (unfold Obj.put; now rewrite Hp, Ea).
      assert (Hk1 : Obj.keys (Obj.put metadata r v)
                    = (indices ++ (named ++ [r]))%list).
      { rewrite Eput, keys_set.
        apply get_None_keys in Hout. rewrite Hout, Hkeys.
        now rewrite app_assoc. }
      assert (Hnamed' : Forall (fun x => isIndex x = false) (named ++ [r])).
      { apply Forall_app. split; [exact Hnamed|].
        constructor; [exact Hi|constructor]. }
      destruct (IH (Obj.put metadata r v) indices (named ++ [r])%list Hnd' Hk1
                  Hasc Hnamed' Hfresh')
        as [indices' [Hk2 [Hasc2 Hperm2]]].
      exists indices'. split; [|split; [exact Hasc2|exact Hperm2]].
      rewrite Hk2. now rewrite <- !app_assoc.
Qed.

Lemma row_of_cells_NoDup cells : NoDup (Obj.keys (row_of_cells cells)).
Proof.
  unfold row_of_cells.
  assert (G : forall r : CSVRow, NoDup (Obj.keys r) ->
            NoDup (Obj.keys (fold_left (fun r kv => Obj.set r (fst kv) (Str (snd kv)))
                               cells r))).
  { induction cells as [|kv cells IH]; intros r Hr; [exact Hr|].
    cbn [fold_left]. apply IH. now apply NoDup_keys_set. }
  apply G. constructor.
Qed.

(** X6. In the document of a row of the CSV file, each of the fields that
    are copied as they are ([label], [description], [attribution],
    [viewingHint], [viewingDirection], [navDate], [summary]) is present
    exactly when the row has a non-empty text for it, and then holds that
    text unchanged. *)
Theorem X6_createInfoYml_plain_fields record :
  csv_typed record ->
  exists info,
    createInfo record = Ok info
    /\ forall k, In k plainFields ->
         Obj.get info k =
         if present_nonempty record k then Some (YScalar (field record k))
         else None.
Proof.
  intros H. destruct (createInfo_ok record H) as [info Hinfo].
  exists info. split; [exact Hinfo|].
  revert Hinfo. unfold createInfo.
  destruct (behaviorField record _) as [info0|e] eqn:B; [|discriminate].
  intros [= <-] k Hk.
  simpl in Hk.
  repeat (destruct Hk as [<-|Hk];
          [rewrite <- (truthy_present record _ H)
             by (cbn [technical In]; intros [E|[E|[E|[]]]]; discriminate E);
           peel;
           try (rewrite (behaviorField_get_other _ _ _ _ B) by reflexivity; peel);
           unfold copyField at 1;
           rewrite get_assignIf, String.eqb_refl, andb_true_r;
           peel;
           try (rewrite (behaviorField_get_other _ _ _ _ B) by reflexivity; peel);
           reflexivity|]).
  contradiction.
Qed.

(** X7. [createInfoYml] throws only for a [behavior] that is a number other
    than zero and NaN, which no row of a CSV file has.  Otherwise the
    document has no [behavior] when the field is missing or empty, the list
    of the trimmed parts when its text holds a comma, and the text itself,
    untrimmed, when it holds none. *)
Theorem X7_createInfoYml_behavior record :
  (forall e, createInfo record = Throw e <->
     (exists n, field record "behavior" = Num n /\ truthy (Num n) = true)
     /\ e = TypeError "record.behavior.includes is not a function")
  /\ (forall info, createInfo record = Ok info ->
        Obj.get info "behavior" =
        match field record "behavior" with
        | Str behavior =>
            if behavior =? "" then None
            else if includes behavior ","
                 then Some (YSeq (map trim (split "," behavior)))
                 else Some (YScalar (Str behavior))
        | _ => None
        end).
Proof.
  unfold createInfo, behaviorField. split.
  - intros e.
    destruct (field record "behavior") as [|b|n] eqn:F.
    + cbn [truthy]. split; [discriminate|].
      intros [[n [E _]] _]. discriminate E.
    + destruct (truthy (Str b)); (split; [discriminate|]);
        intros [[n [E _]] _]; discriminate E.
    + destruct (truthy (Num n)) eqn:T.
      * split.
        -- intros [= <-]. split; [|reflexivity]. now exists n.
        -- intros [_ ->]. reflexivity.
      * split; [discriminate|].
        intros [[n' [E T']] _]. injection E as <-. congruence.
  - intros info.
    destruct (field record "behavior") as [|b|n] eqn:F.
    + cbn [truthy]. intros [= <-]. peel. reflexivity.
    + cbn [truthy]. destruct (b =? ""); cbn [negb].
      * intros [= <-]. peel. reflexivity.
      * intros [= <-]. peel. rewrite get_set. cbn [String.eqb Ascii.eqb Bool.eqb].
        now destruct (includes b ",").
    + destruct (truthy (Num n)); [discriminate|].
      intros [= <-]. peel. reflexivity.
Qed.

(** X8. For a row whose keys are distinct, as an object's are, the
    metadata bag holds under [name] the value of the key [metadata.name]
    when that value is not empty, and nothing else; under the name
    [__proto__] it holds nothing, whatever the row has for
    [metadata.__proto__].  The document has a [metadata] entry, which is
    the bag, exactly when some key of the row other than
    [metadata.__proto__] starts with [metadata.] and has a non-empty
    value.  The bag enumerates the names that are array indices first, in
    ascending order of the indices, and then its other names in the order
    of the row. *)
Theorem X8_createInfoYml_metadata_bag record :
  NoDup (Obj.keys record) ->
  csv_typed record ->
  exists info,
    createInfo record = Ok info
    /\ (forall name,
          Obj.get (metadataBag record) name =
          if name =? "__proto__" then None
          else match Obj.get record ("metadata." ++ name) with
               | Some v => if truthy v then Some v else None
               | None => None
               end)
    /\ Obj.get info "metadata" =
       (if existsb inBag record then Some (YMap (metadataBag record)) else None)
    /\ exists indices,
         Obj.keys (metadataBag record)
         = (indices ++ filter (fun k => negb (isIndex k)) (bagNames record))%list
         /\ ascending (-1) indices
         /\ Permutation indices (filter isIndex (bagNames record)).
Proof.
  intros Hnd H. destruct (createInfo_ok record H) as [info Hinfo].
  exists info. split; [exact Hinfo|]. split; [|split].
  - intros name. change (metadataBag record) with (fold_left bagStep record []).
    now rewrite bag_get.
  - revert Hinfo. unfold createInfo.
    destruct (behaviorField record _) as [info0|e] eqn:B; [|discriminate].
    intros [= <-]. peel. rewrite get_assignIf, String.eqb_refl, andb_true_r.
    peel. rewrite (behaviorField_get_other _ _ _ _ B) by reflexivity. peel.
    change (metadataBag record) with (fold_left bagStep record []).
    rewrite bag_empty. reflexivity.
  - change (metadataBag record) with (fold_left bagStep record []).
    destruct (bag_order record [] [] [] (bagNames_NoDup record Hnd) eq_refl I
                (Forall_nil _) (fun _ _ H0 => H0))
      as [indices [Hk [Hasc Hperm]]].
    exists indices. auto.
Qed.

(** X9. The keys of the document follow the order of the assignments of
    [createInfoYml], whatever the order of the columns of the CSV file:
    they are the keys of [documentOrder] that the document has, in that
    order, each once.  No other column of the row, [hierarchy] included,
    ever becomes a key of the document. *)
Theorem X9_createInfoYml_key_order record info :
  createInfo record = Ok info ->
  Obj.keys info = filter (has info) documentOrder
  /\ (forall k, In k (Obj.keys info) -> In k documentOrder)
  /\ Obj.get info "hierarchy" = None.
Proof.
  intros Hinfo.
  assert (E : Obj.keys info = filter (has info) documentOrder).
  { revert Hinfo. unfold createInfo.
    destruct (behaviorField record _) as [info0|e] eqn:B; [|discriminate].
    destruct (behaviorField_assignIf _ _ _ B) as [b [v ->]].
    intros [= <-]. unfold copyGroup, copyField.
    change documentOrder
      with (rev ["services"; "supplementary"; "start"; "rendering"; "seeAlso";
                 "homepage"; "provider"; "summary"; "requiredStatement";
                 "metadata"; "navDate"; "viewingDirection"; "viewingHint";
                 "duration"; "height"; "width"; "behavior"; "attribution";
                 "description"; "label"]).
    do 20 (apply ordered_assignIf;
            [|cbn [In]; intros Hin;
              repeat (destruct Hin as [Hin|Hin]; [discriminate Hin|]);
              exact Hin]).
    reflexivity. }
  split; [exact E|]. split.
  - intros k Hk. rewrite E in Hk. apply filter_In in Hk. exact (proj1 Hk).
  - apply get_None_keys. rewrite E. intros Hin. apply filter_In in Hin.
    destruct Hin as [Hin _]. cbn [documentOrder In] in Hin.
    repeat (destruct Hin as [Hin|Hin]; [discriminate Hin|]). exact Hin.
Qed.

(* ===================================================================== *)
(** ** Beyond the claims: where a row is written                          *)
(* ===================================================================== *)

Lemma fold_filter_nonempty allow segs : forall stack,
  fold_left (normalizeStep allow) (filter nonempty segs) stack
  = fold_left (normalizeStep allow) segs stack.
Proof.
  induction segs as [|seg segs IH]; intros stack; [reflexivity|].
  cbn [filter]. unfold nonempty at 1.
  destruct (String.eqb_spec seg "") as [->|N]; cbn [negb fold_left].
  - apply IH.
  - apply IH.
Qed.

Lemma Forall_filter (P : string -> Prop) f l : Forall P l -> Forall P (filter f l).
Proof.
  induction 1 as [|x l Hx Hl IH]; simpl; [constructor|].
  destruct (f x); [constructor|]; assumption.
Qed.

Lemma filter_nonempty_all l : Forall (fun x => x <> "") (filter nonempty l).
Proof.
  induction l as [|x l IH]; simpl; [constructor|].
  unfold nonempty at 1. destruct (String.eqb_spec x ""); simpl; [assumption|].
  now constructor.
Qed.

(** [path.join] of a directory and names without a slash, as the operating
    system resolves it: the names are taken one by one from the directory
    on. *)
Lemma resolve_join_parts A parts :
  Forall (fun x => noslash x = true) parts ->
  FS.resolve (join (A :: parts))
  = (isAbsolute A,
     rev (fold_left (normalizeStep (negb (isAbsolute A))) parts
            (rev (snd (FS.resolve A))))).
Proof.
  intros Hp. rewrite resolve_join. cbn [filter].
  pose proof (Forall_filter _ nonempty _ Hp) as Hps.
  pose proof (filter_nonempty_all parts) as Hne.
  rewrite <- (fold_filter_nonempty _ parts).
  set (ps := filter nonempty parts) in *. clearbody ps.
  unfold nonempty at 1.
  destruct (String.eqb_spec A "") as [->|HA]; cbn [negb].
  - change (FS.resolve "") with (false, @nil string). cbn [snd rev].
    change (isAbsolute "") with false. cbn [negb].
    destruct ps as [|x l]; [reflexivity|].
    unfold FS.resolve, normalizeSegments.
    destruct (concat_cons_app x l) as [t Ht].
    inversion Hps; subst. inversion Hne; subst.
    rewrite Ht, isAbsolute_noslash by assumption. rewrite <- Ht.
    rewrite split_concat by (discriminate || assumption). reflexivity.
  - unfold FS.resolve at 2. cbn [snd]. unfold normalizeSegments.
    rewrite rev_involutive.
    destruct ps as [|y l]; [reflexivity|].
    change (String.concat "/" (A :: y :: l))
      with (A ++ String "/" (String.concat "/" (y :: l))).
    unfold FS.resolve, normalizeSegments.
    rewrite isAbsolute_app by assumption.
    rewrite split_app_sep, split_concat by (discriminate || assumption).
    now rewrite fold_left_app.
Qed.

(** The names of a hierarchy that take part in the path of the row. *)
Definition keptName (s : string) : bool := negb (s =? "") && negb (s =? ".").

Lemma fold_no_dotdot allow parts : forall stack,
  ~ In ".." parts ->
  fold_left (normalizeStep allow) parts stack
  = (rev (filter keptName parts) ++ stack)%list.
Proof.
  induction parts as [|seg parts IH]; intros stack H; [reflexivity|].
  cbn [fold_left filter]. rewrite IH by (intros Hin; apply H; now right).
  unfold normalizeStep, keptName.
  destruct (String.eqb_spec seg "") as [->|N1]; cbn [negb andb orb]; [reflexivity|].
  destruct (String.eqb_spec seg ".") as [->|N2]; cbn [negb andb orb]; [reflexivity|].
  destruct (String.eqb_spec seg "..") as [->|N3].
  - exfalso. apply H. now left.
  - cbn [rev]. now rewrite <- app_assoc.
Qed.

Lemma rewrittenParts_noslash hierarchy :
  Forall (fun x => noslash x = true) (rewrittenParts hierarchy).
Proof.
  unfold rewrittenParts.
  pose proof (split_all_noslash hierarchy) as H.
  destruct (startsWith _ "canvas"); [|exact H].
  unfold set_last. apply Forall_app. split.
  - apply Forall_forall. intros x Hx. rewrite Forall_forall in H. apply H.
    clear H. revert Hx. generalize (split "/" hierarchy) as l.
    induction l as [|a [|b l] IH]; simpl; [intros []|intros []|].
    intros [<-|Hx]; [now left|]. right. now apply IH.
  - constructor; [|constructor].
    change (noslash ("_" ++ last (split "/" hierarchy) "") = true).
    unfold noslash. cbn. apply last_noslash.
Qed.

Lemma rewrittenParts_no_dotdot hierarchy :
  ~ In ".." (split "/" hierarchy) -> ~ In ".." (rewrittenParts hierarchy).
Proof.
  intros H. unfold rewrittenParts.
  destruct (startsWith _ "canvas"); [|exact H].
  unfold set_last. intros Hin. apply in_app_or in Hin.
  destruct Hin as [Hin|[Hin|[]]]; [|discriminate Hin].
  apply H. clear H. revert Hin. generalize (split "/" hierarchy) as l.
  induction l as [|a [|b l] IH]; simpl; [intros []|intros []|].
  intros [<-|Hx]; [now left|]. right. now apply IH.
Qed.

(** Without a [..] among its parts, the path of a row resolves to the
    output directory followed by the names of the hierarchy. *)
Lemma resolve_fullPathOf outputDir hierarchy :
  ~ In ".." (split "/" hierarchy) ->
  FS.resolve (fullPathOf outputDir hierarchy)
  = (fst (FS.resolve outputDir),
     (snd (FS.resolve outputDir)
        ++ filter keptName (rewrittenParts hierarchy))%list).
Proof.
  intros H. unfold fullPathOf.
  rewrite resolve_join_parts by apply rewrittenParts_noslash.
  rewrite fold_no_dotdot by now apply rewrittenParts_no_dotdot.
  now rewrite rev_app_distr, !rev_involutive.
Qed.

(* ===================================================================== *)
(** ** Beyond the claims: what a run keeps                                *)
(* ===================================================================== *)

(** [c] keeps the property [I] of the file system, whether it returns or
    throws. *)
Definition keeps (I : FS.t -> Prop) {A} (c : M A) : Prop :=
  forall w, I (fs w) -> I (fs (snd (c w))).

(** The same for an operation of the file system that returns. *)
Definition op_keeps (I : FS.t -> Prop) (op : FS.t -> result FS.t) : Prop :=
  forall f f', op f = Ok f' -> I f -> I f'.

Lemma keeps_ret I A (a : A) : keeps I (ret a).
Proof. intros w H. exact H. Qed.

Lemma keeps_throw I A (e : error) : keeps I (@throw A e).
Proof. intros w H. exact H. Qed.

Lemma keeps_emit I e : keeps I (emit e).
Proof. intros w H. exact H. Qed.

Lemma keeps_liftResult I A (r : result A) : keeps I (liftResult r).
Proof. intros w H. exact H. Qed.

Lemma keeps_liftFS I op : op_keeps I op -> keeps I (liftFS op).
Proof.
  intros Hop w H. unfold liftFS.
  destruct (op (fs w)) as [f'|e] eqn:E; [|exact H].
  exact (Hop _ _ E H).
Qed.

Lemma keeps_bind I A B (c : M A) (k : A -> M B) :
  keeps I c -> (forall a, keeps I (k a)) -> keeps I (bind c k).
Proof.
  intros Hc Hk w H. unfold bind. specialize (Hc w H).
  destruct (c w) as [[a|e] w1]; [|exact Hc].
  exact (Hk a w1 Hc).
Qed.

Lemma keeps_bind_ret I A B (a : A) (k : A -> M B) :
  keeps I (k a) -> keeps I (bind (ret a) k).
Proof. intros H w. exact (H w). Qed.

Lemma keeps_when I b c : keeps I c -> keeps I (when b c).
Proof. destruct b; [auto|intros _; apply keeps_ret]. Qed.

Lemma keeps_forEach I A S (l : list A) (body : A -> S -> M S) :
  (forall x s, keeps I (body x s)) -> forall s, keeps I (forEach l body s).
Proof.
  intros Hb. induction l as [|x l IH]; intros s; simpl.
  - apply keeps_ret.
  - apply keeps_bind; auto.
Qed.

Lemma addFileMetadata_fs filePath record w :
  fs (snd (addFileMetadata filePath record w)) = fs w.
Proof.
  unfold addFileMetadata.
  destruct (existsb _ [".jpg"; ".jpeg"; ".png"; ".tiff"; ".tif"]).
  - destruct (sharp_metadata filePath); reflexivity.
  - destruct (existsb _ [".mp3"; ".mp4"; ".wav"; ".m4a"]); [|reflexivity].
    destruct (ffprobe filePath) as [[[[[|stream0 rest]|]]|]|]; reflexivity.
Qed.

Lemma keeps_addFileMetadata I filePath record :
  keeps I (addFileMetadata filePath record).
Proof. intros w H. now rewrite addFileMetadata_fs. Qed.

(** The path of a row as [processRecord] computes it is [fullPathOf]. *)
Lemma rewritten_last hierarchy :
  startsWith (terminalSegment hierarchy) "canvas" = true ->
  last (rewrittenParts hierarchy) "" = "_" ++ terminalSegment hierarchy.
Proof.
  intros H. unfold rewrittenParts. fold (terminalSegment hierarchy).
  rewrite H. apply last_set_last.
Qed.

(** [processRecord] keeps what the three operations on the directory of
    the row keep. *)
Lemma keeps_processRecord I record outputDir inputDir fileMap hierarchy :
  field record "hierarchy" = Str hierarchy ->
  let fullPath := fullPathOf outputDir hierarchy in
  op_keeps I (FS.mkdirSync fullPath) ->
  (forall file,
     op_keeps I (FS.copyFileSync file (join [fullPath; basename file]))) ->
  (forall content,
     op_keeps I (FS.writeFileSync (join [fullPath; "info.yml"]) content)) ->
  keeps I (processRecord record outputDir inputDir fileMap).
Proof.
  intros Hh fullPath Hmk Hcp Hwr. unfold processRecord. rewrite Hh.
  apply keeps_bind_ret.
  fold (rewrittenParts hierarchy). fold (fullPathOf outputDir hierarchy).
  fold fullPath.
  repeat match goal with
  | |- keeps _ (ret _) => apply keeps_ret
  | |- keeps _ (throw _) => apply keeps_throw
  | |- keeps _ (liftResult _) => apply keeps_liftResult
  | |- keeps _ (console_log _) => apply keeps_emit
  | |- keeps _ (console_warn _) => apply keeps_emit
  | |- keeps _ (warn _) => apply keeps_emit
  | |- keeps _ (when _ _) => apply keeps_when
  | |- keeps _ (addFileMetadata _ _) => apply keeps_addFileMetadata
  | |- keeps _ (forEach _ _ _) => apply keeps_forEach; intros
  | |- keeps _ (liftFS (FS.mkdirSync _)) => apply keeps_liftFS; exact Hmk
  | |- keeps _ (liftFS (FS.copyFileSync _ _)) => apply keeps_liftFS; apply Hcp
  | |- keeps _ (liftFS (FS.writeFileSync _ _)) => apply keeps_liftFS; apply Hwr
  | |- keeps _ (bind _ _) => apply keeps_bind; [|intros]
  | |- keeps _ (if ?b then _ else _) => destruct b
  | |- keeps _ (match ?x with _ => _ end) => destruct x
  end.
Qed.

(** What the three operations of [processRecord] on the file system do
    when they return. *)
Lemma mkdirSync_result p f f' :
  FS.mkdirSync p f = Ok f' ->
  let K := FS.resolve p in
  (forall k,
     f' k = if existsb (fun pre => FS.fspath_eqb (fst K, pre) k) (FS.inits (snd K))
            then Some FS.Dir else f k)
  /\ (forall pre, In pre (FS.inits (snd K)) -> FS.is_file f (fst K, pre) = false).
Proof.
  unfold FS.mkdirSync. cbv zeta. set (K := FS.resolve p).
  destruct (FS.is_file f K); [discriminate|].
  destruct (existsb (fun pre => FS.is_file f (fst K, pre)) (FS.inits (snd K)))
    eqn:E; [discriminate|].
  intros [= <-]. split.
  - intros k. apply mkdir_fold.
  - intros pre Hin. apply not_true_is_false. intros T.
    assert (X : existsb (fun pre => FS.is_file f (fst K, pre)) (FS.inits (snd K))
                = true) by (apply existsb_exists; eauto).
    congruence.
Qed.

Lemma writeFileSync_result p content f f' :
  FS.writeFileSync p content f = Ok f' ->
  FS.is_dir f (FS.resolve p) = false
  /\ forall k, f' k = FS.update (FS.resolve p) (FS.File content) f k.
Proof.
  unfold FS.writeFileSync. cbv zeta.
  destruct (FS.is_dir f (FS.resolve p)); [discriminate|].
  destruct (negb (FS.is_dir f (FS.parent (FS.resolve p)))); [discriminate|].
  intros [= <-]. auto.
Qed.

Lemma copyFileSync_result src dest f f' :
  FS.copyFileSync src dest f = Ok f' ->
  exists content,
    f (FS.resolve src) = Some (FS.File content)
    /\ FS.is_dir f (FS.resolve dest) = false
    /\ forall k, f' k = FS.update (FS.resolve dest) (FS.File content) f k.
Proof.
  unfold FS.copyFileSync.
  destruct (f (FS.resolve src)) as [[|content]|]; try discriminate.
  cbv zeta.
  destruct (FS.is_dir f (FS.resolve dest)); [discriminate|].
  destruct (negb (FS.is_dir f (FS.parent (FS.resolve dest)))); [discriminate|].
  intros [= <-]. exists content. auto.
Qed.

(** The keys at which [processRecord] may write: the directory of the row,
    the directories above it, and the entries of the directory. *)
Definition near (K k : FS.fspath) : Prop :=
  (exists pre, In pre (FS.inits (snd K)) /\ k = (fst K, pre))
  \/ (exists name, k = child K name).

Lemma inits_prefix (l l' : list string) : In l (FS.inits (l ++ l')).
Proof.
  induction l as [|x l IH]; simpl.
  - destruct l'; now left.
  - right. now apply in_map.
Qed.

Lemma basename_noslash p : noslash (basename p) = true.
Proof.
  unfold basename.
  destruct (filter nonempty (split "/" p)) as [|x l] eqn:E; [reflexivity|].
  rewrite <- E.
  apply (Forall_last (fun x => noslash x = true)).
  - apply Forall_filter, split_all_noslash.
  - rewrite E. discriminate.
Qed.

Lemma fst_resolve p : fst (FS.resolve p) = isAbsolute p.
Proof. reflexivity. Qed.

(** A name without a slash behind a directory resolves to the directory, to
    the directory above it or to an entry of the directory. *)
Lemma resolve_join_near F name :
  noslash name = true -> near (FS.resolve F) (FS.resolve (join [F; name])).
Proof.
  intros Hn.
  rewrite resolve_join_parts by (constructor; [exact Hn|constructor]).
  cbn [fold_left]. unfold near, child. rewrite fst_resolve.
  set (segs := snd (FS.resolve F)).
  assert (Self : In segs (FS.inits segs)) by apply inits_self.
  unfold normalizeStep.
  destruct ((name =? "") || (name =? "."))%bool.
  - left. exists segs. now rewrite rev_involutive.
  - destruct (name =? "..") eqn:Edd.
    + apply String.eqb_eq in Edd. subst name.
      destruct (rev segs) as [|top below] eqn:Er.
      * assert (segs = []) as ->
          by (apply (f_equal (@rev string)) in Er; now rewrite rev_involutive in Er).
        destruct (negb (isAbsolute F)).
        -- right. now exists "..".
        -- left. exists []. split; [now left|reflexivity].
      * assert (Es : segs = (rev below ++ [top])%list)
          by (apply (f_equal (@rev string)) in Er; now rewrite rev_involutive in Er).
        destruct (top =? "..").
        -- destruct (negb (isAbsolute F)).
           ++ right. exists "..".
              change (rev (".." :: top :: below))
                with (rev (top :: below) ++ [".."])%list.
              now rewrite <- Er, rev_involutive.
           ++ left. exists segs. split; [exact Self|]. now rewrite <- Er, rev_involutive.
        -- left. exists (rev below). split; [|reflexivity].
           rewrite Es. apply inits_prefix.
    + right. exists name. cbn [rev]. now rewrite rev_involutive.
Qed.

(** A run keeps what is not near the directory of the row. *)
Lemma processRecord_keeps_far
  record outputDir inputDir fileMap hierarchy k (v : option FS.node) :
  field record "hierarchy" = Str hierarchy ->
  ~ near (FS.resolve (fullPathOf outputDir hierarchy)) k ->
  keeps (fun f => f k = v) (processRecord record outputDir inputDir fileMap).
Proof.
  intros Hh Hfar. set (K := FS.resolve (fullPathOf outputDir hierarchy)) in *.
  assert (Hnear : forall k', near K k' -> k' <> k)
    by (intros k' Hn E; apply Hfar; now rewrite <- E).
  apply (keeps_processRecord (fun f => f k = v) record outputDir inputDir
           fileMap hierarchy Hh).
  - intros f f' E Hf. destruct (mkdirSync_result _ _ _ E) as [Hk _].
    rewrite Hk. fold K.
    destruct (existsb _ _) eqn:X; [|exact Hf].
    exfalso. apply existsb_exists in X. destruct X as [pre [Hin X]].
    destruct (fspath_eqb_spec (fst K, pre) k) as [Ek|]; [|discriminate].
    apply Hfar. left. exists pre. auto.
  - intros file f f' E Hf.
    destruct (copyFileSync_result _ _ _ _ E) as [content [_ [_ Hk]]].
    rewrite Hk, update_other; [exact Hf|].
    apply Hnear. apply resolve_join_near, basename_noslash.
  - intros content f f' E Hf.
    destruct (writeFileSync_result _ _ _ _ E) as [_ Hk].
    rewrite Hk, update_other; [exact Hf|].
    apply Hnear. now apply resolve_join_near.
Qed.

(** X11. Whatever a run of [processRecord] does, whether it returns or
    throws, it writes only to the directory of the row, to the directories
    above it and to the entries of the directory of the row: everything
    else in the file system is as before. *)
Theorem X11_processRecord_frame
  record outputDir inputDir fileMap hierarchy w k :
  field record "hierarchy" = Str hierarchy ->
  let K := FS.resolve (fullPathOf outputDir hierarchy) in
  (forall pre, In pre (FS.inits (snd K)) -> k <> (fst K, pre)) ->
  (forall name, k <> child K name) ->
  fs (snd (processRecord record outputDir inputDir fileMap w)) k = fs w k.
Proof.
  intros Hh K Hpre Hchild.
  assert (Hfar : ~ near K k).
  { intros [[pre [Hin E]]|[name E]].
    - exact (Hpre pre Hin E).
    - exact (Hchild name E). }
  apply (processRecord_keeps_far record outputDir inputDir fileMap hierarchy k
           (fs w k) Hh Hfar w).
  reflexivity.
Qed.

Lemma update_is_dir k c f k' :
  FS.is_dir f k = false -> FS.is_dir f k' = true ->
  FS.is_dir (FS.update k (FS.File c) f) k' = true.
Proof.
  intros Hk Hk'. unfold FS.is_dir at 1.
  rewrite update_other; [exact Hk'|]. intros <-. congruence.
Qed.

Lemma update_is_file k c f k' :
  FS.is_file f k' = true -> FS.is_file (FS.update k (FS.File c) f) k' = true.
Proof.
  intros Hk'. unfold FS.is_file at 1.
  destruct (fspath_eqb_spec k k') as [<-|N].
  - now rewrite update_same.
  - now rewrite update_other.
Qed.

(** A run keeps the directories and the files that there are. *)
Lemma processRecord_keeps_dir record outputDir inputDir fileMap k :
  keeps (fun f => FS.is_dir f k = true)
    (processRecord record outputDir inputDir fileMap).
Proof.
  destruct (field record "hierarchy") as [|hierarchy|n] eqn:Hh;
    [intros w H; unfold processRecord; rewrite Hh; exact H| |
     intros w H; unfold processRecord; rewrite Hh; exact H].
  apply (keeps_processRecord (fun f => FS.is_dir f k = true) record outputDir
           inputDir fileMap hierarchy Hh).
  - intros f f' E Hf. destruct (mkdirSync_result _ _ _ E) as [Hk _].
    unfold FS.is_dir. rewrite Hk.
    destruct (existsb _ _); [reflexivity|exact Hf].
  - intros file f f' E Hf.
    destruct (copyFileSync_result _ _ _ _ E) as [content [_ [Hd Hk]]].
    unfold FS.is_dir. rewrite Hk. now apply update_is_dir.
  - intros content f f' E Hf.
    destruct (writeFileSync_result _ _ _ _ E) as [Hd Hk].
    unfold FS.is_dir. rewrite Hk. now apply update_is_dir.
Qed.

Lemma processRecord_keeps_file record outputDir inputDir fileMap k :
  keeps (fun f => FS.is_file f k = true)
    (processRecord record outputDir inputDir fileMap).
Proof.
  destruct (field record "hierarchy") as [|hierarchy|n] eqn:Hh;
    [intros w H; unfold processRecord; rewrite Hh; exact H| |
     intros w H; unfold processRecord; rewrite Hh; exact H].
  apply (keeps_processRecord (fun f => FS.is_file f k = true) record outputDir
           inputDir fileMap hierarchy Hh).
  - intros f f' E Hf. destruct (mkdirSync_result _ _ _ E) as [Hk Hpre].
    unfold FS.is_file. rewrite Hk.
    destruct (existsb _ _) eqn:X; [|exact Hf].
    exfalso. apply existsb_exists in X. destruct X as [pre [Hin X]].
    destruct (fspath_eqb_spec (fst (FS.resolve (fullPathOf outputDir hierarchy)), pre) k)
      as [Ek|]; [|discriminate].
    specialize (Hpre pre Hin). rewrite Ek in Hpre. congruence.
  - intros file f f' E Hf.
    destruct (copyFileSync_result _ _ _ _ E) as [content [_ [_ Hk]]].
    unfold FS.is_file. rewrite Hk. now apply update_is_file.
  - intros content f f' E Hf.
    destruct (writeFileSync_result _ _ _ _ E) as [_ Hk].
    unfold FS.is_file. rewrite Hk. now apply update_is_file.
Qed.

(** X12. A run of [processRecord] removes nothing and changes the kind of
    nothing, whether it returns or throws: a directory is a directory
    afterwards, and a file is a file. *)
Theorem X12_processRecord_never_deletes record outputDir inputDir fileMap w k :
  let w' := snd (processRecord record outputDir inputDir fileMap w) in
  (FS.is_dir (fs w) k = true -> FS.is_dir (fs w') k = true)
  /\ (FS.is_file (fs w) k = true -> FS.is_file (fs w') k = true).
Proof.
  cbv zeta. split; intros H.
  - exact (processRecord_keeps_dir record outputDir inputDir fileMap k w H).
  - exact (processRecord_keeps_file record outputDir inputDir fileMap k w H).
Qed.

(* ===================================================================== *)
(** ** Beyond the claims: the steps of a run                              *)
(* ===================================================================== *)

(** The body of the loop over the matching files. *)
Definition copyStep (fullPath file : string) (record : CSVRow) : M CSVRow :=
  let fileName := basename file in
  let destPath := join [fullPath; fileName] in
  liftFS (FS.copyFileSync file destPath) ;;
  record <- addFileMetadata file record ;;
  console_log [AStr ("Copied " ++ fileName ++ " to " ++ destPath)] ;;
  ret record.

(** The files of the index that a canvas row takes. *)
Definition audioRow (hierarchy : string) : bool :=
  match parentSegment hierarchy with
  | Some p => p =? "audio"
  | None => false
  end.

Definition matchingFiles (hierarchy : string) (fileMap : FileMap) : list string :=
  filter (fileMatches (audioRow hierarchy)
            (canvasIndexOf ("_" ++ terminalSegment hierarchy)))
    (allFiles fileMap).

(** The block under [if (inputDir && isCanvas && fileMap)]. *)
Definition gather (fullPath hierarchy : string) (fileMap : FileMap)
  (record : CSVRow) : M CSVRow :=
  let rewritten := "_" ++ terminalSegment hierarchy in
  let files := allFiles fileMap in
  let matching := matchingFiles hierarchy fileMap in
  console_log [AStr (String "010" "Looking for files for:"); AStr rewritten] ;;
  console_log [AStr "Canvas index:"; ANum (canvasIndexOf rewritten)] ;;
  console_log [AStr "Is audio:"; ABool (audioRow hierarchy)] ;;
  console_log [AStr "Available files:"; AList (map basename files)] ;;
  record <- forEach matching (copyStep fullPath) record ;;
  (if (List.length matching =? 0)%nat
   then console_warn [AStr ("No matching files found for canvas " ++ rewritten)]
   else console_log [AStr "Found matching files:"; AList (map basename matching)]) ;;
  ret record.

(** The last two statements of [processRecord]. *)
Definition finish (fullPath : string) (record : CSVRow) : M unit :=
  infoContent <- liftResult (createInfoYml record) ;;
  liftFS (FS.writeFileSync (join [fullPath; "info.yml"]) infoContent).

(** Whether the row takes files: [inputDir && isCanvas && fileMap]. *)
Definition takesFiles (hierarchy : string) (inputDir : option string)
  (fileMap : option FileMap) : bool :=
  match fileMap with
  | Some _ => truthy_opt inputDir && startsWith (terminalSegment hierarchy) "canvas"
  | None => false
  end.

(** [processRecord] behind the nesting check: the directory is made, the
    files are gathered, the sidecar is written. *)
Lemma processRecord_steps record outputDir inputDir fileMap hierarchy w :
  field record "hierarchy" = Str hierarchy ->
  let fullPath := fullPathOf outputDir hierarchy in
  processRecord record outputDir inputDir fileMap w
  = (liftFS (FS.mkdirSync fullPath) ;;
     record <- match fileMap with
               | Some fileMap =>
                   if truthy_opt inputDir
                      && startsWith (terminalSegment hierarchy) "canvas"
                   then gather fullPath hierarchy fileMap record
                   else ret record
               | None => ret record
               end ;;
     finish fullPath record)
      {| fs := fs w; log := (log w ++ nestingEvents hierarchy)%list |}.
Proof.
  intros Hh fullPath. unfold processRecord. rewrite Hh.
  unfold bind at 1. unfold ret at 1.
  change (last (split "/" hierarchy) "") with (terminalSegment hierarchy).
  set (parts := split "/" hierarchy).
  assert (Hne : parts <> []) by apply split_not_nil.
  set (parts' := if startsWith (terminalSegment hierarchy) "canvas"
                 then set_last parts ("_" ++ terminalSegment hierarchy) else parts).
  assert (Hrev : match rev parts' with _ :: p :: _ => Some p | _ => None end
                 = parentSegment hierarchy).
  { unfold parentSegment, parts'. fold parts.
    destruct (startsWith (terminalSegment hierarchy) "canvas"); [|reflexivity].
    rewrite rev_set_last by assumption.
    destruct (rev parts) as [|a [|b r]]; reflexivity. }
  rewrite parentPart_code, at_index_penultimate, Hrev.
  fold (parentText hierarchy).
  fold (canvasViolation hierarchy) (manifestViolation hierarchy).
  rewrite !bind_when_warn. cbn [fs log].
  change (join (outputDir :: parts')) with fullPath.
  unfold nestingEvents. rewrite <- !app_assoc.
  destruct fileMap as [fm|]; [|reflexivity].
  destruct (startsWith (terminalSegment hierarchy) "canvas") eqn:Hc;
    [|now rewrite !andb_false_r].
  assert (Hl : last parts' "" = "_" ++ terminalSegment hierarchy)
    by (unfold parts'; apply last_set_last).
  rewrite Hl. reflexivity.
Qed.

(** Runs that returned, taken apart. *)
Lemma bind_Ok A B (c : M A) (k : A -> M B) w b w' :
  bind c k w = (Ok b, w') ->
  exists a w1, c w = (Ok a, w1) /\ k a w1 = (Ok b, w').
Proof.
  unfold bind. destruct (c w) as [[a|e] w1]; [|discriminate].
  intros H. now exists a, w1.
Qed.

Lemma liftFS_Ok op w w' :
  liftFS op w = (Ok tt, w') ->
  op (fs w) = Ok (fs w') /\ log w' = log w.
Proof.
  unfold liftFS. destruct (op (fs w)) as [f|e]; [|discriminate].
  intros [= <-]. auto.
Qed.

Lemma emit_Ok e w w' :
  emit e w = (Ok tt, w') -> fs w' = fs w /\ log w' = (log w ++ [e])%list.
Proof. unfold emit. intros [= <-]. auto. Qed.

Lemma addFileMetadata_Ok filePath record w record' w' :
  addFileMetadata filePath record w = (Ok record', w') ->
  fs w' = fs w /\ fst (addFileMetadata filePath record w) = Ok record'.
Proof.
  intros E. split.
  - rewrite <- (addFileMetadata_fs filePath record w). now rewrite E.
  - now rewrite E.
Qed.

(** A copy that returned: the source was a file, the target was no
    directory, and the target holds the content of the source. *)
Lemma copyStep_Ok fullPath file record w record' w' :
  copyStep fullPath file record w = (Ok record', w') ->
  fst (addFileMetadata file record w') = Ok record'
  /\ exists content,
       fs w (FS.resolve file) = Some (FS.File content)
       /\ forall k,
            fs w' k
            = FS.update (FS.resolve (join [fullPath; basename file]))
                (FS.File content) (fs w) k.
Proof.
  unfold copyStep. cbv zeta. intros E.
  apply bind_Ok in E. destruct E as [[] [w1 [E1 E]]].
  apply bind_Ok in E. destruct E as [r1 [w2 [E2 E]]].
  apply bind_Ok in E. destruct E as [[] [w3 [E3 E]]].
  injection E as <- <-.
  apply liftFS_Ok in E1. destruct E1 as [E1 _].
  apply copyFileSync_result in E1. destruct E1 as [content [Hsrc [_ Hk]]].
  pose proof (addFileMetadata_row file record w1) as Hrow.
  pose proof (addFileMetadata_row file record w3) as Hrow3.
  apply addFileMetadata_Ok in E2. destruct E2 as [F2 R2].
  apply emit_Ok in E3. destruct E3 as [F3 _].
  split; [congruence|].
  exists content. split; [exact Hsrc|].
  intros k. rewrite F3, F2. apply Hk.
Qed.

(** The last file of a list with a given base name. *)
Fixpoint lastNamed (name : string) (files : list string) : option string :=
  match files with
  | [] => None
  | file :: files' =>
      match lastNamed name files' with
      | Some winner => Some winner
      | None => if basename file =? name then Some file else None
      end
  end.

Lemma lastNamed_Some name files winner :
  lastNamed name files = Some winner ->
  In winner files /\ basename winner = name.
Proof.
  induction files as [|file files IH]; simpl; [discriminate|].
  destruct (lastNamed name files) as [w0|].
  - intros [= <-]. destruct (IH eq_refl). auto.
  - destruct (String.eqb_spec (basename file) name); [|discriminate].
    intros [= <-]. auto.
Qed.

Lemma lastNamed_In name files file :
  In file files -> basename file = name -> lastNamed name files <> None.
Proof.
  induction files as [|x files IH]; simpl; [intros []|].
  intros [->|Hin] Hb.
  - destruct (lastNamed name files); [discriminate|].
    rewrite Hb, String.eqb_refl. discriminate.
  - specialize (IH Hin Hb). destruct (lastNamed name files); [discriminate|].
    contradiction.
Qed.

Lemma lastNamed_unique name files file :
  NoDup (map basename files) -> In file files -> basename file = name ->
  lastNamed name files = Some file.
Proof.
  induction files as [|x files IH]; simpl; [intros _ []|].
  intros Hnd Hin Hb. inversion Hnd as [|? ? Hx Hnd']; subst.
  destruct Hin as [->|Hin].
  - destruct (lastNamed (basename file) files) as [w0|] eqn:L.
    + exfalso. apply lastNamed_Some in L. destruct L as [Hin Hb].
      apply Hx. rewrite <- Hb. now apply in_map.
    + now rewrite String.eqb_refl.
  - now rewrite (IH Hnd' Hin eq_refl).
Qed.

Lemma child_inj K name name' : child K name = child K name' -> name = name'.
Proof.
  unfold child. intros [= E]. apply app_inj_tail in E. now destruct E.
Qed.

(** The loop over the matching files, when it returned: nothing but
    entries of the directory of the row changed, and an entry holds the
    content of the last file that was copied under its name. *)
Lemma copyLoop_Ok fullPath files : forall record w record' w',
  (forall file, In file files ->
     plain (basename file)
     /\ forall name, FS.resolve file <> child (FS.resolve fullPath) name) ->
  forEach files (copyStep fullPath) record w = (Ok record', w') ->
  extracts record record'
  /\ (forall k, (forall name, k <> child (FS.resolve fullPath) name) ->
        fs w' k = fs w k)
  /\ (forall file, In file files ->
        exists content, fs w (FS.resolve file) = Some (FS.File content))
  /\ (forall name,
        fs w' (child (FS.resolve fullPath) name)
        = match lastNamed name files with
          | Some winner => fs w (FS.resolve winner)
          | None => fs w (child (FS.resolve fullPath) name)
          end).
Proof.
  set (K := FS.resolve fullPath).
  induction files as [|file files IH]; intros record w record' w' Hfiles E.
  - injection E as <- <-. split; [apply extracts_refl|].
    split; [reflexivity|]. split; [intros ? []|reflexivity].
  - cbn [forEach] in E. apply bind_Ok in E. destruct E as [r1 [w1 [E1 E]]].
    apply copyStep_Ok in E1. destruct E1 as [Hrow [content [Hsrc Hk]]].
    destruct (Hfiles file (or_introl eq_refl)) as [Hplain Hout].
    assert (Hdest : FS.resolve (join [fullPath; basename file])
                    = child K (basename file))
      by (rewrite (resolve_join_child _ _ Hplain); reflexivity).
    rewrite Hdest in Hk.
    destruct (IH r1 w1 record' w' (fun f Hf => Hfiles f (or_intror Hf)) E)
      as [Hx [Hframe [Hsrcs Hnames]]].
    assert (Hw1 : forall k, (forall name, k <> child K name) -> fs w1 k = fs w k).
    { intros k Hn. rewrite Hk. apply update_other. intros Ek. exact (Hn _ (eq_sym Ek)). }
    split; [eapply extracts_step; eassumption|].
    split; [|split].
    + intros k Hn. rewrite Hframe by assumption. now apply Hw1.
    + intros f [<-|Hf]; [eauto|].
      destruct (Hsrcs f Hf) as [c Hc]. exists c.
      rewrite <- Hc. symmetry. apply Hw1.
      apply (Hfiles f (or_intror Hf)).
    + intros name. rewrite Hnames. cbn [lastNamed].
      destruct (lastNamed name files) as [winner|] eqn:L.
      * apply Hw1. apply lastNamed_Some in L. destruct L as [Hin _].
        apply (Hfiles winner (or_intror Hin)).
      * rewrite Hk.
        destruct (String.eqb_spec (basename file) name) as [<-|N].
        -- now rewrite update_same.
        -- apply update_other. intros Ec. apply child_inj in Ec. contradiction.
Qed.

(** The sidecar, when its write returned. *)
Lemma finish_Ok fullPath record w w' :
  finish fullPath record w = (Ok tt, w') ->
  let K := FS.resolve fullPath in
  exists info,
    createInfo record = Ok info
    /\ FS.is_dir (fs w) K = true
    /\ log w' = log w
    /\ forall k,
         fs w' k = FS.update (child K "info.yml") (FS.File (dump info)) (fs w) k.
Proof.
  intros E K. unfold finish, createInfoYml in E.
  apply bind_Ok in E. destruct E as [content [w1 [E1 E]]].
  unfold liftResult in E1.
  destruct (createInfo record) as [info|e]; [|discriminate].
  injection E1 as <- <-. exists info. split; [reflexivity|].
  apply liftFS_Ok in E. destruct E as [E El].
  unfold FS.writeFileSync in E. cbv zeta in E.
  rewrite (resolve_join_child _ _ plain_info_yml) in E.
  fold K in E. fold (child K "info.yml") in E.
  destruct (FS.is_dir (fs w) (child K "info.yml")); [discriminate|].
  rewrite child_parent in E.
  destruct (FS.is_dir (fs w) K); [|discriminate]. cbn [negb] in E.
  injection E as E. split; [reflexivity|]. split; [exact El|].
  intros k. now rewrite <- E.
Qed.

(** The files are gathered, when that returned. *)
Lemma gather_Ok fullPath hierarchy fileMap record w record' w' :
  gather fullPath hierarchy fileMap record w = (Ok record', w') ->
  exists w0 w1,
    fs w0 = fs w
    /\ forEach (matchingFiles hierarchy fileMap) (copyStep fullPath) record w0
       = (Ok record', w1)
    /\ fs w' = fs w1.
Proof.
  unfold gather. cbv zeta. intros E.
  apply bind_Ok in E. destruct E as [[] [wa [Ea E]]].
  apply bind_Ok in E. destruct E as [[] [wb [Eb E]]].
  apply bind_Ok in E. destruct E as [[] [wc [Ec E]]].
  apply bind_Ok in E. destruct E as [[] [wd [Ed E]]].
  apply bind_Ok in E. destruct E as [r1 [w1 [Eloop E]]].
  apply bind_Ok in E. destruct E as [[] [w2 [Efin E]]].
  injection E as <- <-.
  apply emit_Ok in Ea, Eb, Ec, Ed.
  exists wd, w1. split; [|split; [exact Eloop|]].
  - destruct Ea as [Fa _], Eb as [Fb _], Ec as [Fc _], Ed as [Fd _]. congruence.
  - destruct (_ =? _)%nat; apply emit_Ok in Efin; now destruct Efin.
Qed.

(** What a run that returned has written for the row. *)
Lemma processRecord_row_written
  record outputDir inputDir fileMap hierarchy w w' :
  field record "hierarchy" = Str hierarchy ->
  processRecord record outputDir inputDir fileMap w = (Ok tt, w') ->
  let K := FS.resolve (fullPathOf outputDir hierarchy) in
  FS.is_dir (fs w') K = true
  /\ exists record' info,
       extracts record record'
       /\ createInfo record' = Ok info
       /\ fs w' (child K "info.yml") = Some (FS.File (dump info)).
Proof.
  intros Hh E K.
  rewrite (processRecord_steps _ _ _ _ _ _ Hh) in E. cbv zeta in E.
  apply bind_Ok in E. destruct E as [[] [w1 [_ E]]].
  apply bind_Ok in E. destruct E as [record' [w2 [Emid E]]].
  apply finish_Ok in E. cbv zeta in E. fold K in E.
  destruct E as [info [Hinfo [Hd [_ Hk]]]].
  assert (Hx : extracts record record').
  { destruct fileMap as [fm|]; [|injection Emid as <- _; apply extracts_refl].
    destruct (truthy_opt inputDir && _);
      [|injection Emid as <- _; apply extracts_refl].
    apply gather_Ok in Emid. destruct Emid as [w0 [w3 [_ [Eloop _]]]].
    clear - Eloop. revert record w0 Eloop.
    induction (matchingFiles hierarchy fm) as [|file files IH];
      intros record w0 Eloop.
    - injection Eloop as <- _. apply extracts_refl.
    - cbn [forEach] in Eloop. apply bind_Ok in Eloop.
      destruct Eloop as [r1 [w1 [E1 E]]].
      apply copyStep_Ok in E1. destruct E1 as [Hrow _].
      eapply extracts_step; [exact Hrow|]. eapply IH. exact E. }
  split.
  - unfold FS.is_dir. rewrite Hk, update_other by apply child_neq. exact Hd.
  - exists record', info. split; [exact Hx|]. split; [exact Hinfo|].
    rewrite Hk. apply update_same.
Qed.

(** X10. When the hierarchy of a row has no [..] among its parts and
    [processRecord] returns, the directory of the row lies below the output
    directory, under the names of the hierarchy that are neither empty nor
    [.] (the last one behind [_] for a canvas): that directory exists, and
    its [info.yml] is a file that holds the document of the row as the
    extraction of metadata left it. *)
Theorem X10_row_directory_below_output
  record outputDir inputDir fileMap hierarchy w :
  field record "hierarchy" = Str hierarchy ->
  ~ In ".." (split "/" hierarchy) ->
  fst (processRecord record outputDir inputDir fileMap w) = Ok tt ->
  let w' := snd (processRecord record outputDir inputDir fileMap w) in
  let K := (fst (FS.resolve outputDir),
            (snd (FS.resolve outputDir)
               ++ filter keptName (rewrittenParts hierarchy))%list) in
  FS.resolve (fullPathOf outputDir hierarchy) = K
  /\ FS.is_dir (fs w') K = true
  /\ exists record' info,
       extracts record record'
       /\ createInfo record' = Ok info
       /\ fs w' (child K "info.yml") = Some (FS.File (dump info)).
Proof.
  intros Hh Hdd Hok w' K.
  assert (HK : FS.resolve (fullPathOf outputDir hierarchy) = K)
    by now apply resolve_fullPathOf.
  split; [exact HK|].
  assert (E : processRecord record outputDir inputDir fileMap w = (Ok tt, w')).
  { unfold w'. destruct (processRecord record outputDir inputDir fileMap w)
      as [[[]|e] w1]; [reflexivity|discriminate]. }
  pose proof (processRecord_row_written _ _ _ _ _ _ _ Hh E) as H.
  cbv zeta in H. rewrite HK in H. exact H.
Qed.

Lemma matched_not_yml isAudio canvasIndex file :
  fileMatches isAudio canvasIndex file = true -> basename file <> "info.yml".
Proof.
  unfold fileMatches. cbv zeta. intros H E.
  assert (X : toLowerCase (extname file) = ".yml")
    by (unfold extname; rewrite E; reflexivity).
  rewrite X in H. cbn in H. now destruct isAudio.
Qed.

(** X13. When a canvas row takes files and [processRecord] returns, every
    matching file is in the directory of the row under its base name: the
    entry holds the content that the last matching file of that base name
    had before the run, which is the content of the file itself when no two
    matching files share a base name.  (The matching files have plain base
    names and lie outside of the directory of the row.) *)
Theorem X13_processRecord_copies
  record outputDir inputDir fileMap hierarchy w :
  field record "hierarchy" = Str hierarchy ->
  truthy_opt inputDir = true ->
  startsWith (terminalSegment hierarchy) "canvas" = true ->
  let K := FS.resolve (fullPathOf outputDir hierarchy) in
  let matching := matchingFiles hierarchy fileMap in
  (forall file, In file matching ->
     plain (basename file) /\ forall name, FS.resolve file <> child K name) ->
  fst (processRecord record outputDir inputDir (Some fileMap) w) = Ok tt ->
  let w' := snd (processRecord record outputDir inputDir (Some fileMap) w) in
  forall file, In file matching ->
    exists winner content,
      lastNamed (basename file) matching = Some winner
      /\ (NoDup (map basename matching) -> winner = file)
      /\ fs w (FS.resolve winner) = Some (FS.File content)
      /\ fs w' (child K (basename file)) = Some (FS.File content).
Proof.
  intros Hh Hin Hc K matching Hfiles Hok w' file Hfile.
  assert (E : processRecord record outputDir inputDir (Some fileMap) w = (Ok tt, w')).
  { unfold w'. destruct (processRecord record outputDir inputDir (Some fileMap) w)
      as [[[]|e] w1]; [reflexivity|discriminate]. }
  clearbody w'. clear Hok.
  rewrite (processRecord_steps _ _ _ _ _ _ Hh) in E. cbv zeta in E.
  rewrite Hin, Hc in E. cbn [andb] in E.
  apply bind_Ok in E. destruct E as [[] [w1 [Emk E]]].
  apply bind_Ok in E. destruct E as [record' [w2 [Emid E]]].
  apply finish_Ok in E. cbv zeta in E. fold K in E.
  destruct E as [info [_ [_ [_ Hk]]]].
  apply gather_Ok in Emid. destruct Emid as [w0 [w3 [F0 [Eloop F3]]]].
  apply (copyLoop_Ok _ _ _ _ _ _ Hfiles) in Eloop.
  destruct Eloop as [_ [_ [Hsrcs Hnames]]]. fold K in Hnames.
  apply liftFS_Ok in Emk. destruct Emk as [Emk _]. cbn [fs] in Emk.
  destruct (mkdirSync_result _ _ _ Emk) as [Hmk Hpre]. fold K in Hmk, Hpre.
  destruct (lastNamed (basename file) matching) as [winner|] eqn:L;
    [|exfalso; exact (lastNamed_In _ _ _ Hfile eq_refl L)].
  pose proof (lastNamed_Some _ _ _ L) as [Hwin Hbase].
  destruct (Hsrcs winner Hwin) as [content Hcontent].
  rewrite F0 in Hcontent.
  assert (Horig : fs w (FS.resolve winner) = Some (FS.File content)).
  { rewrite Hmk in Hcontent.
    destruct (existsb _ _); [discriminate|exact Hcontent]. }
  exists winner, content. split; [reflexivity|]. split; [|split; [exact Horig|]].
  - intros Hnd.
    pose proof (lastNamed_unique _ _ _ Hnd Hfile eq_refl) as U. congruence.
  - rewrite Hk, update_other.
    + rewrite F3, (Hnames (basename file)). fold matching. rewrite L.
      now rewrite F0.
    + intros Ec. apply child_inj in Ec.
      unfold matching, matchingFiles in Hfile. apply filter_In in Hfile.
      destruct Hfile as [_ Hm]. exact (matched_not_yml _ _ _ Hm (eq_sym Ec)).
Qed.

(* ===================================================================== *)
(** ** The claims: the pool of candidate files                            *)
(* ===================================================================== *)

(** The line that [processRecord] prints for a file it has copied. *)
Definition copied (fullPath file : string) : event :=
  ConsoleLog [AStr ("Copied " ++ basename file ++ " to "
                      ++ join [fullPath; basename file])].

(** The line that lists the candidates. *)
Definition available (fileMap : FileMap) : event :=
  ConsoleLog [AStr "Available files:"; AList (map basename (allFiles fileMap))].

(** The matching files of a row are the files of the buckets that pass the
    test of the row. *)
Lemma matchingFiles_pool hierarchy (fileMap : FileMap) file :
  In file (matchingFiles hierarchy fileMap) <->
  (exists dirName bucket, In (dirName, bucket) fileMap /\ In file bucket)
  /\ fileMatches (audioRow hierarchy)
       (canvasIndexOf ("_" ++ terminalSegment hierarchy)) file = true.
Proof.
  unfold matchingFiles. rewrite filter_In. unfold allFiles. rewrite in_concat.
  split.
  - intros [[bucket [Hb Hf]] Hm]. split; [|assumption].
    apply in_map_iff in Hb. destruct Hb as [[d b] [<- Hin]].
    exists d, b. auto.
  - intros [[d [b [Hin Hf]]] Hm]. split; [|assumption].
    exists b. split; [|assumption].
    apply in_map_iff. exists (d, b). auto.
Qed.

Lemma copyStep_Ok_log fullPath file record w record' w' :
  copyStep fullPath file record w = (Ok record', w') ->
  exists evs, log w' = (log w ++ evs ++ [copied fullPath file])%list.
Proof.
  unfold copyStep. cbv zeta. intros E.
  apply bind_Ok in E. destruct E as [[] [w1 [E1 E]]].
  apply bind_Ok in E. destruct E as [r1 [w2 [E2 E]]].
  apply bind_Ok in E. destruct E as [[] [w3 [E3 E]]].
  injection E as <- <-.
  apply liftFS_Ok in E1. destruct E1 as [_ L1].
  destruct (addFileMetadata_quiet file record w1) as [evs [L2 _]].
  rewrite E2 in L2. cbn [snd] in L2.
  apply emit_Ok in E3. destruct E3 as [_ L3].
  exists evs. rewrite L3, L2, L1. now rewrite <- app_assoc.
Qed.

Lemma copyLoop_keeps_file fullPath files k : forall record w record' w',
  forEach files (copyStep fullPath) record w = (Ok record', w') ->
  FS.is_file (fs w) k = true -> FS.is_file (fs w') k = true.
Proof.
  induction files as [|file files IH]; intros record w record' w' E Hf.
  - now injection E as <- <-.
  - cbn [forEach] in E. apply bind_Ok in E. destruct E as [r1 [w1 [E1 E]]].
    apply copyStep_Ok in E1. destruct E1 as [_ [content [_ Hk]]].
    apply (IH _ _ _ _ E). unfold FS.is_file. rewrite Hk.
    now apply update_is_file.
Qed.

(** The loop over the matching files, when it returned: each file has its
    line on the console and its target is a file; nothing but the targets
    changed. *)
Lemma copyLoop_taken fullPath files : forall record w record' w',
  forEach files (copyStep fullPath) record w = (Ok record', w') ->
  (exists evs, log w' = (log w ++ evs)%list)
  /\ (forall file, In file files ->
        In (copied fullPath file) (log w')
        /\ FS.is_file (fs w') (FS.resolve (join [fullPath; basename file])) = true)
  /\ (forall k,
        (forall file, In file files ->
           k <> FS.resolve (join [fullPath; basename file])) ->
        fs w' k = fs w k).
Proof.
  induction files as [|file files IH]; intros record w record' w' E.
  - injection E as <- <-. split; [exists []; now rewrite app_nil_r|].
    split; [intros ? []|reflexivity].
  - cbn [forEach] in E. apply bind_Ok in E. destruct E as [r1 [w1 [E1 E]]].
    destruct (copyStep_Ok_log _ _ _ _ _ _ E1) as [evs1 L1].
    apply copyStep_Ok in E1. destruct E1 as [_ [content [_ Hk]]].
    destruct (IH r1 w1 record' w' E) as [[evs L] [Htaken Hframe]].
    split; [|split].
    + exists ((evs1 ++ [copied fullPath file]) ++ evs)%list.
      rewrite L, L1. now rewrite <- !app_assoc.
    + intros f [<-|Hf]; [|now apply Htaken].
      split.
      * rewrite L, L1. apply in_or_app. left. apply in_or_app. right.
        apply in_or_app. right. now left.
      * apply (copyLoop_keeps_file _ _ _ _ _ _ _ E).
        unfold FS.is_file. rewrite Hk. now rewrite update_same.
    + intros k Hfar. rewrite (Hframe k (fun f Hf => Hfar f (or_intror Hf))).
      rewrite Hk. apply update_other. intros Ek.
      exact (Hfar file (or_introl eq_refl) (eq_sym Ek)).
Qed.

Lemma gather_Ok_log fullPath hierarchy fileMap record w record' w' :
  gather fullPath hierarchy fileMap record w = (Ok record', w') ->
  exists w0 w1 evs,
    fs w0 = fs w
    /\ In (available fileMap) (log w0)
    /\ forEach (matchingFiles hierarchy fileMap) (copyStep fullPath) record w0
       = (Ok record', w1)
    /\ fs w' = fs w1
    /\ log w' = (log w1 ++ evs)%list.
Proof.
  unfold gather. cbv zeta. intros E.
  apply bind_Ok in E. destruct E as [[] [wa [Ea E]]].
  apply bind_Ok in E. destruct E as [[] [wb [Eb E]]].
  apply bind_Ok in E. destruct E as [[] [wc [Ec E]]].
  apply bind_Ok in E. destruct E as [[] [wd [Ed E]]].
  apply bind_Ok in E. destruct E as [r1 [w1 [Eloop E]]].
  apply bind_Ok in E. destruct E as [[] [w2 [Efin E]]].
  injection E as <- <-.
  apply emit_Ok in Ea, Eb, Ec, Ed.
  destruct Ea as [Fa _], Eb as [Fb _], Ec as [Fc _], Ed as [Fd Ld].
  assert (Hfin : exists e, fs w2 = fs w1 /\ log w2 = (log w1 ++ [e])%list).
  { destruct (_ =? _)%nat; apply emit_Ok in Efin; destruct Efin; eauto. }
  destruct Hfin as [e [F2 L2]].
  exists wd, w1, [e]. split; [congruence|]. split.
  - rewrite Ld. apply in_or_app. right. now left.
  - split; [exact Eloop|]. split; assumption.
Qed.

(** C9. The candidates of a canvas row are the files of all the buckets of
    the index, whatever their directory.  When [processRecord] returns for
    a canvas row that takes files: the list of candidates that it prints
    is the flattened index; every file of every bucket that passes the
    file-name test of the row has been copied (its line is on the console
    and its target in the directory of the row is a file); and nothing
    else was written: what is neither the directory of the row, nor a
    directory above it, nor its [info.yml], nor the target of such a file
    is as before.  With the index of a scan, the files of the buckets are
    the scanned paths. *)
Theorem C9_candidate_pool_is_whole_index
  record outputDir inputDir (fileMap : FileMap) hierarchy w :
  field record "hierarchy" = Str hierarchy ->
  truthy_opt inputDir = true ->
  startsWith (terminalSegment hierarchy) "canvas" = true ->
  fst (processRecord record outputDir inputDir (Some fileMap) w) = Ok tt ->
  let w' := snd (processRecord record outputDir inputDir (Some fileMap) w) in
  let fullPath := fullPathOf outputDir hierarchy in
  let K := FS.resolve fullPath in
  let passes :=
    fileMatches (audioRow hierarchy)
      (canvasIndexOf ("_" ++ terminalSegment hierarchy)) in
  let target file := FS.resolve (join [fullPath; basename file]) in
  In (available fileMap) (log w')
  /\ (forall dirName bucket file,
        In (dirName, bucket) fileMap -> In file bucket -> passes file = true ->
        In (copied fullPath file) (log w')
        /\ FS.is_file (fs w') (target file) = true)
  /\ (forall k,
        (forall pre, In pre (FS.inits (snd K)) -> k <> (fst K, pre)) ->
        k <> child K "info.yml" ->
        (forall dirName bucket file,
           In (dirName, bucket) fileMap -> In file bucket ->
           passes file = true -> k <> target file) ->
        fs w' k = fs w k)
  /\ (forall normaliseFilePath entries,
        fileMap = scanInputDirectory normaliseFilePath entries [] ->
        forall file,
          (exists dirName bucket, In (dirName, bucket) fileMap /\ In file bucket)
          <-> In file (map normaliseFilePath entries)).
Proof.
  intros Hh Hin Hc Hok w' fullPath K passes target.
  assert (E : processRecord record outputDir inputDir (Some fileMap) w = (Ok tt, w')).
  { unfold w'. destruct (processRecord record outputDir inputDir (Some fileMap) w)
      as [[[]|e] w1]; [reflexivity|discriminate]. }
  clearbody w'. clear Hok.
  rewrite (processRecord_steps _ _ _ _ _ _ Hh) in E. cbv zeta in E.
  rewrite Hin, Hc in E. cbn [andb] in E. fold fullPath in E.
  apply bind_Ok in E. destruct E as [[] [w1 [Emk E]]].
  apply bind_Ok in E. destruct E as [record' [w2 [Emid E]]].
  apply finish_Ok in E. cbv zeta in E. fold K in E.
  destruct E as [info [_ [_ [Lfin Hk]]]].
  apply gather_Ok_log in Emid.
  destruct Emid as [w0 [w3 [evs [F0 [Hav [Eloop [F3 L3]]]]]]].
  apply copyLoop_taken in Eloop.
  destruct Eloop as [[evs0 L0] [Htaken Hframe]].
  apply liftFS_Ok in Emk. destruct Emk as [Emk _]. cbn [fs] in Emk.
  destruct (mkdirSync_result _ _ _ Emk) as [Hmk _]. fold K in Hmk.
  split; [|split; [|split]].
  - rewrite Lfin, L3, L0. apply in_or_app. left. apply in_or_app. now left.
  - intros dirName bucket file Hb Hf Hp.
    assert (Hm : In file (matchingFiles hierarchy fileMap))
      by (apply matchingFiles_pool; split; [now exists dirName, bucket|exact Hp]).
    destruct (Htaken file Hm) as [Hlog Hfile]. split.
    + rewrite Lfin, L3. apply in_or_app. now left.
    + unfold FS.is_file. rewrite Hk.
      apply update_is_file. now rewrite F3.
  - intros k Hpre Hyml Htargets.
    rewrite Hk, update_other by (intros Ek; now apply Hyml).
    rewrite F3, Hframe, F0, Hmk.
    + destruct (existsb _ _) eqn:X; [|reflexivity].
      exfalso. apply existsb_exists in X. destruct X as [pre [Hpin X]].
      destruct (fspath_eqb_spec (fst K, pre) k) as [Ek|]; [|discriminate].
      exact (Hpre pre Hpin (eq_sym Ek)).
    + intros file Hm. apply matchingFiles_pool in Hm.
      destruct Hm as [[dirName [bucket [Hb Hf]]] Hp].
      exact (Htargets dirName bucket file Hb Hf Hp).
  - intros normaliseFilePath entries -> file.
    pose proof (scanInputDirectory_files normaliseFilePath entries []) as P.
    cbn [allFiles app] in P.
    assert (Hall : forall fm : FileMap,
              (exists dirName bucket, In (dirName, bucket) fm /\ In file bucket)
              <-> In file (allFiles fm)).
    { intros fm. unfold allFiles. rewrite in_concat. split.
      - intros [d [b [Hb Hf]]]. exists b. split; [|assumption].
        apply in_map_iff. now exists (d, b).
      - intros [b [Hb Hf]]. apply in_map_iff in Hb.
        destruct Hb as [[d b'] [<- Hb]]. now exists d, b'. }
    rewrite Hall. split; intros H.
    + eapply Permutation_in; [exact P|exact H].
    + eapply Permutation_in; [apply Permutation_sym; exact P|exact H].
Qed.

(* ===================================================================== *)
(** ** Beyond the claims: the console                                     *)
(* ===================================================================== *)

Lemma addFileMetadata_emits (P : event -> Prop) filePath record :
  (forall msg, P (Warn msg)) -> emits_only P (addFileMetadata filePath record).
Proof.
  intros HP. unfold addFileMetadata.
  repeat match goal with
  | |- emits_only _ (if ?b then _ else _) => destruct b
  | |- emits_only _ (match ?x with _ => _ end) => destruct x
  | |- emits_only _ (ret _) => apply emits_only_ret
  | |- emits_only _ (bind _ _) => apply emits_only_bind; [|intros]
  | |- emits_only _ (warn _) => apply emits_only_emit; apply HP
  end.
Qed.

Lemma finish_log fullPath record w :
  log (snd (finish fullPath record w)) = log w.
Proof.
  unfold finish, bind, liftResult, liftFS.
  destruct (createInfoYml record) as [content|e]; [|reflexivity].
  destruct (FS.writeFileSync _ _ _); reflexivity.
Qed.

Lemma emits_only_bind_ret P A B (a : A) (k : A -> M B) :
  emits_only P (k a) -> emits_only P (bind (ret a) k).
Proof. intros H w. exact (H w). Qed.

(** X14. [console.warn] is called by [processRecord] for one reason only:
    a canvas row that takes files and finds no matching file in the index.
    Whenever the directory of such a row can be made, the warning
    [No matching files found for canvas _<segment>] is on the console. *)
Theorem X14_no_match_warning record outputDir inputDir fileMap hierarchy w :
  field record "hierarchy" = Str hierarchy ->
  let noMatch :=
    ConsoleWarn [AStr ("No matching files found for canvas "
                         ++ "_" ++ terminalSegment hierarchy)] in
  exists evs,
    log (snd (processRecord record outputDir inputDir fileMap w))
    = (log w ++ evs)%list
    /\ (forall args, In (ConsoleWarn args) evs ->
          ConsoleWarn args = noMatch
          /\ truthy_opt inputDir = true
          /\ startsWith (terminalSegment hierarchy) "canvas" = true
          /\ exists fm, fileMap = Some fm /\ matchingFiles hierarchy fm = [])
    /\ (forall fm f1,
          fileMap = Some fm ->
          truthy_opt inputDir = true ->
          startsWith (terminalSegment hierarchy) "canvas" = true ->
          matchingFiles hierarchy fm = [] ->
          FS.mkdirSync (fullPathOf outputDir hierarchy) (fs w) = Ok f1 ->
          In noMatch evs).
Proof.
  intros Hh noMatch.
  set (P := fun e : event =>
         forall args, e = ConsoleWarn args ->
           ConsoleWarn args = noMatch
           /\ truthy_opt inputDir = true
           /\ startsWith (terminalSegment hierarchy) "canvas" = true
           /\ exists fm, fileMap = Some fm /\ matchingFiles hierarchy fm = []).
  assert (Plog : forall args, P (ConsoleLog args)) by (intros a b E; discriminate E).
  assert (Pwarn : forall msg, P (Warn msg)) by (intros a b E; discriminate E).
  rewrite (processRecord_steps _ _ _ _ _ _ Hh). cbv zeta.
  match goal with |- context [log (snd (?c ?w0))] =>
    assert (Hc : emits_only P c); [|destruct (Hc w0) as [evs [E F]]]
  end.
  { apply emits_only_bind; [apply emits_only_liftFS|intros _].
    apply emits_only_bind.
    - destruct fileMap as [fm|]; [|apply emits_only_ret].
      destruct (truthy_opt inputDir) eqn:Hi; [|apply emits_only_ret].
      destruct (startsWith (terminalSegment hierarchy) "canvas") eqn:Hcv;
        [|apply emits_only_ret].
      cbn [andb]. unfold gather. cbv zeta.
      repeat (apply emits_only_bind; [apply emits_only_emit; apply Plog|intros _]).
      apply emits_only_bind.
      + apply emits_only_forEach. intros file r. unfold copyStep. cbv zeta.
        apply emits_only_bind; [apply emits_only_liftFS|intros _].
        apply emits_only_bind; [now apply addFileMetadata_emits|intros r'].
        apply emits_only_bind; [apply emits_only_emit; apply Plog|intros _].
        apply emits_only_ret.
      + intros r. apply emits_only_bind; [|intros _; apply emits_only_ret].
        destruct (List.length (matchingFiles hierarchy fm) =? 0)%nat eqn:El.
        * apply emits_only_emit. intros args [= <-].
          split; [reflexivity|]. split; [reflexivity|]. split; [reflexivity|].
          exists fm. split; [reflexivity|].
          apply Nat.eqb_eq in El. now apply length_zero_iff_nil.
        * apply emits_only_emit. apply Plog.
    - intros r. unfold finish.
      apply emits_only_bind; [apply emits_only_liftResult|intros c].
      apply emits_only_liftFS. }
  cbn [log] in E.
  exists (nestingEvents hierarchy ++ evs)%list.
  split; [now rewrite E, app_assoc|]. split.
  - intros args Hin. apply in_app_or in Hin. destruct Hin as [Hin|Hin].
    + exfalso. unfold nestingEvents in Hin.
      destruct (canvasViolation hierarchy), (manifestViolation hierarchy);
        cbn [app In] in Hin;
        repeat (destruct Hin as [Hin|Hin]; [discriminate Hin|]); exact Hin.
    + rewrite Forall_forall in F. exact (F _ Hin args eq_refl).
  - intros fm f1 -> Hi Hcv Hm Emk.
    apply in_or_app. right.
    revert E. rewrite Hi, Hcv. cbn [andb].
    unfold bind at 1. unfold liftFS at 1. cbn [fs log]. rewrite Emk.
    unfold bind at 1. unfold gather at 1. cbv zeta. rewrite Hm.
    cbn [forEach List.length Nat.eqb bind emit console_log console_warn ret fs log].
    rewrite finish_log. cbn [log].
    rewrite <- !app_assoc. intros E. apply app_inv_head in E.
    apply app_inv_head in E. rewrite <- E.
    cbn [app In]. do 4 right. now left.
Qed.

(* ===================================================================== *)
(** ** Beyond the claims: the rows of a file, one after the other         *)
(* ===================================================================== *)

Lemma forEach_app A S (l1 l2 : list A) (body : A -> S -> M S) : forall s w,
  forEach (l1 ++ l2) body s w
  = match forEach l1 body s w with
    | (Ok s1, w1) => forEach l2 body s1 w1
    | (Throw e, w1) => (Throw e, w1)
    end.
Proof.
  induction l1 as [|x l1 IH]; intros s w; [reflexivity|].
  cbn [app forEach]. unfold bind.
  destruct (body x s w) as [[s1|e] w1]; [apply IH|reflexivity].
Qed.

(** X15. [csvToHierarchy] takes the rows one after the other, against the
    same index, and stops at the first row that throws: the rows before it
    are written as if they were the whole file, the rows behind it are not
    looked at.  A row without a [hierarchy] throws a [TypeError] before
    anything of it reaches the file system or the diagnostics. *)
Theorem X15_csvToHierarchy_rows_in_order
  normaliseFilePath (records1 records2 : list CSVRow) outputDir inputDir
  entries w :
  let run := fun records =>
    csvToHierarchy normaliseFilePath records outputDir inputDir entries in
  let fileMap : FileMap :=
    if truthy_opt inputDir
    then scanInputDirectory normaliseFilePath entries [] else [] in
  run (records1 ++ records2)%list w
  = match run records1 w with
    | (Ok _, w1) => run records2 w1
    | (Throw e, w1) => (Throw e, w1)
    end
  /\ (forall record e w1 w2,
        run records1 w = (Ok tt, w1) ->
        processRecord record outputDir inputDir (Some fileMap) w1 = (Throw e, w2) ->
        run (records1 ++ record :: records2)%list w = (Throw e, w2))
  /\ (forall record w1,
        run records1 w = (Ok tt, w1) ->
        field record "hierarchy" = Undefined ->
        run (records1 ++ record :: records2)%list w
        = (Throw (TypeError "Cannot read properties of undefined (reading 'split')"),
           w1)).
Proof.
  cbv zeta. unfold csvToHierarchy.
  set (fileMap := if truthy_opt inputDir
                  then scanInputDirectory normaliseFilePath entries [] else []).
  assert (A : forall record e w1 w2,
            forEach records1
              (fun record _ => processRecord record outputDir inputDir (Some fileMap))
              tt w = (Ok tt, w1) ->
            processRecord record outputDir inputDir (Some fileMap) w1 = (Throw e, w2) ->
            forEach (records1 ++ record :: records2)%list
              (fun record _ => processRecord record outputDir inputDir (Some fileMap))
              tt w = (Throw e, w2)).
  { intros record e w1 w2 E1 E2. rewrite forEach_app, E1.
    cbn [forEach]. unfold bind. now rewrite E2. }
  split; [|split].
  - rewrite forEach_app.
    destruct (forEach records1 _ tt w) as [[[]|e] w1]; reflexivity.
  - exact A.
  - intros record w1 E1 Hh. apply (A record _ w1 w1 E1).
    unfold processRecord. now rewrite Hh.
Qed.

(* ===================================================================== *)
(** ** Beyond the claims: the command line                                *)
(* ===================================================================== *)

Lemma fs_say args w : fs (say args w) = fs w.
Proof. reflexivity. Qed.

(** The world when the checks of [main] are passed: what [main] has
    written to the console by then. *)
Definition announced (csvPath outputDir : string) (inputDir : option string)
  (w : world) : world :=
  let w := say [AStr "Starting conversion..."] w in
  let w := say [AStr "CSV Path:"; AStr csvPath] w in
  let w := say [AStr "Output Directory:"; AStr outputDir] w in
  let w :=
    say [AStr "Input Directory:";
         AStr (match inputDir with
               | Some dir => if truthy (Str dir) then dir else "Not provided"
               | None => "Not provided"
               end)] w in
  let w := if truthy_opt inputDir
           then say [AStr "Checking input directory exists..."] w else w in
  say [AStr "Checking CSV file exists..."] w.

Lemma fs_announced csvPath outputDir inputDir w :
  fs (announced csvPath outputDir inputDir w) = fs w.
Proof. unfold announced. cbv zeta. now destruct (truthy_opt inputDir). Qed.

(** X16. [main] ends the process with status 1 and leaves the file system
    as it found it when the CSV file or the output directory is not given
    (it then prints the usage and nothing else), when an input directory is
    given that does not exist, when the CSV file does not exist, when it
    cannot be read, and when the parser rejects it. *)
Theorem X16_main_fails_before_writing normaliseFilePath parse glob argv w :
  let run := main normaliseFilePath parse glob argv w in
  let csvPath := nth_error argv 2 in
  let outputDir := nth_error argv 3 in
  let inputDir := nth_error argv 4 in
  (truthy_opt csvPath = false \/ truthy_opt outputDir = false ->
   run = (Exit 1, w, usage))
  /\ (forall c o,
        csvPath = Some c -> c <> "" -> outputDir = Some o -> o <> "" ->
        (exists dir, inputDir = Some dir /\ dir <> ""
                     /\ existsSync dir (fs w) = false)
        \/ existsSync c (fs w) = false
        \/ (exists e, readFileSync c (fs w) = Throw e)
        \/ (exists content message,
              readFileSync c (fs w) = Ok content
              /\ parse content = inr message) ->
        fst (fst run) = Exit 1
        /\ fs (snd (fst run)) = fs w
        /\ List.length (snd run) = 2%nat).
Proof.
  cbv zeta. unfold main. split.
  - intros [H|H]; rewrite H; [reflexivity|]. now rewrite orb_true_r.
  - intros c o Hc Hcne Ho Hone Hfail. rewrite Hc, Ho.
    assert (Tc : truthy_opt (Some c) = true)
      by (cbn; now destruct (String.eqb_spec c "")).
    assert (To : truthy_opt (Some o) = true)
      by (cbn; now destruct (String.eqb_spec o "")).
    rewrite Tc, To. cbn [negb orb].
    unfold attempt. cbv zeta.
    set (w4 := say _ (say _ (say _ (say _ w)))).
    assert (F4 : fs w4 = fs w) by reflexivity. clearbody w4.
    destruct (nth_error argv 4) as [dir|] eqn:Hd.
    + destruct (truthy (Str dir)) eqn:Td.
      * rewrite fs_say, F4.
        destruct (existsSync dir (fs w)) eqn:Xd.
        -- rewrite fs_say, fs_say, F4.
           destruct Hfail as [[d' [[= <-] [_ X]]]|Hfail]; [congruence|].
           destruct (existsSync c (fs w)) eqn:Xc.
           ++ destruct Hfail as [X|Hfail]; [discriminate X|].
              unfold csvToHierarchyFile. rewrite fs_say, fs_say, F4.
              destruct Hfail as [[e R]|[content [message [R Pm]]]]; rewrite R.
              ** now repeat split.
              ** rewrite Pm. now repeat split.
           ++ now repeat split.
        -- now repeat split.
      * rewrite fs_say, F4.
        assert (Ed : dir = "")
          by (cbn in Td; now destruct (String.eqb_spec dir "")).
        destruct Hfail as [[d' [[= <-] [N _]]]|Hfail]; [contradiction|].
        destruct (existsSync c (fs w)) eqn:Xc.
        -- destruct Hfail as [X|Hfail]; [discriminate X|].
           unfold csvToHierarchyFile. rewrite fs_say, F4.
           destruct Hfail as [[e R]|[content [message [R Pm]]]]; rewrite R.
           ++ now repeat split.
           ++ rewrite Pm. now repeat split.
        -- now repeat split.
    + rewrite fs_say, F4.
      destruct Hfail as [[d' [X _]]|Hfail]; [discriminate X|].
      destruct (existsSync c (fs w)) eqn:Xc.
      * destruct Hfail as [X|Hfail]; [discriminate X|].
        unfold csvToHierarchyFile. rewrite fs_say, F4.
        destruct Hfail as [[e R]|[content [message [R Pm]]]]; rewrite R.
        -- now repeat split.
        -- rewrite Pm. now repeat split.
      * now repeat split.
Qed.

(** X17. When its checks pass and the CSV file parses, [main] is the
    conversion of the parsed rows against the scan of the input directory:
    it comes to its end, with the line of success as the last line of
    [console.log] and without any call of [console.error], exactly when the
    conversion returns; when a row throws, the process ends with status 1
    after the two calls of [console.error] that report what was thrown, and
    the file system stays as the failed conversion left it, with what the
    earlier rows wrote.  (What the rows themselves write with [warn] and
    [console.warn] is in the world that the conversion leaves.) *)
Theorem X17_main_runs_the_conversion
  normaliseFilePath parse glob argv w c o content records :
  nth_error argv 2 = Some c -> c <> "" ->
  nth_error argv 3 = Some o -> o <> "" ->
  (forall dir, nth_error argv 4 = Some dir -> dir <> "" ->
     existsSync dir (fs w) = true) ->
  existsSync c (fs w) = true ->
  readFileSync c (fs w) = Ok content ->
  parse content = inl records ->
  let inputDir := nth_error argv 4 in
  let entries :=
    match inputDir with
    | Some dir => if truthy (Str dir) then glob (dir ++ "/**/*") (fs w) else []
    | None => []
    end in
  main normaliseFilePath parse glob argv w
  = match csvToHierarchy normaliseFilePath records o inputDir entries
            (announced c o inputDir w) with
    | (Ok _, w') =>
        (Returned,
         say [AStr ("Successfully created BIIIF directory structure in " ++ o)] w',
         [])
    | (Throw e, w') =>
        (Exit 1, w',
         [[EStr "Error:"; EThrown (Native e)];
          [EStr "Stack trace:"; EStack (Native e)]])
    end.
Proof.
  intros Hc Hcne Ho Hone Hdir Xc R Pr. cbv zeta.
  unfold main. rewrite Hc, Ho.
  assert (Tc : truthy_opt (Some c) = true)
    by (cbn; now destruct (String.eqb_spec c "")).
  assert (To : truthy_opt (Some o) = true)
    by (cbn; now destruct (String.eqb_spec o "")).
  rewrite Tc, To. cbn [negb orb].
  unfold attempt, announced. cbv zeta.
  set (w4 := say _ (say _ (say _ (say _ w)))).
  assert (F4 : fs w4 = fs w) by reflexivity. clearbody w4.
  assert (Conv : forall w5, fs w5 = fs w ->
            match csvToHierarchyFile normaliseFilePath parse glob c o
                    (nth_error argv 4) w5 with
            | (Some t, w6) => (Some t, w6)
            | (None, w6) =>
                (None,
                 say [AStr ("Successfully created BIIIF directory structure in " ++ o)] w6)
            end
            = match csvToHierarchy normaliseFilePath records o (nth_error argv 4)
                      match nth_error argv 4 with
                      | Some dir =>
                          if truthy (Str dir) then glob (dir ++ "/**/*") (fs w) else []
                      | None => []
                      end w5 with
              | (Ok _, w') =>
                  (None,
                   say [AStr ("Successfully created BIIIF directory structure in " ++ o)] w')
              | (Throw e, w') => (Some (Native e), w')
              end).
  { intros w5 F5. unfold csvToHierarchyFile. rewrite F5, R, Pr.
    destruct (csvToHierarchy _ _ _ _ _ w5) as [[[]|e] w6]; reflexivity. }
  destruct (nth_error argv 4) as [dir|] eqn:Hd.
  - cbn [truthy_opt]. destruct (truthy (Str dir)) eqn:Td.
    + rewrite fs_say, F4, (Hdir dir eq_refl)
        by (cbn in Td; now destruct (String.eqb_spec dir "")).
      rewrite fs_say, fs_say, F4, Xc.
      rewrite Conv by (rewrite !fs_say; exact F4).
      destruct (csvToHierarchy _ _ _ _ _ _) as [[[]|e] w6]; reflexivity.
    + rewrite fs_say, F4, Xc. rewrite Conv by (rewrite !fs_say; exact F4).
      destruct (csvToHierarchy _ _ _ _ _ _) as [[[]|e] w6]; reflexivity.
  - cbn [truthy_opt]. rewrite fs_say, F4, Xc.
    rewrite Conv by (rewrite !fs_say; exact F4).
    destruct (csvToHierarchy _ _ _ _ _ _) as [[[]|e] w6]; reflexivity.
Qed.

(* ===================================================================== *)
(** ** Beyond the claims: rows and conversions as a whole                 *)
(* ===================================================================== *)

Lemma child_not_init K name pre :
  In pre (FS.inits (snd K)) -> (fst K, pre) <> child K name.
Proof.
  intros Hin E. unfold child in E. injection E as E.
  apply inits_length in Hin. rewrite E, length_app in Hin. simpl in Hin. lia.
Qed.

(** X18. A row that takes no files (it is not a canvas, or there is no
    input directory) is written from the CSV file alone: when
    [processRecord] returns, the [info.yml] of the row holds the document of
    the row as it was given, no other entry of the directory of the row has
    changed, and nothing but the warnings of the nesting check has been
    logged. *)
Theorem X18_rows_without_files record outputDir inputDir fileMap hierarchy w :
  field record "hierarchy" = Str hierarchy ->
  takesFiles hierarchy inputDir fileMap = false ->
  fst (processRecord record outputDir inputDir fileMap w) = Ok tt ->
  let w' := snd (processRecord record outputDir inputDir fileMap w) in
  let K := FS.resolve (fullPathOf outputDir hierarchy) in
  exists info,
    createInfo record = Ok info
    /\ fs w' (child K "info.yml") = Some (FS.File (dump info))
    /\ (forall name, name <> "info.yml" ->
          fs w' (child K name) = fs w (child K name))
    /\ log w' = (log w ++ nestingEvents hierarchy)%list.
Proof.
  intros Hh Hno Hok w' K.
  assert (E : processRecord record outputDir inputDir fileMap w = (Ok tt, w')).
  { unfold w'. destruct (processRecord record outputDir inputDir fileMap w)
      as [[[]|e] w1]; [reflexivity|discriminate]. }
  clearbody w'. clear Hok.
  rewrite (processRecord_steps _ _ _ _ _ _ Hh) in E. cbv zeta in E.
  apply bind_Ok in E. destruct E as [[] [w1 [Emk E]]].
  apply bind_Ok in E. destruct E as [record' [w2 [Emid E]]].
  assert (Hmid : record' = record /\ w2 = w1).
  { unfold takesFiles in Hno. destruct fileMap as [fm|].
    - rewrite Hno in Emid. injection Emid as <- <-. auto.
    - injection Emid as <- <-. auto. }
  destruct Hmid as [-> ->].
  apply finish_Ok in E. cbv zeta in E. fold K in E.
  destruct E as [info [Hinfo [_ [Hlog Hk]]]].
  apply liftFS_Ok in Emk. destruct Emk as [Emk Hlog1]. cbn [fs log] in Emk, Hlog1.
  destruct (mkdirSync_result _ _ _ Emk) as [Hmk _]. fold K in Hmk.
  exists info. split; [exact Hinfo|]. split; [|split].
  - rewrite Hk. apply update_same.
  - intros name Hn. rewrite Hk, update_other
      by (intros Ec; apply child_inj in Ec; congruence).
    rewrite Hmk.
    destruct (existsb _ _) eqn:X; [|reflexivity].
    exfalso. apply existsb_exists in X. destruct X as [pre [Hin X]].
    destruct (fspath_eqb_spec (fst K, pre) (child K name)) as [Ek|]; [|discriminate].
    exact (child_not_init K name pre Hin Ek).
  - congruence.
Qed.

Lemma keeps_forEach_in I A S (l : list A) (body : A -> S -> M S) :
  (forall x s, In x l -> keeps I (body x s)) ->
  forall s, keeps I (forEach l body s).
Proof.
  induction l as [|x l IH]; intros Hb s; simpl.
  - apply keeps_ret.
  - apply keeps_bind; [apply Hb; now left|].
    intros s'. apply IH. intros y t Hy. apply Hb. now right.
Qed.

Lemma processRecord_no_hierarchy record outputDir inputDir fileMap w :
  (forall hierarchy, field record "hierarchy" <> Str hierarchy) ->
  snd (processRecord record outputDir inputDir fileMap w) = w
  /\ exists e, fst (processRecord record outputDir inputDir fileMap w) = Throw e.
Proof.
  intros H. unfold processRecord.
  destruct (field record "hierarchy") as [|h|n].
  - split; [reflexivity|eexists; reflexivity].
  - exfalso. now apply (H h).
  - split; [reflexivity|eexists; reflexivity].
Qed.

(** X19. When [csvToHierarchy] returns, every row has a hierarchy, and for
    every row without [..] in it the directory of the row exists below the
    output directory and holds a file [info.yml], whatever the rows behind
    it did. *)
Theorem X19_conversion_writes_every_row
  normaliseFilePath (records : list CSVRow) outputDir inputDir entries w :
  fst (csvToHierarchy normaliseFilePath records outputDir inputDir entries w)
  = Ok tt ->
  let w' :=
    snd (csvToHierarchy normaliseFilePath records outputDir inputDir entries w) in
  forall record, In record records ->
    exists hierarchy,
      field record "hierarchy" = Str hierarchy
      /\ (~ In ".." (split "/" hierarchy) ->
          let K := (fst (FS.resolve outputDir),
                    (snd (FS.resolve outputDir)
                       ++ filter keptName (rewrittenParts hierarchy))%list) in
          FS.is_dir (fs w') K = true
          /\ FS.is_file (fs w') (child K "info.yml") = true).
Proof.
  unfold csvToHierarchy. cbv zeta.
  set (fileMap := if truthy_opt inputDir
                  then scanInputDirectory normaliseFilePath entries [] else []).
  set (body := fun (record : CSVRow) (_ : unit) =>
                 processRecord record outputDir inputDir (Some fileMap)).
  revert w. induction records as [|r records IH]; intros w Hok record Hin;
    [contradiction|].
  assert (E : forEach (r :: records) body tt w
              = (Ok tt, snd (forEach (r :: records) body tt w))).
  { destruct (forEach (r :: records) body tt w) as [[[]|e] w1];
      [reflexivity|discriminate]. }
  set (w' := snd (forEach (r :: records) body tt w)) in *. clearbody w'.
  cbn [forEach] in E. apply bind_Ok in E. destruct E as [[] [w1 [E1 E]]].
  assert (Hrest : w' = snd (forEach records body tt w1)) by now rewrite E.
  destruct Hin as [<-|Hin].
  - unfold body in E1.
    destruct (field r "hierarchy") as [|hierarchy|n] eqn:Hh;
      try (unfold processRecord in E1; rewrite Hh in E1; discriminate E1).
    exists hierarchy. split; [reflexivity|]. intros Hdd.
    destruct (processRecord_row_written r outputDir inputDir (Some fileMap)
                hierarchy w w1 Hh E1) as [Hd [r' [info [_ [_ Hf]]]]].
    rewrite (resolve_fullPathOf outputDir hierarchy Hdd) in Hd, Hf. cbv zeta.
    rewrite Hrest. split.
    + apply (keeps_forEach_in (fun f => FS.is_dir f _ = true)); [|exact Hd].
      intros x s _. apply processRecord_keeps_dir.
    + apply (keeps_forEach_in (fun f => FS.is_file f _ = true)).
      * intros x s _. apply processRecord_keeps_file.
      * unfold FS.is_file. now rewrite Hf.
  - rewrite Hrest. apply IH; [now rewrite E|exact Hin].
Qed.

(** X20. Whatever a conversion does, whether it returns or throws, it
    writes only to the directories of its rows, to the directories above
    them and to the entries of the directories of its rows: any other place
    of the file system, the files of the input directory among them, is as
    before. *)
Theorem X20_conversion_frame
  normaliseFilePath (records : list CSVRow) outputDir inputDir entries w k :
  (forall record hierarchy,
     In record records -> field record "hierarchy" = Str hierarchy ->
     let K := FS.resolve (fullPathOf outputDir hierarchy) in
     (forall pre, In pre (FS.inits (snd K)) -> k <> (fst K, pre))
     /\ (forall name, k <> child K name)) ->
  fs (snd (csvToHierarchy normaliseFilePath records outputDir inputDir entries w)) k
  = fs w k.
Proof.
  intros H. unfold csvToHierarchy. cbv zeta.
  apply (keeps_forEach_in (fun f => f k = fs w k)); [|reflexivity].
  intros record [] Hin w0 Hw0.
  destruct (field record "hierarchy") as [|hierarchy|n] eqn:Hh.
  - unfold processRecord. rewrite Hh. exact Hw0.
  - destruct (H record hierarchy Hin Hh) as [Hpre Hchild].
    apply (processRecord_keeps_far record outputDir inputDir (Some _) hierarchy k
             (fs w k) Hh); [|exact Hw0].
    intros [[pre [Hp E]]|[name E]].
    + exact (Hpre pre Hp E).
    + exact (Hchild name E).
  - unfold processRecord. rewrite Hh. exact Hw0.
Qed.

(** X21. A [width] or a [height] that the CSV file gives as a non-empty
    text is in the document as the number that [parseInt] reads from the
    text, never as the text: the integer itself when the text is made of
    decimal digits, and NaN, not an absent key, when the text has no digit
    at all. *)
Theorem X21_createInfoYml_dimensions_are_numbers record info k s :
  createInfo record = Ok info ->
  k = "width" \/ k = "height" ->
  Obj.get record k = Some (Str s) ->
  s <> "" ->
  Obj.get info k = Some (YScalar (Num (parseInt s)))
  /\ (forallb_str is_digit s = true ->
      parseInt s = number_of_Z (digitsValue 0 s) false)
  /\ (no_digit s = true -> parseInt s = NaN).
Proof.
  intros Hinfo Hk Hs Hne.
  assert (Hin : In k technical) by (destruct Hk as [->| ->]; simpl; auto).
  rewrite (createInfo_technical record info k Hin Hinfo).
  unfold field, technicalEntry. rewrite Hs. cbn [truthy toString].
  assert (Ek : (k =? "duration") = false) by (destruct Hk as [->| ->]; reflexivity).
  rewrite Ek.
  destruct (String.eqb_spec s "") as [->|_]; [contradiction|]. cbn [negb].
  split; [reflexivity|]. split.
  - intros Hd. now apply parseInt_digits.
  - apply parseInt_no_digit.
Qed.

(* ===================================================================== *)
(** ** Beyond the claims: runs that throw, and the kinds of canvases      *)
(* ===================================================================== *)

(** X22. A file where the directory of the row or a directory above it
    should be stops the row before it writes anything: [processRecord]
    throws, the warnings of the nesting check are in the diagnostics, and
    the file system is as it was.  (The directories above such a file are
    there already, so that [mkdirSync], which is the first action on the
    file system, has made none when it throws.) *)
Theorem X22_processRecord_mkdir_failure
  record outputDir inputDir fileMap hierarchy w :
  field record "hierarchy" = Str hierarchy ->
  let K := FS.resolve (fullPathOf outputDir hierarchy) in
  (exists pre, In pre (FS.inits (snd K))
               /\ FS.is_file (fs w) (fst K, pre) = true) ->
  let run := processRecord record outputDir inputDir fileMap w in
  (exists e, fst run = Throw e)
  /\ (forall k, fs (snd run) k = fs w k)
  /\ log (snd run) = (log w ++ nestingEvents hierarchy)%list.
Proof.
  intros Hh K [pre [Hin Hf]] run.
  assert (Emk : exists e,
            FS.mkdirSync (fullPathOf outputDir hierarchy) (fs w) = Throw e).
  { unfold FS.mkdirSync. cbv zeta. fold K.
    destruct (FS.is_file (fs w) K) eqn:Fk; [eauto|].
    destruct (existsb (fun pre => FS.is_file (fs w) (fst K, pre))
                (FS.inits (snd K))) eqn:X; [eauto|].
    exfalso.
    assert (T : existsb (fun pre => FS.is_file (fs w) (fst K, pre))
                  (FS.inits (snd K)) = true)
      by (apply existsb_exists; eauto).
    congruence. }
  destruct Emk as [e E].
  assert (R : run = (Throw e, {| fs := fs w;
                                 log := (log w ++ nestingEvents hierarchy)%list |})).
  { unfold run. rewrite (processRecord_steps _ _ _ _ _ _ Hh). cbv zeta.
    unfold bind at 1. unfold liftFS. cbn [fs log]. now rewrite E. }
  rewrite R. cbn [fst snd fs log].
  split; [now exists e|]. split; reflexivity.
Qed.

(** A name without a slash behind a directory resolves to an entry of the
    directory under that very name, if to an entry at all. *)
Lemma resolve_join_entry F name x :
  noslash name = true ->
  FS.resolve (join [F; name]) = child (FS.resolve F) x -> x = name.
Proof.
  intros Hn.
  rewrite resolve_join_parts by (constructor; [exact Hn|constructor]).
  cbn [fold_left]. unfold child. rewrite fst_resolve.
  set (segs := snd (FS.resolve F)).
  intros [= E]. revert E. unfold normalizeStep.
  assert (L : forall l : list string, l <> (l ++ [x])%list).
  { intros l El. apply (f_equal (@List.length string)) in El.
    rewrite length_app in El. simpl in El. lia. }
  destruct ((name =? "") || (name =? "."))%bool.
  - rewrite rev_involutive. intros E. now apply L in E.
  - destruct (name =? "..") eqn:Edd.
    + apply String.eqb_eq in Edd. subst name.
      destruct (rev segs) as [|top below] eqn:Er.
      * assert (segs = []) as ->
          by (apply (f_equal (@rev string)) in Er; now rewrite rev_involutive in Er).
        destruct (negb (isAbsolute F)); cbn [rev app]; [|discriminate].
        now intros [= <-].
      * assert (Es : segs = (rev below ++ [top])%list)
          by (apply (f_equal (@rev string)) in Er; now rewrite rev_involutive in Er).
        destruct (top =? "..").
        -- destruct (negb (isAbsolute F)).
           ++ change (rev (".." :: top :: below))
                with (rev (top :: below) ++ [".."])%list.
              rewrite <- Er, rev_involutive. intros E.
              apply app_inj_tail in E. now destruct E.
           ++ rewrite <- Er, rev_involutive. intros E. now apply L in E.
        -- rewrite Es. intros E.
           apply (f_equal (@List.length string)) in E.
           rewrite !length_app in E. simpl in E. lia.
    + cbn [rev]. rewrite rev_involutive. intros E.
      apply app_inj_tail in E. now destruct E.
Qed.

Lemma bind_result A B (c : M A) (k : A -> M B) w :
  bind c k w
  = match c w with
    | (Ok a, w1) => k a w1
    | (Throw e, w1) => (Throw e, w1)
    end.
Proof. reflexivity. Qed.

Lemma finish_Throw fullPath record w e w' :
  finish fullPath record w = (Throw e, w') -> fs w' = fs w.
Proof.
  unfold finish, bind, liftResult, liftFS.
  destruct (createInfoYml record) as [content|e0]; [|now intros [= _ <-]].
  destruct (FS.writeFileSync _ _ _); [discriminate|now intros [= _ <-]].
Qed.

(** X23. The sidecar is the last thing that [processRecord] writes: a run
    that throws, at whatever point, leaves the [info.yml] of the row as it
    was before the run, absent if it was absent. *)
Theorem X23_processRecord_throw_keeps_sidecar
  record outputDir inputDir fileMap hierarchy w :
  field record "hierarchy" = Str hierarchy ->
  (exists e, fst (processRecord record outputDir inputDir fileMap w) = Throw e) ->
  let K := FS.resolve (fullPathOf outputDir hierarchy) in
  fs (snd (processRecord record outputDir inputDir fileMap w)) (child K "info.yml")
  = fs w (child K "info.yml").
Proof.
  intros Hh [e He] K. revert He.
  rewrite (processRecord_steps _ _ _ _ _ _ Hh). cbv zeta.
  set (w0 := {| fs := fs w; log := (log w ++ nestingEvents hierarchy)%list |}).
  set (I := fun f : FS.t => f (child K "info.yml") = fs w (child K "info.yml")).
  assert (Hmk : keeps I (liftFS (FS.mkdirSync (fullPathOf outputDir hierarchy)))).
  { apply keeps_liftFS. intros f f' E Hf. unfold I in *.
    destruct (mkdirSync_result _ _ _ E) as [Hk _]. rewrite Hk. fold K.
    destruct (existsb _ _) eqn:X; [|exact Hf].
    exfalso. apply existsb_exists in X. destruct X as [pre [Hin X]].
    destruct (fspath_eqb_spec (fst K, pre) (child K "info.yml")) as [Ek|];
      [|discriminate].
    exact (child_not_init K _ pre Hin Ek). }
  assert (Hmid : keeps I
            match fileMap with
            | Some fm =>
                if truthy_opt inputDir
                   && startsWith (terminalSegment hierarchy) "canvas"
                then gather (fullPathOf outputDir hierarchy) hierarchy fm record
                else ret record
            | None => ret record
            end).
  { destruct fileMap as [fm|]; [|apply keeps_ret].
    destruct (truthy_opt inputDir && _); [|apply keeps_ret].
    unfold gather. cbv zeta.
    repeat (apply keeps_bind; [apply keeps_emit|intros _]).
    apply keeps_bind.
    - apply keeps_forEach_in. intros file r Hin. unfold copyStep. cbv zeta.
      apply keeps_bind.
      + apply keeps_liftFS. intros f f' E Hf. unfold I in *.
        destruct (copyFileSync_result _ _ _ _ E) as [content [_ [_ Hk]]].
        rewrite Hk, update_other; [exact Hf|].
        intros Ec. apply resolve_join_entry in Ec; [|apply basename_noslash].
        unfold matchingFiles in Hin. apply filter_In in Hin.
        destruct Hin as [_ Hm]. exact (matched_not_yml _ _ _ Hm (eq_sym Ec)).
      + intros _. apply keeps_bind; [apply keeps_addFileMetadata|intros r'].
        apply keeps_bind; [apply keeps_emit|intros _]. apply keeps_ret.
    - intros r. apply keeps_bind; [|intros _; apply keeps_ret].
      destruct (_ =? _)%nat; apply keeps_emit. }
  pose proof (Hmk w0 eq_refl) as H1.
  rewrite bind_result.
  destruct (liftFS (FS.mkdirSync (fullPathOf outputDir hierarchy)) w0)
    as [[[]|e1] w1]; [|intros _; exact H1].
  cbn [snd] in H1. pose proof (Hmid w1 H1) as H2.
  rewrite bind_result.
  match goal with
  | |- context [match ?m w1 with _ => _ end] => destruct (m w1) as [[r|e2] w2]
  end; [|intros _; exact H2].
  cbn [snd] in H2.
  destruct (finish (fullPathOf outputDir hierarchy) r w2) as [[[]|e3] w3] eqn:Ef;
    [discriminate|].
  intros _. cbn [snd]. apply finish_Throw in Ef. now rewrite Ef.
Qed.

(** The matching files of an audio canvas are media files, those of any
    other canvas are images. *)
Lemma matching_kind hierarchy fileMap file :
  In file (matchingFiles hierarchy fileMap) ->
  isImage file = negb (audioRow hierarchy).
Proof.
  unfold matchingFiles. intros Hin. apply filter_In in Hin.
  destruct Hin as [_ Hm]. revert Hm. unfold fileMatches, isImage. cbv zeta.
  destruct (audioRow hierarchy); cbn [negb].
  - destruct (String.eqb_spec (toLowerCase (extname file)) ".mp3") as [->|_];
      [reflexivity|discriminate].
  - destruct (existsb (String.eqb (toLowerCase (extname file))) [".jpg"; ".jpeg"])
      eqn:X; [|discriminate].
    intros _. apply existsb_exists in X. destruct X as [x [Hx E]].
    apply String.eqb_eq in E. rewrite E.
    destruct Hx as [<-|[<-|[]]]; reflexivity.
Qed.

Lemma rowAfter_image filePath record :
  isImage filePath = true ->
  Obj.get (rowAfter filePath record) "duration" = Obj.get record "duration".
Proof.
  intros H. unfold rowAfter. rewrite H.
  destruct (sharp_metadata filePath) as [md|]; [|reflexivity]. cbv zeta.
  rewrite !get_assignWhen. cbn [String.eqb Ascii.eqb Bool.eqb].
  now rewrite !andb_false_r.
Qed.

Lemma rowAfter_media filePath record :
  isImage filePath = false ->
  Obj.get (rowAfter filePath record) "width" = Obj.get record "width"
  /\ Obj.get (rowAfter filePath record) "height" = Obj.get record "height".
Proof.
  intros H. unfold rowAfter. rewrite H.
  destruct (isMedia filePath); [|auto].
  destruct (ffprobe filePath) as [[[[[|stream0 rest]|]]|]|]; auto.
  rewrite !get_assignWhen. cbn [String.eqb Ascii.eqb Bool.eqb].
  now rewrite !andb_false_r.
Qed.

Lemma copyLoop_kind fullPath (b : bool) files : forall record w record' w',
  (forall file, In file files -> isImage file = b) ->
  forEach files (copyStep fullPath) record w = (Ok record', w') ->
  if b
  then Obj.get record' "duration" = Obj.get record "duration"
  else Obj.get record' "width" = Obj.get record "width"
       /\ Obj.get record' "height" = Obj.get record "height".
Proof.
  induction files as [|file files IH]; intros record w record' w' Hk E.
  - injection E as <- _. destruct b; auto.
  - cbn [forEach] in E. apply bind_Ok in E. destruct E as [r1 [w1 [E1 E]]].
    apply copyStep_Ok in E1. destruct E1 as [Hrow _].
    rewrite addFileMetadata_row in Hrow. injection Hrow as <-.
    specialize (IH _ _ _ _ (fun f Hf => Hk f (or_intror Hf)) E).
    pose proof (Hk file (or_introl eq_refl)) as Hb.
    destruct b.
    + rewrite IH. now apply rowAfter_image.
    + destruct IH as [-> ->]. now apply rowAfter_media.
Qed.

(** What the CSV file alone gives for a technical field of the document. *)
Definition fromRow (record : CSVRow) (k : string) : option yaml :=
  if truthy (field record k) then Some (technicalEntry k (field record k))
  else None.

(** X24. Which probes a canvas row can draw on is fixed by its parent:
    under a parent named exactly [audio] only media files are matched, so
    [width] and [height] of the document are what the CSV file gives and
    nothing else; under any other parent only images are matched, so the
    [duration] of the document is what the CSV file gives and nothing
    else. *)
Theorem X24_canvas_kind_limits_the_probes
  record outputDir inputDir fileMap hierarchy w :
  field record "hierarchy" = Str hierarchy ->
  truthy_opt inputDir = true ->
  startsWith (terminalSegment hierarchy) "canvas" = true ->
  fst (processRecord record outputDir inputDir (Some fileMap) w) = Ok tt ->
  let w' := snd (processRecord record outputDir inputDir (Some fileMap) w) in
  let K := FS.resolve (fullPathOf outputDir hierarchy) in
  (forall file, In file (matchingFiles hierarchy fileMap) ->
     isImage file = negb (audioRow hierarchy))
  /\ exists info,
       fs w' (child K "info.yml") = Some (FS.File (dump info))
       /\ (audioRow hierarchy = true ->
           Obj.get info "width" = fromRow record "width"
           /\ Obj.get info "height" = fromRow record "height")
       /\ (audioRow hierarchy = false ->
           Obj.get info "duration" = fromRow record "duration").
Proof.
  intros Hh Hin Hc Hok w' K.
  split; [intros file; apply matching_kind|].
  assert (E : processRecord record outputDir inputDir (Some fileMap) w = (Ok tt, w')).
  { unfold w'. destruct (processRecord record outputDir inputDir (Some fileMap) w)
      as [[[]|e] w1]; [reflexivity|discriminate]. }
  clearbody w'. clear Hok.
  rewrite (processRecord_steps _ _ _ _ _ _ Hh) in E. cbv zeta in E.
  rewrite Hin, Hc in E. cbn [andb] in E.
  apply bind_Ok in E. destruct E as [[] [w1 [_ E]]].
  apply bind_Ok in E. destruct E as [record' [w2 [Emid E]]].
  apply finish_Ok in E. cbv zeta in E. fold K in E.
  destruct E as [info [Hinfo [_ [_ Hk]]]].
  apply gather_Ok in Emid. destruct Emid as [w0 [w3 [_ [Eloop _]]]].
  pose proof (copyLoop_kind _ (negb (audioRow hierarchy)) _ _ _ _ _
                (fun f Hf => matching_kind hierarchy fileMap f Hf) Eloop) as Hkind.
  exists info. split; [rewrite Hk; apply update_same|].
  unfold fromRow, field.
  split; intros Ha; rewrite Ha in Hkind; cbn [negb] in Hkind.
  - destruct Hkind as [Ew Eh]. split.
    + rewrite (createInfo_technical record' info "width") by (simpl; auto || exact Hinfo).
      unfold field. now rewrite Ew.
    + rewrite (createInfo_technical record' info "height") by (simpl; auto || exact Hinfo).
      unfold field. now rewrite Eh.
  - rewrite (createInfo_technical record' info "duration") by (simpl; auto || exact Hinfo).
    unfold field. now rewrite Hkind.
Qed.

Lemma child_same_parent K K' name name' :
  child K name = child K' name' -> K = K'.
Proof.
  destruct K as [a l], K' as [a' l']. unfold child. cbn [fst snd].
  intros [= -> E]. apply app_inj_tail in E. destruct E as [-> _]. reflexivity.
Qed.

(** A run that returned has left the files alone that are no entries of
    the directory of its row. *)
Lemma processRecord_Ok_keeps_file
  record outputDir inputDir fileMap hierarchy w w' k content :
  field record "hierarchy" = Str hierarchy ->
  processRecord record outputDir inputDir fileMap w = (Ok tt, w') ->
  fs w k = Some (FS.File content) ->
  (forall name, k <> child (FS.resolve (fullPathOf outputDir hierarchy)) name) ->
  fs w' k = Some (FS.File content).
Proof.
  intros Hh E Hk Hchild.
  set (K := FS.resolve (fullPathOf outputDir hierarchy)) in *.
  assert (Hfar : ~ near K k).
  { intros [[pre [Hin Ek]]|[name Ek]]; [|exact (Hchild name Ek)].
    pose proof E as E'.
    rewrite (processRecord_steps _ _ _ _ _ _ Hh) in E'. cbv zeta in E'.
    apply bind_Ok in E'. destruct E' as [[] [w1 [Emk _]]].
    apply liftFS_Ok in Emk. destruct Emk as [Emk _]. cbn [fs] in Emk.
    destruct (mkdirSync_result _ _ _ Emk) as [_ Hpre]. fold K in Hpre.
    specialize (Hpre pre Hin). rewrite <- Ek in Hpre.
    unfold FS.is_file in Hpre. rewrite Hk in Hpre. discriminate. }
  pose proof (processRecord_keeps_far record outputDir inputDir fileMap hierarchy
                k (Some (FS.File content)) Hh Hfar w Hk) as H.
  now rewrite E in H.
Qed.

(** X25. Rows are not told apart by their directories: when several rows
    of a conversion that returns resolve to the same directory, the
    [info.yml] of that directory is the document of the last of them.  It
    holds the document of a row whenever no row behind it goes to the same
    directory. *)
Theorem X25_last_row_of_a_directory_wins
  normaliseFilePath (records1 records2 : list CSVRow) record outputDir
  inputDir entries w hierarchy :
  field record "hierarchy" = Str hierarchy ->
  let K := FS.resolve (fullPathOf outputDir hierarchy) in
  (forall later h, In later records2 -> field later "hierarchy" = Str h ->
     FS.resolve (fullPathOf outputDir h) <> K) ->
  fst (csvToHierarchy normaliseFilePath (records1 ++ record :: records2)%list
         outputDir inputDir entries w) = Ok tt ->
  let w' :=
    snd (csvToHierarchy normaliseFilePath (records1 ++ record :: records2)%list
           outputDir inputDir entries w) in
  exists record' info,
    extracts record record'
    /\ createInfo record' = Ok info
    /\ fs w' (child K "info.yml") = Some (FS.File (dump info)).
Proof.
  intros Hh K Hlater. unfold csvToHierarchy. cbv zeta.
  set (fileMap := if truthy_opt inputDir
                  then scanInputDirectory normaliseFilePath entries [] else []).
  set (body := fun (record : CSVRow) (_ : unit) =>
                 processRecord record outputDir inputDir (Some fileMap)).
  rewrite forEach_app.
  destruct (forEach records1 body tt w) as [[[]|e1] w1]; [|discriminate].
  cbn [forEach]. rewrite bind_result.
  destruct (body record tt w1) as [[[]|e2] w2] eqn:E2; [|discriminate].
  unfold body in E2.
  destruct (processRecord_row_written _ _ _ _ _ _ _ Hh E2)
    as [_ [record' [info [Hx [Hinfo Hf]]]]].
  fold K in Hf. intros Hok.
  exists record', info. split; [exact Hx|]. split; [exact Hinfo|].
  clear E2. revert w2 Hf Hok.
  induction records2 as [|later records2 IH]; intros w2 Hf Hok; [exact Hf|].
  cbn [forEach] in *. rewrite bind_result in *.
  destruct (body later tt w2) as [[[]|e3] w3] eqn:E3; [|discriminate].
  unfold body in E3.
  apply IH.
  - intros l h Hin. apply Hlater. now right.
  - destruct (field later "hierarchy") as [|h|n] eqn:Hl;
      try (unfold processRecord in E3; rewrite Hl in E3; discriminate E3).
    apply (processRecord_Ok_keeps_file later outputDir inputDir (Some fileMap) h
             w2 w3 _ _ Hl E3 Hf).
    intros name Ec. apply (Hlater later h (or_introl eq_refl) Hl).
    symmetry. exact (child_same_parent _ _ _ _ Ec).
  - exact Hok.
Qed.

End Program.

(* ===================================================================== *)
(** ** Concrete collaborators and runs                                    *)
(* ===================================================================== *)

Module Demo.

(** Probes that answer from a table and throw for any other path. *)
Definition sharp (table : Obj.obj ImageMetadata) (path : string)
  : option ImageMetadata :=
  Obj.get table path.

Definition ffprobe (table : Obj.obj ProbeInfo) (path : string)
  : option (option ProbeInfo) :=
  match Obj.get table path with
  | Some info => Some (Some info)
  | None => None
  end.

(** A stand-in for the YAML writer: the keys of the document, one a line. *)
Definition dump (info : Info) : string :=
  String.concat (String "010" "") (Obj.keys info).

Definition start : world := {| fs := FS.empty; log := [] |}.

End Demo.

(** C5, as stated, fails: the terminal segment [canvas_manifest] starts with
    [canvas], and the row still gets the manifest-inside-manifest warning. *)
Lemma C5_counterexample :
  let record := row_of_cells [("hierarchy", "manifest1/canvas_manifest"); ("label", "Page")] in
  startsWith (terminalSegment "manifest1/canvas_manifest") "canvas" = true
  /\ log (snd (processRecord (Demo.sharp []) (Demo.ffprobe []) Demo.dump
                 record "out" None None Demo.start))
     = [Warn "Warning: Manifest canvas_manifest cannot be inside another manifest. Current parent: manifest1"].
Proof. split; vm_compute; reflexivity. Qed.

Lemma C5_witness :
  let record := row_of_cells [("hierarchy", "manifest1/canvas_manifest"); ("label", "Page")] in
  let w := Demo.start in
  field record "hierarchy" = Str "manifest1/canvas_manifest"
  /\ exists evs,
       log (snd (processRecord (Demo.sharp []) (Demo.ffprobe []) Demo.dump
                   record "out" None None w))
       = (log w ++ evs)%list
       /\ (In (Warn (manifestWarning "canvas_manifest" "manifest1")) evs <->
           includes "canvas_manifest" "manifest" = true
           /\ truthy_opt (parentSegment "manifest1/canvas_manifest") = true
           /\ includes "manifest1" "manifest" = true)
       /\ (In (Warn (canvasWarning "canvas_manifest" "manifest1")) evs <->
           startsWith "canvas_manifest" "canvas" = true
           /\ truthy_opt (parentSegment "manifest1/canvas_manifest") = true
           /\ includes "manifest1" "manifest" = false)
       /\ (forall e, In e evs -> nesting_warning e = true ->
           e = Warn (canvasWarning "canvas_manifest" "manifest1")
           \/ e = Warn (manifestWarning "canvas_manifest" "manifest1")).
Proof.
  split; [reflexivity|].
  apply (C5_role_tests_independent (Demo.sharp []) (Demo.ffprobe []) Demo.dump
           (row_of_cells [("hierarchy", "manifest1/canvas_manifest"); ("label", "Page")])
           "out" None None "manifest1/canvas_manifest" Demo.start).
  reflexivity.
Defined.

Lemma C10_witness :
  let record := row_of_cells [("hierarchy", "canvas1"); ("label", "Page")] in
  let w := Demo.start in
  field record "hierarchy" = Str "canvas1"
  /\ List.length (split "/" "canvas1") = 1%nat
  /\ exists evs,
       log (snd (processRecord (Demo.sharp []) (Demo.ffprobe []) Demo.dump
                   record "out" (Some "in") (Some [("in", ["in/a_01.jpg"])]) w))
       = (log w ++ evs)%list
       /\ (forall e, In e evs -> nesting_warning e = false)
       /\ (forall l p, ~ In (Warn (canvasWarning l p)) evs)
       /\ (forall l p, ~ In (Warn (manifestWarning l p)) evs).
Proof.
  split; [reflexivity|]. split; [reflexivity|].
  apply (C10_single_segment_no_nesting_warning
           (Demo.sharp []) (Demo.ffprobe []) Demo.dump
           (row_of_cells [("hierarchy", "canvas1"); ("label", "Page")])
           "out" (Some "in") (Some [("in", ["in/a_01.jpg"])]) "canvas1" Demo.start);
    reflexivity.
Defined.

(** C2, as stated, fails: for the terminal segment [canvas_page2] the index
    is NaN, not the integer 2 that its digits form; for [canvas1b2] it is 1,
    not 12. *)
Lemma C2_counterexample :
  startsWith "canvas_page2" "canvas" = true
  /\ canvasIndexOf ("_" ++ "canvas_page2") = NaN
  /\ parseInt (keepDigits ("_" ++ "canvas_page2")) = number_of_Z 2 false
  /\ canvasIndexOf ("_" ++ "canvas_page2")
     <> parseInt (keepDigits ("_" ++ "canvas_page2"))
  /\ startsWith "canvas1b2" "canvas" = true
  /\ canvasIndexOf ("_" ++ "canvas1b2") = number_of_Z 1 false
  /\ parseInt (keepDigits ("_" ++ "canvas1b2")) = number_of_Z 12 false.
Proof. repeat split; try (vm_compute; reflexivity). vm_compute. discriminate. Qed.

Lemma C2_witness :
  startsWith "canvas12" "canvas" = true
  /\ canvasIndexOf ("_" ++ "canvas12") = parseInt (dropWhile canvasClass "canvas12")
  /\ (forall d, "canvas12" = "canvas" ++ d -> d <> "" -> forallb_str is_digit d = true ->
        canvasIndexOf ("_" ++ "canvas12") = number_of_Z (digitsValue 0 d) false)
  /\ (no_digit "canvas12" = true ->
        canvasIndexOf ("_" ++ "canvas12") = NaN
        /\ forall isAudio file,
             fileMatches isAudio (canvasIndexOf ("_" ++ "canvas12")) file = false).
Proof.
  split; [reflexivity|].
  apply (C2_canvas_index "canvas12"). reflexivity.
Defined.

Lemma C6_witness :
  let record := row_of_cells
    [("hierarchy", "root/manifest1"); ("label", "Album");
     ("provider.id", "https://example.org"); ("provider.type", "Agent");
     ("homepage.id", "https://example.org/home"); ("homepage.type", "Text");
     ("homepage.label", "Home")] in
  csv_typed record
  /\ exists info,
       createInfo record = Ok info
       /\ forall group subkeys, In (group, subkeys) compoundGroups ->
            Obj.get info group =
            if forallb (fun sub => present_nonempty record (group ++ "." ++ sub)) subkeys
            then Some (YMap (map (fun sub => (sub, field record (group ++ "." ++ sub))) subkeys))
            else None.
Proof.
  split; [apply row_of_cells_csv_typed|].
  apply (C6_compound_groups
           (row_of_cells
              [("hierarchy", "root/manifest1"); ("label", "Album");
               ("provider.id", "https://example.org"); ("provider.type", "Agent");
               ("homepage.id", "https://example.org/home"); ("homepage.type", "Text");
               ("homepage.label", "Home")])).
  apply row_of_cells_csv_typed.
Defined.

Example C6_partial_group_dropped :
  createInfo (row_of_cells
    [("hierarchy", "root/manifest1"); ("label", "Album");
     ("provider.id", "https://example.org"); ("provider.type", "Agent");
     ("homepage.id", "https://example.org/home"); ("homepage.type", "Text");
     ("homepage.label", "Home")])
  = Ok [("label", YScalar (Str "Album"));
        ("homepage", YMap [("id", Str "https://example.org/home");
                           ("type", Str "Text"); ("label", Str "Home")])].
Proof. vm_compute. reflexivity. Qed.

(** A file system that holds one asset, and the index of its scan. *)
Definition demo_fs : FS.t :=
  FS.update (FS.resolve "in/scan_01.jpg") (FS.File "JFIF") FS.empty.

Definition demo_index : FileMap := [("in", ["in/scan_01.jpg"])].

Definition demo_images : Obj.obj ImageMetadata :=
  [("in/scan_01.jpg",
    {| md_width := Some (number_of_Z 640 false);
       md_height := Some (number_of_Z 480 false) |})].

Definition demo_world : world := {| fs := demo_fs; log := [] |}.

Lemma demo_io_ready : io_ready "out" "root/canvas1" (Some demo_index) demo_fs.
Proof.
  split; [|split].
  - intros pre Hin. vm_compute in Hin.
    destruct Hin as [<-|[<-|[<-|[<-|[]]]]]; vm_compute; reflexivity.
  - intros name. unfold demo_fs, FS.update.
    destruct (FS.fspath_eqb _ _); discriminate.
  - intros file [<-|[]]. split; [vm_compute; reflexivity|].
    repeat split; vm_compute; discriminate.
Qed.

(** C8, as stated, fails: the canvas of [root//canvas1] has the empty parent
    segment, which is not a manifest, and the run adds no warning. *)
Lemma C8_counterexample :
  let record := row_of_cells [("hierarchy", "root//canvas1"); ("label", "Page 1")] in
  let run := processRecord (Demo.sharp []) (Demo.ffprobe []) Demo.dump
               record "out" None None Demo.start in
  startsWith (terminalSegment "root//canvas1") "canvas" = true
  /\ parentSegment "root//canvas1" = Some ""
  /\ includes "" "manifest" = false
  /\ fst run = Ok tt
  /\ log (snd run) = []
  /\ FS.is_dir (fs (snd run)) (FS.resolve "out/root/_canvas1") = true.
Proof. vm_compute. repeat split. Qed.

Lemma C8_witness :
  let record := row_of_cells [("hierarchy", "root/canvas1"); ("label", "Page 1")] in
  let fullPath := fullPathOf "out" "root/canvas1" in
  field record "hierarchy" = Str "root/canvas1"
  /\ csv_typed record
  /\ io_ready "out" "root/canvas1" (Some demo_index) (fs demo_world)
  /\ (canvasViolation "root/canvas1" = true \/ manifestViolation "root/canvas1" = true)
  /\ exists w' evs,
       processRecord (Demo.sharp demo_images) (Demo.ffprobe []) Demo.dump
         record "out" (Some "in") (Some demo_index) demo_world = (Ok tt, w')
       /\ log w' = (log demo_world ++ evs)%list
       /\ (canvasViolation "root/canvas1" = true ->
           In (Warn (canvasWarning (terminalSegment "root/canvas1")
                       (parentText "root/canvas1"))) evs)
       /\ (manifestViolation "root/canvas1" = true ->
           In (Warn (manifestWarning (terminalSegment "root/canvas1")
                       (parentText "root/canvas1"))) evs)
       /\ FS.is_dir (fs w') (FS.resolve fullPath) = true
       /\ exists record' info,
            same_shape record record'
            /\ createInfo record' = Ok info
            /\ fs w' (FS.resolve (join [fullPath; "info.yml"]))
               = Some (FS.File (Demo.dump info)).
Proof.
  split; [reflexivity|]. split; [apply row_of_cells_csv_typed|].
  split; [exact demo_io_ready|]. split; [left; reflexivity|].
  apply (C8_nesting_violation_is_not_fatal
           (Demo.sharp demo_images) (Demo.ffprobe []) Demo.dump
           (row_of_cells [("hierarchy", "root/canvas1"); ("label", "Page 1")])
           "out" (Some "in") (Some demo_index) "root/canvas1" demo_world).
  - reflexivity.
  - apply row_of_cells_csv_typed.
  - exact demo_io_ready.
  - left. reflexivity.
Defined.

Lemma C7_witness :
  let record := row_of_cells [("hierarchy", "root/canvas1"); ("label", "Page 1")] in
  let fullPath := fullPathOf "out" "root/canvas1" in
  field record "hierarchy" = Str "root/canvas1"
  /\ csv_typed record
  /\ io_ready "out" "root/canvas1" (Some demo_index) (fs demo_world)
  /\ startsWith (terminalSegment "root/canvas1") "canvas" = true
  /\ basename fullPath = "_" ++ terminalSegment "root/canvas1"
  /\ last (snd (FS.resolve fullPath)) "" = "_" ++ terminalSegment "root/canvas1"
  /\ stripMarker (basename fullPath) = terminalSegment "root/canvas1"
  /\ exists w',
       processRecord (Demo.sharp demo_images) (Demo.ffprobe []) Demo.dump
         record "out" (Some "in") (Some demo_index) demo_world = (Ok tt, w')
       /\ FS.is_dir (fs w') (FS.resolve fullPath) = true.
Proof.
  split; [reflexivity|]. split; [apply row_of_cells_csv_typed|].
  split; [exact demo_io_ready|]. split; [reflexivity|].
  apply (C7_canvas_marker_round_trip
           (Demo.sharp demo_images) (Demo.ffprobe []) Demo.dump
           (row_of_cells [("hierarchy", "root/canvas1"); ("label", "Page 1")])
           "out" (Some "in") (Some demo_index) "root/canvas1" demo_world).
  - reflexivity.
  - apply row_of_cells_csv_typed.
  - exact demo_io_ready.
  - reflexivity.
Defined.






(** Two buckets of two directories of the assets, with a file that fits the
    first canvas in each of them. *)
Definition pool_index : FileMap :=
  [("in/a", ["in/a/scan_01.jpg"; "in/a/scan_02.jpg"]);
   ("in/b/deep", ["in/b/deep/cover_1.jpeg"])].

Definition pool_world : world :=
  {| fs := FS.update (FS.resolve "in/a/scan_01.jpg") (FS.File "one")
             (FS.update (FS.resolve "in/a/scan_02.jpg") (FS.File "two")
                (FS.update (FS.resolve "in/b/deep/cover_1.jpeg") (FS.File "cover")
                   FS.empty));
     log := [] |}.

Definition pool_row : CSVRow :=
  row_of_cells [("hierarchy", "root/manifest1/canvas1"); ("label", "Page 1")].

Lemma C9_witness :
  let run :=
    processRecord (Demo.sharp demo_images) (Demo.ffprobe []) Demo.dump pool_row
      "out" (Some "in") (Some pool_index) pool_world in
  field pool_row "hierarchy" = Str "root/manifest1/canvas1"
  /\ truthy_opt (Some "in") = true
  /\ startsWith (terminalSegment "root/manifest1/canvas1") "canvas" = true
  /\ fst run = Ok tt
  /\ In (available pool_index) (log (snd run))
  /\ FS.is_file (fs (snd run))
       (FS.resolve "out/root/manifest1/_canvas1/scan_01.jpg") = true
  /\ FS.is_file (fs (snd run))
       (FS.resolve "out/root/manifest1/_canvas1/cover_1.jpeg") = true
  /\ fs (snd run) (FS.resolve "out/root/manifest1/_canvas1/scan_02.jpg")
     = fs pool_world (FS.resolve "out/root/manifest1/_canvas1/scan_02.jpg").
Proof.
  cbv zeta.
  assert (Hh : field pool_row "hierarchy" = Str "root/manifest1/canvas1")
    by (vm_compute; reflexivity).
  assert (Hok : fst (processRecord (Demo.sharp demo_images) (Demo.ffprobe [])
                       Demo.dump pool_row "out" (Some "in") (Some pool_index)
                       pool_world) = Ok tt)
    by (vm_compute; reflexivity).
  assert (P1 : fileMatches (audioRow "root/manifest1/canvas1")
                 (canvasIndexOf ("_" ++ terminalSegment "root/manifest1/canvas1"))
                 "in/a/scan_01.jpg" = true)
    by (vm_compute; reflexivity).
  assert (P2 : fileMatches (audioRow "root/manifest1/canvas1")
                 (canvasIndexOf ("_" ++ terminalSegment "root/manifest1/canvas1"))
                 "in/b/deep/cover_1.jpeg" = true)
    by (vm_compute; reflexivity).
  assert (T1 : FS.resolve (join [fullPathOf "out" "root/manifest1/canvas1";
                                 basename "in/a/scan_01.jpg"])
               = FS.resolve "out/root/manifest1/_canvas1/scan_01.jpg")
    by (vm_compute; reflexivity).
  assert (T2 : FS.resolve (join [fullPathOf "out" "root/manifest1/canvas1";
                                 basename "in/b/deep/cover_1.jpeg"])
               = FS.resolve "out/root/manifest1/_canvas1/cover_1.jpeg")
    by (vm_compute; reflexivity).
  destruct (C9_candidate_pool_is_whole_index (Demo.sharp demo_images)
              (Demo.ffprobe []) Demo.dump pool_row "out" (Some "in") pool_index
              "root/manifest1/canvas1" pool_world Hh eq_refl eq_refl Hok)
    as [Hav [Htaken [Hframe _]]].
  split; [exact Hh|]. split; [reflexivity|]. split; [reflexivity|].
  split; [exact Hok|]. split; [exact Hav|]. split; [|split].
  - rewrite <- T1.
    apply (Htaken "in/a" ["in/a/scan_01.jpg"; "in/a/scan_02.jpg"]);
      [left; reflexivity|left; reflexivity|exact P1].
  - rewrite <- T2.
    apply (Htaken "in/b/deep" ["in/b/deep/cover_1.jpeg"]);
      [right; left; reflexivity|left; reflexivity|exact P2].
  - apply Hframe.
    + intros pre Hpre. vm_compute in Hpre.
      repeat (destruct Hpre as [<-|Hpre]; [vm_compute; discriminate|]).
      destruct Hpre.
    + vm_compute. discriminate.
    + intros dirName bucket file Hb Hf Hp Ek.
      cbn [pool_index In] in Hb.
      destruct Hb as [[= <- <-]|[[= <- <-]|[]]]; cbn [In] in Hf.
      * destruct Hf as [<-|[<-|[]]].
        -- rewrite T1 in Ek. vm_compute in Ek. discriminate Ek.
        -- vm_compute in Hp. discriminate Hp.
      * destruct Hf as [<-|[]].
        rewrite T2 in Ek. vm_compute in Ek. discriminate Ek.
Defined.

Example demo_run :
  let record := row_of_cells [("hierarchy", "root/canvas1"); ("label", "Page 1")] in
  let run := processRecord (Demo.sharp demo_images) (Demo.ffprobe []) Demo.dump
               record "out" (Some "in") (Some demo_index) demo_world in
  fst run = Ok tt
  /\ filter (fun e => match e with ConsoleLog _ => false | _ => true end) (log (snd run))
     = [Warn "Warning: Canvas canvas1 must be inside a manifest. Current parent: root"]
  /\ fs (snd run) (FS.resolve "out/root/_canvas1/scan_01.jpg") = Some (FS.File "JFIF")
  /\ fs (snd run) (FS.resolve "out/root/_canvas1/info.yml")
     = Some (FS.File (Demo.dump [("label", YScalar (Str "Page 1"));
                                 ("width", YScalar (Num (number_of_Z 640 false)));
                                 ("height", YScalar (Num (number_of_Z 480 false)))])).
Proof. vm_compute. repeat split. Qed.

(** Pixel sizes as [sharp] reports them are written to the document as they
    are: every size from 1 to 2048 is read back by [parseInt] from its text,
    and by [parseFloat] as well. *)
Example sizes_read_back :
  forallb
    (fun z =>
       let n := number_of_Z z false in
       strict_eq (parseInt (Number_toString n)) n
       && strict_eq (parseFloat (Number_toString n)) n)
    (map Z.of_nat (seq 1 2048))
  = true.
Proof. vm_compute. reflexivity. Qed.

(** Durations with a fraction, as [ffprobe] reports them, are read back by
    [parseFloat] from their text as well: a few of them. *)
Example durations_read_back :
  forallb
    (fun d =>
       let n := StringToNumber d in
       strict_eq (parseFloat (Number_toString n)) n)
    ["183.431000"; "12.500000"; "0.100000"; "3599.999999"; "0.026122";
     "7200.000000"]
  = true.
Proof. vm_compute. reflexivity. Qed.

Example text_of_numbers :
  Number_toString (StringToNumber "183.431000") = "183.431"
  /\ Number_toString (StringToNumber "7200.000000") = "7200"
  /\ Number_toString (StringToNumber "0.0000003") = "3e-7"
  /\ Number_toString (StringToNumber "1000000000000000000000") = "1e+21".
Proof. vm_compute. repeat split. Qed.

Example parseInt_09 : parseInt "09" = number_of_Z 9 false.
Proof. vm_compute. reflexivity. Qed.
Example parseInt_big :
  strict_eq (parseInt "9007199254740993") (parseInt "9007199254740992") = true.
Proof. vm_compute. reflexivity. Qed.
Example parseInt_hex : parseInt " 0x1f" = number_of_Z 31 false.
Proof. vm_compute. reflexivity. Qed.
Example parseInt_neg0 : parseInt "-0" = S754_zero true.
Proof. vm_compute. reflexivity. Qed.
Example parseInt_1b2 : parseInt "1b2" = number_of_Z 1 false.
Proof. vm_compute. reflexivity. Qed.
Example parseInt_none : parseInt "p3" = NaN.
Proof. vm_compute. reflexivity. Qed.
Example split_ex : split "/" "a//b/" = ["a"; ""; "b"; ""].
Proof. vm_compute. reflexivity. Qed.
Example trim_ex : trim "  a b " = "a b".
Proof. vm_compute. reflexivity. Qed.
Example replace_ex : replace_str "metadata." "" "metadata.Author" = "Author".
Proof. vm_compute. reflexivity. Qed.
Example basename_ex : basename "in/a.b/Part09.mp3" = "Part09.mp3".
Proof. vm_compute. reflexivity. Qed.
Example extname_ex1 : extname "in/a.b/x_01.JPG" = ".JPG".
Proof. vm_compute. reflexivity. Qed.
Example extname_ex2 : extname ".bashrc" = "" /\ extname "a/.." = "" /\ extname "..a" = ".a"
  /\ extname "a." = "." /\ extname "a.b/" = ".b" /\ extname "noext" = "".
Proof. vm_compute. repeat split. Qed.
Example dirname_ex : dirname "a//b" = "a/" /\ dirname "/a" = "/" /\ dirname "//a" = "//"
  /\ dirname "a" = "." /\ dirname "in/sub/x.jpg" = "in/sub" /\ dirname "a/b/" = "a".
Proof. vm_compute. repeat split. Qed.
Example join_ex : join ["out"; "root"; ""; "manifest1"; "_canvas1"] = "out/root/manifest1/_canvas1"
  /\ join ["out/"; ""] = "out/" /\ join ["/"; "a"; ".."; ".."] = "/" /\ join [""; ""] = "."
  /\ join ["a"; ".."; ".."; "b"] = "../b" /\ join ["./out"; "x"] = "out/x".
Proof. vm_compute. repeat split. Qed.
Example replace_canvas :
  Regex.replace (Plus (fun c => mem c "_canvas")) "" "_canvas12" = "12"
  /\ Regex.replace (Plus (fun c => mem c "_canvas")) "" "x_canvas12_a" = "x12_a".
Proof. vm_compute. repeat split. Qed.

(* ===================================================================== *)
(** ** Instances of the further properties                                *)
(* ===================================================================== *)

Module Fixture.

(** A parser and a glob that answer from tables. *)
Definition parse (table : Obj.obj (list CSVRow)) (content : string)
  : list CSVRow + string :=
  match Obj.get table content with
  | Some records => inl records
  | None => inr "Invalid Record Length"
  end.

Definition glob (table : Obj.obj (list string)) (pattern : string) (_ : FS.t)
  : list string :=
  match Obj.get table pattern with
  | Some entries => entries
  | None => []
  end.

Definition page : CSVRow :=
  row_of_cells [("hierarchy", "root/canvas1"); ("label", "Page 1")].

Definition book : CSVRow :=
  row_of_cells [("hierarchy", "root/manifest1"); ("label", "Book");
                ("summary", ""); ("width", "640");
                ("metadata.Author", "Ann"); ("metadata.Date", "")].

(** A row with descriptive columns of every kind of name. *)
Definition tagged : CSVRow :=
  row_of_cells [("hierarchy", "root/manifest1"); ("label", "Book");
                ("metadata.Author", "Ann"); ("metadata.10", "ten");
                ("metadata.__proto__", "none"); ("metadata.Date", "");
                ("metadata.2", "two")].

Definition sharp := Demo.sharp demo_images.
Definition ffprobe := Demo.ffprobe [].

(** The directory [in] with a scan, and the CSV file. *)
Definition disk : FS.t :=
  FS.update (FS.resolve "meta.csv") (FS.File "hierarchy,label")
    (FS.update (FS.resolve "in") FS.Dir demo_fs).

Definition argv : list string :=
  ["node"; "csv-to-biiif.ts"; "meta.csv"; "out"; "in"].

Definition csv : Obj.obj (list CSVRow) := [("hierarchy,label", [book; page])].

Definition listing : Obj.obj (list string) := [("in/**/*", ["in/scan_01.jpg"])].

End Fixture.

Lemma X6_witness :
  csv_typed Fixture.book
  /\ exists info,
       createInfo Fixture.book = Ok info
       /\ Obj.get info "label" = Some (YScalar (Str "Book"))
       /\ Obj.get info "summary" = None.
Proof.
  split; [apply row_of_cells_csv_typed|].
  destruct (X6_createInfoYml_plain_fields Fixture.book
              (row_of_cells_csv_typed _)) as [info [Hinfo H]].
  exists info. split; [exact Hinfo|]. split.
  - rewrite (H "label") by (simpl; tauto). reflexivity.
  - rewrite (H "summary") by (simpl; tauto). reflexivity.
Defined.

Lemma X8_witness :
  NoDup (Obj.keys Fixture.tagged)
  /\ csv_typed Fixture.tagged
  /\ exists info,
       createInfo Fixture.tagged = Ok info
       /\ Obj.get (metadataBag Fixture.tagged) "Author" = Some (Str "Ann")
       /\ Obj.get (metadataBag Fixture.tagged) "Date" = None
       /\ Obj.get (metadataBag Fixture.tagged) "__proto__" = None
       /\ Obj.get info "metadata"
          = Some (YMap [("2", Str "two"); ("10", Str "ten"); ("Author", Str "Ann")])
       /\ exists indices,
            Obj.keys (metadataBag Fixture.tagged) = (indices ++ ["Author"])%list
            /\ ascending (-1) indices
            /\ Permutation indices ["10"; "2"].
Proof.
  split; [apply row_of_cells_NoDup|]. split; [apply row_of_cells_csv_typed|].
  destruct (X8_createInfoYml_metadata_bag Fixture.tagged
              (row_of_cells_NoDup _) (row_of_cells_csv_typed _))
    as [info [Hinfo [Hbag [Hmeta Horder]]]].
  exists info. split; [exact Hinfo|].
  split; [rewrite (Hbag "Author"); reflexivity|].
  split; [rewrite (Hbag "Date"); reflexivity|].
  split; [rewrite (Hbag "__proto__"); reflexivity|].
  split; [rewrite Hmeta; reflexivity|].
  exact Horder.
Defined.

(** A row whose only descriptive column is [metadata.__proto__] has no
    [metadata] in its document. *)
Example bag_without_properties :
  createInfo (row_of_cells [("hierarchy", "root"); ("metadata.__proto__", "none")])
  = Ok [].
Proof. vm_compute. reflexivity. Qed.

Lemma X9_witness :
  createInfo Fixture.book
  = Ok [("label", YScalar (Str "Book"));
        ("width", YScalar (Num (number_of_Z 640 false)));
        ("metadata", YMap [("Author", Str "Ann")])]
  /\ Obj.get [("label", YScalar (Str "Book"));
              ("width", YScalar (Num (number_of_Z 640 false)));
              ("metadata", YMap [("Author", Str "Ann")])] "hierarchy" = None.
Proof.
  assert (E : createInfo Fixture.book
              = Ok [("label", YScalar (Str "Book"));
                    ("width", YScalar (Num (number_of_Z 640 false)));
                    ("metadata", YMap [("Author", Str "Ann")])])
    by (vm_compute; reflexivity).
  split; [exact E|].
  exact (proj2 (proj2 (X9_createInfoYml_key_order Fixture.book _ E))).
Defined.

Lemma X21_witness :
  createInfo Fixture.book
  = Ok [("label", YScalar (Str "Book"));
        ("width", YScalar (Num (number_of_Z 640 false)));
        ("metadata", YMap [("Author", Str "Ann")])]
  /\ Obj.get Fixture.book "width" = Some (Str "640")
  /\ parseInt "640" = number_of_Z (digitsValue 0 "640") false.
Proof.
  assert (E : createInfo Fixture.book
              = Ok [("label", YScalar (Str "Book"));
                    ("width", YScalar (Num (number_of_Z 640 false)));
                    ("metadata", YMap [("Author", Str "Ann")])])
    by (vm_compute; reflexivity).
  assert (G : Obj.get Fixture.book "width" = Some (Str "640"))
    by (vm_compute; reflexivity).
  split; [exact E|]. split; [exact G|].
  assert (N : "640" <> "") by discriminate.
  destruct (X21_createInfoYml_dimensions_are_numbers Fixture.book _ "width" "640"
              E (or_introl eq_refl) G N) as [_ [Hd _]].
  apply Hd. reflexivity.
Defined.

Lemma X10_witness :
  let run :=
    processRecord Fixture.sharp Fixture.ffprobe Demo.dump Fixture.page
      "out" (Some "in") (Some demo_index) demo_world in
  field Fixture.page "hierarchy" = Str "root/canvas1"
  /\ ~ In ".." (split "/" "root/canvas1")
  /\ fst run = Ok tt
  /\ FS.resolve (fullPathOf "out" "root/canvas1")
     = (false, ["out"; "root"; "_canvas1"])
  /\ FS.is_dir (fs (snd run)) (false, ["out"; "root"; "_canvas1"]) = true.
Proof.
  cbv zeta.
  assert (Hh : field Fixture.page "hierarchy" = Str "root/canvas1")
    by (vm_compute; reflexivity).
  assert (Hdd : ~ In ".." (split "/" "root/canvas1"))
    by (vm_compute; intros [E|[E|[]]]; discriminate E).
  assert (Hok : fst (processRecord Fixture.sharp Fixture.ffprobe Demo.dump
                       Fixture.page "out" (Some "in") (Some demo_index) demo_world)
                = Ok tt)
    by (vm_compute; reflexivity).
  split; [exact Hh|]. split; [exact Hdd|]. split; [exact Hok|].
  destruct (X10_row_directory_below_output Fixture.sharp Fixture.ffprobe Demo.dump
              Fixture.page "out" (Some "in") (Some demo_index) "root/canvas1"
              demo_world Hh Hdd Hok) as [HK [Hd _]].
  split; [exact HK|exact Hd].
Defined.

Lemma X11_witness :
  let run :=
    processRecord Fixture.sharp Fixture.ffprobe Demo.dump Fixture.page
      "out" (Some "in") (Some demo_index) demo_world in
  let K := FS.resolve (fullPathOf "out" "root/canvas1") in
  let k := FS.resolve "in/scan_01.jpg" in
  field Fixture.page "hierarchy" = Str "root/canvas1"
  /\ (forall pre, In pre (FS.inits (snd K)) -> k <> (fst K, pre))
  /\ (forall name, k <> child K name)
  /\ fs (snd run) k = fs demo_world k.
Proof.
  cbv zeta.
  assert (Hh : field Fixture.page "hierarchy" = Str "root/canvas1")
    by (vm_compute; reflexivity).
  assert (Hpre : forall pre,
            In pre (FS.inits (snd (FS.resolve (fullPathOf "out" "root/canvas1")))) ->
            FS.resolve "in/scan_01.jpg"
            <> (fst (FS.resolve (fullPathOf "out" "root/canvas1")), pre)).
  { intros pre Hin. vm_compute in Hin.
    destruct Hin as [<-|[<-|[<-|[<-|[]]]]]; vm_compute; discriminate. }
  assert (Hchild : forall name,
            FS.resolve "in/scan_01.jpg"
            <> child (FS.resolve (fullPathOf "out" "root/canvas1")) name).
  { intros name. vm_compute. discriminate. }
  split; [exact Hh|]. split; [exact Hpre|]. split; [exact Hchild|].
  exact (X11_processRecord_frame Fixture.sharp Fixture.ffprobe Demo.dump
           Fixture.page "out" (Some "in") (Some demo_index) "root/canvas1"
           demo_world (FS.resolve "in/scan_01.jpg") Hh Hpre Hchild).
Defined.

Lemma X13_witness :
  let run :=
    processRecord Fixture.sharp Fixture.ffprobe Demo.dump Fixture.page
      "out" (Some "in") (Some demo_index) demo_world in
  let K := FS.resolve (fullPathOf "out" "root/canvas1") in
  field Fixture.page "hierarchy" = Str "root/canvas1"
  /\ truthy_opt (Some "in") = true
  /\ startsWith (terminalSegment "root/canvas1") "canvas" = true
  /\ matchingFiles "root/canvas1" demo_index = ["in/scan_01.jpg"]
  /\ (forall file, In file (matchingFiles "root/canvas1" demo_index) ->
        plain (basename file) /\ forall name, FS.resolve file <> child K name)
  /\ fst run = Ok tt
  /\ exists winner content,
       lastNamed (basename "in/scan_01.jpg") (matchingFiles "root/canvas1" demo_index)
       = Some winner
       /\ (NoDup (map basename (matchingFiles "root/canvas1" demo_index)) ->
           winner = "in/scan_01.jpg")
       /\ fs demo_world (FS.resolve winner) = Some (FS.File content)
       /\ fs (snd run) (child K (basename "in/scan_01.jpg"))
          = Some (FS.File content).
Proof.
  cbv zeta.
  assert (Hh : field Fixture.page "hierarchy" = Str "root/canvas1")
    by (vm_compute; reflexivity).
  assert (Hm : matchingFiles "root/canvas1" demo_index = ["in/scan_01.jpg"])
    by (vm_compute; reflexivity).
  assert (Hfiles : forall file,
            In file (matchingFiles "root/canvas1" demo_index) ->
            plain (basename file)
            /\ forall name,
                 FS.resolve file
                 <> child (FS.resolve (fullPathOf "out" "root/canvas1")) name).
  { intros file Hin. rewrite Hm in Hin. destruct Hin as [<-|[]]. split.
    - repeat split; vm_compute; discriminate.
    - intros name. vm_compute. discriminate. }
  assert (Hok : fst (processRecord Fixture.sharp Fixture.ffprobe Demo.dump
                       Fixture.page "out" (Some "in") (Some demo_index) demo_world)
                = Ok tt)
    by (vm_compute; reflexivity).
  split; [exact Hh|]. split; [reflexivity|]. split; [reflexivity|].
  split; [exact Hm|]. split; [exact Hfiles|]. split; [exact Hok|].
  apply (X13_processRecord_copies Fixture.sharp Fixture.ffprobe Demo.dump
           Fixture.page "out" (Some "in") demo_index "root/canvas1" demo_world
           Hh eq_refl eq_refl Hfiles Hok).
  rewrite Hm. now left.
Defined.

Lemma X14_witness :
  let run :=
    processRecord Fixture.sharp Fixture.ffprobe Demo.dump Fixture.page
      "out" (Some "in") (Some []) demo_world in
  field Fixture.page "hierarchy" = Str "root/canvas1"
  /\ exists evs,
       log (snd run) = (log demo_world ++ evs)%list
       /\ In (ConsoleWarn [AStr "No matching files found for canvas _canvas1"]) evs.
Proof.
  cbv zeta.
  assert (Hh : field Fixture.page "hierarchy" = Str "root/canvas1")
    by (vm_compute; reflexivity).
  split; [exact Hh|].
  destruct (X14_no_match_warning Fixture.sharp Fixture.ffprobe Demo.dump
              Fixture.page "out" (Some "in") (Some []) "root/canvas1" demo_world Hh)
    as [evs [Hlog [_ Hwarn]]].
  exists evs. split; [exact Hlog|].
  assert (Emk : exists f1,
            FS.mkdirSync (fullPathOf "out" "root/canvas1") (fs demo_world) = Ok f1)
    by (eexists; vm_compute; reflexivity).
  destruct Emk as [f1 Emk].
  exact (Hwarn [] f1 eq_refl eq_refl eq_refl eq_refl Emk).
Defined.

Lemma X18_witness :
  let run :=
    processRecord Fixture.sharp Fixture.ffprobe Demo.dump Fixture.book
      "out" (Some "in") (Some demo_index) demo_world in
  let K := FS.resolve (fullPathOf "out" "root/manifest1") in
  field Fixture.book "hierarchy" = Str "root/manifest1"
  /\ takesFiles "root/manifest1" (Some "in") (Some demo_index) = false
  /\ fst run = Ok tt
  /\ exists info,
       createInfo Fixture.book = Ok info
       /\ fs (snd run) (child K "info.yml") = Some (FS.File (Demo.dump info))
       /\ (forall name, name <> "info.yml" ->
             fs (snd run) (child K name) = fs demo_world (child K name))
       /\ log (snd run) = (log demo_world ++ nestingEvents "root/manifest1")%list.
Proof.
  cbv zeta.
  assert (Hh : field Fixture.book "hierarchy" = Str "root/manifest1")
    by (vm_compute; reflexivity).
  assert (Hno : takesFiles "root/manifest1" (Some "in") (Some demo_index) = false)
    by (vm_compute; reflexivity).
  assert (Hok : fst (processRecord Fixture.sharp Fixture.ffprobe Demo.dump
                       Fixture.book "out" (Some "in") (Some demo_index) demo_world)
                = Ok tt)
    by (vm_compute; reflexivity).
  split; [exact Hh|]. split; [exact Hno|]. split; [exact Hok|].
  exact (X18_rows_without_files Fixture.sharp Fixture.ffprobe Demo.dump
           Fixture.book "out" (Some "in") (Some demo_index) "root/manifest1"
           demo_world Hh Hno Hok).
Defined.

Lemma X19_witness :
  let run :=
    csvToHierarchy Fixture.sharp Fixture.ffprobe Demo.dump (fun p => p)
      [Fixture.book; Fixture.page] "out" (Some "in") ["in/scan_01.jpg"]
      demo_world in
  fst run = Ok tt
  /\ FS.is_dir (fs (snd run)) (false, ["out"; "root"; "manifest1"]) = true
  /\ FS.is_file (fs (snd run)) (false, ["out"; "root"; "manifest1"; "info.yml"])
     = true.
Proof.
  cbv zeta.
  assert (Hok : fst (csvToHierarchy Fixture.sharp Fixture.ffprobe Demo.dump
                       (fun p => p) [Fixture.book; Fixture.page] "out" (Some "in")
                       ["in/scan_01.jpg"] demo_world) = Ok tt)
    by (vm_compute; reflexivity).
  split; [exact Hok|].
  destruct (X19_conversion_writes_every_row Fixture.sharp Fixture.ffprobe Demo.dump
              (fun p => p) [Fixture.book; Fixture.page] "out" (Some "in")
              ["in/scan_01.jpg"] demo_world Hok Fixture.book (or_introl eq_refl))
    as [hierarchy [Hh H]].
  assert (Eh : hierarchy = "root/manifest1").
  { assert (G : field Fixture.book "hierarchy" = Str "root/manifest1")
      by (vm_compute; reflexivity).
    congruence. }
  subst hierarchy.
  apply H. vm_compute. intros [E|[E|[]]]; discriminate E.
Defined.

Lemma X20_witness :
  let run :=
    csvToHierarchy Fixture.sharp Fixture.ffprobe Demo.dump (fun p => p)
      [Fixture.book; Fixture.page] "out" (Some "in") ["in/scan_01.jpg"]
      demo_world in
  let k := FS.resolve "in/scan_01.jpg" in
  (forall record hierarchy,
     In record [Fixture.book; Fixture.page] ->
     field record "hierarchy" = Str hierarchy ->
     let K := FS.resolve (fullPathOf "out" hierarchy) in
     (forall pre, In pre (FS.inits (snd K)) -> k <> (fst K, pre))
     /\ (forall name, k <> child K name))
  /\ fs (snd run) k = fs demo_world k.
Proof.
  cbv zeta.
  assert (H : forall record hierarchy,
            In record [Fixture.book; Fixture.page] ->
            field record "hierarchy" = Str hierarchy ->
            (forall pre,
               In pre (FS.inits (snd (FS.resolve (fullPathOf "out" hierarchy)))) ->
               FS.resolve "in/scan_01.jpg"
               <> (fst (FS.resolve (fullPathOf "out" hierarchy)), pre))
            /\ (forall name,
                  FS.resolve "in/scan_01.jpg"
                  <> child (FS.resolve (fullPathOf "out" hierarchy)) name)).
  { intros record hierarchy [<-|[<-|[]]] Hh; vm_compute in Hh;
      injection Hh as <-; (split;
        [intros pre Hin; vm_compute in Hin;
         destruct Hin as [<-|[<-|[<-|[<-|[]]]]]; vm_compute; discriminate
        |intros name; vm_compute; discriminate]). }
  split; [exact H|].
  exact (X20_conversion_frame Fixture.sharp Fixture.ffprobe Demo.dump (fun p => p)
           [Fixture.book; Fixture.page] "out" (Some "in") ["in/scan_01.jpg"]
           demo_world (FS.resolve "in/scan_01.jpg") H).
Defined.

Lemma X17_witness :
  let w := {| fs := Fixture.disk; log := [] |} in
  let run :=
    main Fixture.sharp Fixture.ffprobe Demo.dump (fun p => p)
      (Fixture.parse Fixture.csv) (Fixture.glob Fixture.listing) Fixture.argv w in
  nth_error Fixture.argv 2 = Some "meta.csv" /\ "meta.csv" <> ""
  /\ nth_error Fixture.argv 3 = Some "out" /\ "out" <> ""
  /\ (forall dir, nth_error Fixture.argv 4 = Some dir -> dir <> "" ->
        existsSync dir (fs w) = true)
  /\ existsSync "meta.csv" (fs w) = true
  /\ readFileSync "meta.csv" (fs w) = Ok "hierarchy,label"
  /\ Fixture.parse Fixture.csv "hierarchy,label" = inl [Fixture.book; Fixture.page]
  /\ fst (fst run) = Returned
  /\ snd run = [].
Proof.
  cbv zeta.
  assert (Hdir : forall dir, nth_error Fixture.argv 4 = Some dir -> dir <> "" ->
            existsSync dir Fixture.disk = true)
    by (intros dir [= <-] _; vm_compute; reflexivity).
  assert (Xc : existsSync "meta.csv" Fixture.disk = true) by (vm_compute; reflexivity).
  assert (R : readFileSync "meta.csv" Fixture.disk = Ok "hierarchy,label")
    by (vm_compute; reflexivity).
  assert (N1 : "meta.csv" <> "") by discriminate.
  assert (N2 : "out" <> "") by discriminate.
  split; [reflexivity|]. split; [exact N1|]. split; [reflexivity|].
  split; [exact N2|]. split; [exact Hdir|]. split; [exact Xc|].
  split; [exact R|]. split; [reflexivity|].
  rewrite (X17_main_runs_the_conversion Fixture.sharp Fixture.ffprobe Demo.dump
             (fun p => p) (Fixture.parse Fixture.csv) (Fixture.glob Fixture.listing)
             Fixture.argv {| fs := Fixture.disk; log := [] |}
             "meta.csv" "out" "hierarchy,label" [Fixture.book; Fixture.page]
             eq_refl N1 eq_refl N2 Hdir Xc R eq_refl).
  split; vm_compute; reflexivity.
Defined.

(** The output directory is a file: no directory can be made below it. *)
Definition blocked : world :=
  {| fs := FS.update (FS.resolve "out") (FS.File "") demo_fs; log := [] |}.

Lemma X22_witness :
  let run :=
    processRecord Fixture.sharp Fixture.ffprobe Demo.dump Fixture.page
      "out" (Some "in") (Some demo_index) blocked in
  let K := FS.resolve (fullPathOf "out" "root/canvas1") in
  field Fixture.page "hierarchy" = Str "root/canvas1"
  /\ (exists pre, In pre (FS.inits (snd K))
                  /\ FS.is_file (fs blocked) (fst K, pre) = true)
  /\ (exists e, fst run = Throw e)
  /\ (forall k, fs (snd run) k = fs blocked k)
  /\ log (snd run) = (log blocked ++ nestingEvents "root/canvas1")%list.
Proof.
  cbv zeta.
  assert (Hh : field Fixture.page "hierarchy" = Str "root/canvas1")
    by (vm_compute; reflexivity).
  assert (Hf : exists pre,
            In pre (FS.inits (snd (FS.resolve (fullPathOf "out" "root/canvas1"))))
            /\ FS.is_file (fs blocked)
                 (fst (FS.resolve (fullPathOf "out" "root/canvas1")), pre) = true).
  { exists ["out"]. split; vm_compute; [right; left|]; reflexivity. }
  split; [exact Hh|]. split; [exact Hf|].
  exact (X22_processRecord_mkdir_failure Fixture.sharp Fixture.ffprobe
           Demo.dump Fixture.page "out" (Some "in") (Some demo_index)
           "root/canvas1" blocked Hh Hf).
Defined.

Lemma X23_witness :
  let run :=
    processRecord Fixture.sharp Fixture.ffprobe Demo.dump Fixture.page
      "out" (Some "in") (Some demo_index) blocked in
  let K := FS.resolve (fullPathOf "out" "root/canvas1") in
  field Fixture.page "hierarchy" = Str "root/canvas1"
  /\ (exists e, fst run = Throw e)
  /\ fs (snd run) (child K "info.yml") = fs blocked (child K "info.yml").
Proof.
  cbv zeta.
  assert (Hh : field Fixture.page "hierarchy" = Str "root/canvas1")
    by (vm_compute; reflexivity).
  assert (Ht : exists e,
            fst (processRecord Fixture.sharp Fixture.ffprobe Demo.dump Fixture.page
                   "out" (Some "in") (Some demo_index) blocked) = Throw e)
    by (eexists; vm_compute; reflexivity).
  split; [exact Hh|]. split; [exact Ht|].
  exact (X23_processRecord_throw_keeps_sidecar Fixture.sharp Fixture.ffprobe
           Demo.dump Fixture.page "out" (Some "in") (Some demo_index)
           "root/canvas1" blocked Hh Ht).
Defined.

Lemma X24_witness :
  let run :=
    processRecord Fixture.sharp Fixture.ffprobe Demo.dump Fixture.page
      "out" (Some "in") (Some demo_index) demo_world in
  let K := FS.resolve (fullPathOf "out" "root/canvas1") in
  field Fixture.page "hierarchy" = Str "root/canvas1"
  /\ truthy_opt (Some "in") = true
  /\ startsWith (terminalSegment "root/canvas1") "canvas" = true
  /\ fst run = Ok tt
  /\ audioRow "root/canvas1" = false
  /\ exists info,
       fs (snd run) (child K "info.yml") = Some (FS.File (Demo.dump info))
       /\ Obj.get info "duration" = None.
Proof.
  cbv zeta.
  assert (Hh : field Fixture.page "hierarchy" = Str "root/canvas1")
    by (vm_compute; reflexivity).
  assert (Hok : fst (processRecord Fixture.sharp Fixture.ffprobe Demo.dump
                       Fixture.page "out" (Some "in") (Some demo_index) demo_world)
                = Ok tt)
    by (vm_compute; reflexivity).
  assert (Ha : audioRow "root/canvas1" = false) by (vm_compute; reflexivity).
  split; [exact Hh|]. split; [reflexivity|]. split; [reflexivity|].
  split; [exact Hok|]. split; [exact Ha|].
  destruct (X24_canvas_kind_limits_the_probes Fixture.sharp Fixture.ffprobe
              Demo.dump Fixture.page "out" (Some "in") demo_index "root/canvas1"
              demo_world Hh eq_refl eq_refl Hok) as [_ [info [Hf [_ Hd]]]].
  exists info. split; [exact Hf|]. rewrite (Hd Ha). reflexivity.
Defined.


Lemma X25_witness :
  let run :=
    csvToHierarchy Fixture.sharp Fixture.ffprobe Demo.dump (fun p => p)
      ([Fixture.book]
         ++ row_of_cells [("hierarchy", "root//manifest1"); ("label", "Album")]
         :: [Fixture.page])%list
      "out" (Some "in") ["in/scan_01.jpg"] demo_world in
  let K := FS.resolve (fullPathOf "out" "root//manifest1") in
  field (row_of_cells [("hierarchy", "root//manifest1"); ("label", "Album")])
    "hierarchy" = Str "root//manifest1"
  /\ K = FS.resolve (fullPathOf "out" "root/manifest1")
  /\ (forall later h, In later [Fixture.page] ->
        field later "hierarchy" = Str h ->
        FS.resolve (fullPathOf "out" h) <> K)
  /\ fst run = Ok tt
  /\ exists record' info,
       extracts Fixture.sharp Fixture.ffprobe
         (row_of_cells [("hierarchy", "root//manifest1"); ("label", "Album")])
         record'
       /\ createInfo record' = Ok info
       /\ fs (snd run) (child K "info.yml") = Some (FS.File (Demo.dump info)).
Proof.
  cbv zeta.
  assert (Hh : field (row_of_cells [("hierarchy", "root//manifest1");
                                    ("label", "Album")]) "hierarchy"
               = Str "root//manifest1")
    by (vm_compute; reflexivity).
  assert (Hlater : forall later h, In later [Fixture.page] ->
            field later "hierarchy" = Str h ->
            FS.resolve (fullPathOf "out" h)
            <> FS.resolve (fullPathOf "out" "root//manifest1")).
  { intros later h [<-|[]] Hl. vm_compute in Hl. injection Hl as <-.
    vm_compute. discriminate. }
  assert (Hok : fst (csvToHierarchy Fixture.sharp Fixture.ffprobe Demo.dump
                       (fun p => p)
                       ([Fixture.book]
                          ++ row_of_cells [("hierarchy", "root//manifest1");
                                           ("label", "Album")]
                          :: [Fixture.page])%list
                       "out" (Some "in") ["in/scan_01.jpg"] demo_world) = Ok tt)
    by (vm_compute; reflexivity).
  split; [exact Hh|]. split; [vm_compute; reflexivity|].
  split; [exact Hlater|]. split; [exact Hok|].
  exact (X25_last_row_of_a_directory_wins Fixture.sharp Fixture.ffprobe Demo.dump
           (fun p => p) [Fixture.book] [Fixture.page]
           (row_of_cells [("hierarchy", "root//manifest1"); ("label", "Album")])
           "out" (Some "in") ["in/scan_01.jpg"] demo_world "root//manifest1"
           Hh Hlater Hok).
Defined.
